(** * Sportsbook simulation core: churn hazard, ledger simulator,
      retention evaluator, calibration search and Monte Carlo harness.

    Shallow embedding of
      - [src/projects/sportsbook/run_sportsbook_analysis.py]
        ([generate_customers], [american_to_decimal], [simulate_ledger],
        [compute_still_active_retention], [calibrate_churn_config], and
        the build branch of [main]),
      - [src/projects/sportsbook/monte_carlo_validation.py] (the run loop
        of [main]) and
      - [src/projects/sportsbook/build_promo_impact.py]
        ([compute_sustained_payback_week]).

    Conventions of the embedding.
      - Python [float]s are exact rationals ([Q]); [NaN] in a DataFrame
        column is [None].  No statement of the first part of the
        properties depends on rounding; in the further properties, the
        equalities and bounds on computed amounts (fees, rates, weights,
        margins) are those of exact arithmetic.
      - Python [int]s are [Z].
      - Dictionaries keyed by segment name are [gmap string _]; the
        source reads them with [dict.get(key, default)].
      - The pseudo-random generators (NumPy's [Generator], the global
        state of Python's [random] module, pandas' seeded
        [DataFrame.sample]) and [math.exp]/[math.log] are library code:
        they are the interface [Runtime] below.  Every theorem holds for
        every implementation of that interface; a scripted implementation
        at the end of the file makes the model executable.
      - Library calls are taken on their domain: the exceptions Python
        raises outside it ([math.log] of a non-positive stake, a zero
        total weight in [random.choices], a division by an American price
        of 0) are not part of the model. *)

From Stdlib Require Import ZArith QArith Qround Qabs Lqa Lia List Bool Sorted
  Permutation.
From stdpp Require Import base strings gmap.
Import ListNotations.

Local Open Scope Z_scope.
Local Open Scope Q_scope.

(** ** Numbers *)

(** Python's [a < b] on floats. *)
Definition Qltb (a b : Q) : bool := negb (Qle_bool b a).

(** Python's builtin [max(a, b)] and [min(a, b)]: the first argument is
    kept unless the second is strictly better. *)
Definition py_max (a b : Q) : Q := if Qltb a b then b else a.
Definition py_min (a b : Q) : Q := if Qltb b a then b else a.

(** [np.clip(x, lo, hi)] is [np.minimum(hi, np.maximum(x, lo))]. *)
Definition np_clip (x lo hi : Q) : Q := py_min (py_max x lo) hi.

(** [np.clip] on Python ints. *)
Definition np_clip_int (x lo hi : Z) : Z := Z.min (Z.max x lo) hi.

(** Python's [round(x)] on a float: nearest integer, ties to even. *)
Definition py_round (x : Q) : Z :=
  let f := Qfloor x in
  let r := x - inject_Z f in
  if Qltb r 0.5 then f
  else if Qltb 0.5 r then (f + 1)%Z
  else if Z.even f then f else (f + 1)%Z.

Definition Qsum (l : list Q) : Q := fold_left Qplus l 0.

(** [d.get(key, default)] *)
Definition dict_get {V} (d : gmap string V) (key : string) (dflt : V) : V :=
  default dflt (d !! key).

(** ** Data model *)

(** DEFAULT_CHURN_CONFIG and the documents derived from it. *)
Record ChurnConfig := {
  base_weekly_churn : gmap string Q;
  alpha : Q;
  churn_plateau_mult : Q;
  early_churn_mult : gmap string Q;
  mid_churn_mult : gmap string Q;
  tail_churn_mult : gmap string Q;
  inactivity_mult : Q;
  negative_net_mult : Q;
  promo_hunter_post_promo_mult : Q;
  promo_hunter_post_promo_weeks : list Z;
  min_churn : Q;
  max_churn : Q
}.

Definition DEFAULT_CHURN_CONFIG : ChurnConfig := {|
  base_weekly_churn :=
    <["sharp" := 0.020]> (<["regular" := 0.050]>
      (<["casual" := 0.080]> (<["promo_hunter" := 0.120]> ∅)));
  alpha := 0.05;
  churn_plateau_mult := 0.68;
  early_churn_mult :=
    <["sharp" := 1.15]> (<["regular" := 1.25]>
      (<["casual" := 1.40]> (<["promo_hunter" := 1.60]> ∅)));
  mid_churn_mult :=
    <["regular" := 2.00]> (<["casual" := 2.40]> (<["promo_hunter" := 2.90]> ∅));
  tail_churn_mult :=
    <["regular" := 1.35]> (<["casual" := 1.70]> (<["promo_hunter" := 2.00]> ∅));
  inactivity_mult := 2.5;
  negative_net_mult := 1.45;
  promo_hunter_post_promo_mult := 1.20;
  promo_hunter_post_promo_weeks := [1; 2; 3; 4]%Z;
  min_churn := 0.006;
  max_churn := 0.65
|}.

(** CustomerProfile, one row of the customers DataFrame. *)
Record Customer := {
  customer_id : Z;
  segment : string;
  freq : Q;
  avg_stake : Q;
  pref_moneyline : Q;
  pref_spread : Q;
  pref_total : Q;
  pref_parlay : Q;
  promo_sensitivity : Q
}.

(** One row of [dim_event], as [simulate_ledger] reads it: [game_date] is
    a day number, a NULL [week] and a missing line are [None].  The team
    ids, which the query selects and the simulator never reads, are left
    out. *)
Record Event := {
  event_id : Z;
  season : Z;
  week : option Z;
  game_date : Z;
  is_playoff : bool;
  home_score : Z;
  away_score : Z;
  spread_line : option Q;
  total_line : option Q
}.

Definition home_margin (ev : Event) : Z := (home_score ev - away_score ev)%Z.
Definition total_points (ev : Event) : Z := (home_score ev + away_score ev)%Z.

Inductive BetType := moneyline | spread | total | parlay.
Inductive Selection := sel_home | sel_away | sel_over | sel_under.
Inductive Settled := win | lose | push.

Definition BetType_eqb (a b : BetType) : bool :=
  match a, b with
  | moneyline, moneyline | spread, spread | total, total | parlay, parlay => true
  | _, _ => false
  end.

Definition Settled_eqb (a b : Settled) : bool :=
  match a, b with
  | win, win | lose, lose | push, push => true
  | _, _ => false
  end.

(** Rows of the three ledgers. *)
Record BetRow := {
  bet_id : Z;
  bet_customer_id : Z;
  bet_datetime : Q;
  bet_type : BetType;
  stake_amount : Q;
  odds_decimal_avg : Q;
  gross_payout : Q;
  status : Settled
}.

Record LegRow := {
  bet_leg_id : Z;
  leg_bet_id : Z;
  leg_no : Z;
  leg_event_id : Z;
  market_type : BetType;
  selection : Selection;
  line_value : option Q;
  american_odds : Z;
  decimal_odds : Q;
  is_win : bool;
  is_push : bool;
  settled_result : Settled
}.

Record CostRow := {
  cost_id : Z;
  cost_bet_id : Z;
  promo_cost : Q;
  payment_fee : Q;
  tax : Q
}.

(** ** Library interface *)

Class Runtime : Type := {
  (** [numpy.random.Generator] *)
  Generator : Type;
  default_rng : Z -> Generator;
  rng_random : Generator -> Q * Generator;
  rng_integers : Z -> Z -> Generator -> Z * Generator;
  rng_uniform : Q -> Q -> Generator -> Q * Generator;
  rng_normal : Q -> Q -> Generator -> Q * Generator;
  rng_lognormal : Q -> Q -> Generator -> Q * Generator;
  rng_poisson : Q -> Generator -> Z * Generator;
  rng_choice : list string -> list Q -> Generator -> string * Generator;
  (** the process-wide state of Python's [random] module *)
  PyRandom : Type;
  random_seed : Z -> PyRandom;
  random_choices : list BetType -> list Q -> PyRandom -> BetType * PyRandom;
  (** [DataFrame.sample(n=n, replace=False, random_state=s)] *)
  df_sample : forall A : Type, list A -> nat -> Z -> list A;
  (** [math.exp], [math.log] *)
  math_exp : Q -> Q;
  math_log : Q -> Q;
  (** documented contracts *)
  rng_integers_range : forall lo hi g,
    (lo < hi)%Z -> (lo <= fst (rng_integers lo hi g) < hi)%Z;
  df_sample_length : forall A (l : list A) n s,
    (n <= length l)%nat -> length (df_sample A l n s) = n
}.

Arguments df_sample {_ _} _ _ _.

(** ** A state monad for code that draws random numbers *)

Definition St (S A : Type) : Type := S -> A * S.

Definition ret {S A} (a : A) : St S A := fun s => (a, s).

Definition bind {S A B} (m : St S A) (f : A -> St S B) : St S B :=
  fun s => let (a, s') := m s in f a s'.

Notation "'let*' x ':=' m 'in' k" := (bind m (fun x => k))
  (at level 10, x binder, m at level 100, k at level 200, only parsing).

Section Model.
Context {RT : Runtime}.

(** ** generate_customers *)

Definition segments : list string := ["casual"; "regular"; "sharp"; "promo_hunter"].
Definition seg_prob : list Q := [0.45; 0.30; 0.15; 0.10].

Definition seg_freq (seg : string) : Q * Q :=
  if String.eqb seg "casual" then (0.12, 0.50)
  else if String.eqb seg "regular" then (0.40, 1.00)
  else if String.eqb seg "sharp" then (1.30, 2.80)
  else (0.10, 0.38).

Definition seg_stake (seg : string) : Q * Q :=
  if String.eqb seg "casual" then (18, 40)
  else if String.eqb seg "regular" then (35, 95)
  else if String.eqb seg "sharp" then (80, 260)
  else (25, 70).

(** The body of the loop over [cid]. *)
Definition generate_customer (cid : Z) : St Generator Customer :=
  let* seg := rng_choice segments seg_prob in
  let* fr := rng_uniform (fst (seg_freq seg)) (snd (seg_freq seg)) in
  let* stake := rng_uniform (fst (seg_stake seg)) (snd (seg_stake seg)) in
  let* '(prefs, sens_range) := ret
    (if String.eqb seg "sharp" then ([0.20; 0.45; 0.25; 0.10], (0.05, 0.35))
     else if String.eqb seg "promo_hunter" then ([0.25; 0.35; 0.20; 0.20], (0.65, 0.98))
     else if String.eqb seg "regular" then ([0.25; 0.40; 0.25; 0.10], (0.25, 0.60))
     else ([0.30; 0.35; 0.25; 0.10], (0.30, 0.70))) in
  let* promo_sens := rng_uniform (fst sens_range) (snd sens_range) in
  let* n0 := rng_normal 0 0.03 in
  let* n1 := rng_normal 0 0.03 in
  let* n2 := rng_normal 0 0.03 in
  let* n3 := rng_normal 0 0.03 in
  let clipped := map (fun pn => py_max (fst pn + snd pn) 0.05)
                     (combine prefs [n0; n1; n2; n3]) in
  let tot := Qsum clipped in
  let p i := nth i clipped 0 / tot in
  ret {| customer_id := cid; segment := seg; freq := fr; avg_stake := stake;
         pref_moneyline := p 0%nat; pref_spread := p 1%nat;
         pref_total := p 2%nat; pref_parlay := p 3%nat;
         promo_sensitivity := promo_sens |}.

Fixpoint generate_rows (cids : list Z) : St Generator (list Customer) :=
  match cids with
  | [] => ret []
  | cid :: rest =>
      let* c := generate_customer cid in
      let* cs := generate_rows rest in
      ret (c :: cs)
  end.

(** [range(lo, hi)] *)
Definition py_range (lo hi : Z) : list Z :=
  map (fun i => (lo + Z.of_nat i)%Z) (seq 0 (Z.to_nat (hi - lo))).

Definition generate_customers (n_customers : Z) (seed : Z) : list Customer :=
  fst (generate_rows (py_range 1 (n_customers + 1)) (default_rng seed)).

(** ** american_to_decimal *)

Definition american_to_decimal (odds : Z) : Q :=
  if (0 <? odds)%Z then 1 + inject_Z odds / 100
  else 1 + 100 / inject_Z (Z.abs odds).

(** ** The hazard churn model (simulate_ledger, lines 493-515) *)

(** A customer's running state inside one simulation run. *)
Record CustomerRunState := {
  weeks_active : Z;
  last_bet_week_idx : option Z;
  has_churned : bool;
  last_promo_week_idx : option Z;
  promo_week_history : list Z;
  negative_net_streak : Z;
  promo_effect_weeks_remaining : Z
}.

(** [last is not None and (wk_idx - last) >= 2] *)
Definition gap_at_least (wk_idx : Z) (last : option Z) (n : Z) : bool :=
  match last with
  | Some l => (n <=? wk_idx - l)%Z
  | None => false
  end.

Definition is_promo_hunter (seg : string) : bool := String.eqb seg "promo_hunter".

(** The product of the modifiers, before the clamp. *)
Definition churn_prob_raw (cfg : ChurnConfig) (seg : string)
    (st : CustomerRunState) (wk_idx : Z) : Q :=
  let wa := weeks_active st in
  let tenure_mult :=
    churn_plateau_mult cfg
    + (1 - churn_plateau_mult cfg) * math_exp (- alpha cfg * inject_Z wa) in
  let p := dict_get (base_weekly_churn cfg) seg 0.06 * tenure_mult in
  let p :=
    if (wa <=? 1)%Z then p * dict_get (early_churn_mult cfg) seg 1.8
    else if ((2 <=? wa) && (wa <=? 6))%Z then p * dict_get (mid_churn_mult cfg) seg 1.0
    else if ((7 <=? wa) && (wa <=? 12))%Z then p * dict_get (tail_churn_mult cfg) seg 1.0
    else p in
  let p := if gap_at_least wk_idx (last_bet_week_idx st) 2
           then p * inactivity_mult cfg else p in
  let p := if (2 <=? negative_net_streak st)%Z
           then p * negative_net_mult cfg else p in
  let p :=
    if is_promo_hunter seg &&
       match last_promo_week_idx st with
       | Some l => bool_decide ((wk_idx - l)%Z ∈
                     (list_to_set (promo_hunter_post_promo_weeks cfg) : gset Z))
       | None => false
       end
    then p * promo_hunter_post_promo_mult cfg else p in
  if (0 <? promo_effect_weeks_remaining st)%Z
  then p * (if negb (is_promo_hunter seg) then 0.93 else 0.97)
  else p.

(** [churn_prob = float(np.clip(churn_prob, min_churn, max_churn))] *)
Definition churn_prob (cfg : ChurnConfig) (seg : string)
    (st : CustomerRunState) (wk_idx : Z) : Q :=
  np_clip (churn_prob_raw cfg seg st wk_idx) (min_churn cfg) (max_churn cfg).

(** ** simulate_ledger: the event calendar (lines 402-428) *)

(** Lexicographic [<=] on integer sort keys. *)
Fixpoint lex_leb (a b : list Z) : bool :=
  match a, b with
  | x :: a', y :: b' => (x <? y)%Z || ((x =? y)%Z && lex_leb a' b')
  | _, _ => true
  end.

Fixpoint insert_by {A} (leb : A -> A -> bool) (x : A) (l : list A) : list A :=
  match l with
  | [] => [x]
  | y :: l' => if leb x y then x :: l else y :: insert_by leb x l'
  end.

(** [sort_values]: a stable sort. *)
Definition sort_by {A} (leb : A -> A -> bool) (l : list A) : list A :=
  fold_right (insert_by leb) [] l.

Definition week_int (ev : Event) : Z := default 0%Z (week ev).

Definition WeekKey : Type := Z * Z.

Definition key_of (ev : Event) : WeekKey := (season ev, week_int ev).

Definition key_eqb (a b : WeekKey) : bool :=
  (fst a =? fst b)%Z && (snd a =? snd b)%Z.

(** [drop_duplicates()]: the first occurrence of each row is kept. *)
Fixpoint drop_duplicates (l : list WeekKey) : list WeekKey :=
  match l with
  | [] => []
  | k :: l' => k :: List.filter (fun k' => negb (key_eqb k k')) (drop_duplicates l')
  end.

(** The query on [dim_event], the [notna] filter on [week] and the sort. *)
Definition load_events (dim_event : list Event) : list Event :=
  sort_by
    (fun a b => lex_leb [season a; week_int a; game_date a; event_id a]
                        [season b; week_int b; game_date b; event_id b])
    (List.filter (fun ev => (2010 <=? season ev)%Z && bool_decide (is_Some (week ev)))
            dim_event).

Definition week_keys_of (events : list Event) : list WeekKey :=
  sort_by (fun a b => lex_leb [fst a; snd a] [fst b; snd b])
          (drop_duplicates (map key_of events)).

(** [events_by_week.get(wk)], for a key of [week_keys]. *)
Definition events_by_week (events : list Event) (wk : WeekKey) : list Event :=
  List.filter (fun ev => key_eqb (key_of ev) wk) events.

(** ** simulate_ledger: local state *)

(** [rng], the state of the [random] module, [bet_id] and [leg_id]. *)
Record Sim := {
  sim_rng : Generator;
  sim_random : PyRandom;
  sim_bet_id : Z;
  sim_leg_id : Z
}.

Definition np {A} (f : Generator -> A * Generator) : St Sim A :=
  fun s => let (a, g) := f (sim_rng s) in
           (a, {| sim_rng := g; sim_random := sim_random s;
                  sim_bet_id := sim_bet_id s; sim_leg_id := sim_leg_id s |}).

Definition py {A} (f : PyRandom -> A * PyRandom) : St Sim A :=
  fun s => let (a, r) := f (sim_random s) in
           (a, {| sim_rng := sim_rng s; sim_random := r;
                  sim_bet_id := sim_bet_id s; sim_leg_id := sim_leg_id s |}).

(** reads [leg_id], then [leg_id += 1] *)
Definition fresh_leg_id : St Sim Z :=
  fun s => (sim_leg_id s,
            {| sim_rng := sim_rng s; sim_random := sim_random s;
               sim_bet_id := sim_bet_id s; sim_leg_id := (sim_leg_id s + 1)%Z |}).

Definition get_bet_id : St Sim Z := fun s => (sim_bet_id s, s).

(** [bet_id += 1] *)
Definition incr_bet_id : St Sim unit :=
  fun s => (tt,
            {| sim_rng := sim_rng s; sim_random := sim_random s;
               sim_bet_id := (sim_bet_id s + 1)%Z; sim_leg_id := sim_leg_id s |}).

(** ** simulate_ledger: one leg (lines 565-636) *)

Definition sign_settle (x : Q) : Settled :=
  if Qltb 0 x then win else if Qltb x 0 then lose else push.

(** ["away" if favorite_side == "home" else "home"] *)
Definition other_side (s : Selection) : Selection :=
  match s with sel_home => sel_away | _ => sel_home end.

Definition Selection_is_home (s : Selection) : bool :=
  match s with sel_home => true | _ => false end.

Definition Selection_eqb (a b : Selection) : bool :=
  match a, b with
  | sel_home, sel_home | sel_away, sel_away
  | sel_over, sel_over | sel_under, sel_under => true
  | _, _ => false
  end.

Definition make_leg (bt : BetType) (the_bet_id : Z) (no : Z) (ev : Event)
    : St Sim LegRow :=
  let* mt := (if negb (BetType_eqb bt parlay) then ret bt
              else py (random_choices [moneyline; spread; total] [0.25; 0.45; 0.30])) in
  let* tl := (match total_line ev with
              | Some l => ret l
              | None => let* z := np (rng_normal 0 6) in ret (np_clip (43 + z) 31 59)
              end) in
  let* sl := (match spread_line ev with
              | Some l => ret l
              | None => let* z := np (rng_normal 0 5) in ret (np_clip z (-14) 14)
              end) in
  let* '(sel, line, odds, settled) :=
    (match mt with
     | spread =>
         let favorite_side := if Qltb sl 0 then sel_home else sel_away in
         let* u := np rng_random in
         let sel := if Qltb u 0.57 then favorite_side else other_side favorite_side in
         let* z := np (rng_normal 0 0.55) in
         let line_shift := np_clip z (-1.5) 1.5 in
         let bet_line := if Selection_is_home sel then sl + line_shift
                         else - sl + line_shift in
         let margin_vs_line :=
           if Selection_is_home sel then inject_Z (home_margin ev) + bet_line
           else - inject_Z (home_margin ev) + bet_line in
         let* z2 := np (rng_normal 0 8) in
         ret (sel, Some bet_line,
              np_clip_int (py_round (-112 + z2)) (-145) 116,
              sign_settle margin_vs_line)
     | total =>
         let* u := np rng_random in
         let sel := if Qltb u 0.56 then sel_over else sel_under in
         let* z := np (rng_normal 0 0.7) in
         let bet_line := tl + np_clip z (-1.8) 1.8 in
         let delta := inject_Z (total_points ev) - bet_line in
         let settled :=
           match sel with
           | sel_over => if Qltb 0 delta then win
                         else if Qltb delta 0 then lose else push
           | _ => if Qltb delta 0 then win
                  else if Qltb 0 delta then lose else push
           end in
         let* z2 := np (rng_normal 0 9) in
         ret (sel, Some bet_line,
              np_clip_int (py_round (-114 + z2)) (-155) 120, settled)
     | _ =>
         let favorite_side := if Qltb sl 0 then sel_home else sel_away in
         let* u := np rng_random in
         let sel := if Qltb u 0.58 then favorite_side else other_side favorite_side in
         let abs_spread := Qabs sl in
         let* z := np (rng_normal 0 14) in
         let fav_odds := np_clip_int (py_round (-140 - abs_spread * 18 + z)) (-395) (-113) in
         let* z2 := np (rng_normal 0 15) in
         let dog_odds := np_clip_int (py_round (109 + abs_spread * 19 + z2)) 100 315 in
         let odds := if Selection_eqb sel favorite_side then fav_odds else dog_odds in
         let home_won := (0 <? home_margin ev)%Z in
         let settled := if Selection_is_home sel
                        then (if home_won then win else lose)
                        else (if negb home_won then win else lose) in
         ret (sel, None, odds, settled)
     end) in
  let* lid := fresh_leg_id in
  ret {| bet_leg_id := lid; leg_bet_id := the_bet_id; leg_no := no;
         leg_event_id := event_id ev; market_type := mt; selection := sel;
         line_value := line; american_odds := odds;
         decimal_odds := american_to_decimal odds;
         is_win := Settled_eqb settled win; is_push := Settled_eqb settled push;
         settled_result := settled |}.

(** The loop over [enumerate(leg_events.iterrows(), start=1)]. *)
Fixpoint make_legs (bt : BetType) (the_bet_id : Z) (no : Z) (evs : list Event)
    : St Sim (list LegRow) :=
  match evs with
  | [] => ret []
  | ev :: rest =>
      let* l := make_leg bt the_bet_id no ev in
      let* ls := make_legs bt the_bet_id (no + 1)%Z rest in
      ret (l :: ls)
  end.

(** ** simulate_ledger: settlement of a bet (lines 638-661) *)

(** [mult = 1.0; for r, dec in leg_results: mult *= dec if r == "win" else 1.0] *)
Definition parlay_mult (leg_results : list (Settled * Q)) : Q :=
  fold_left
    (fun mult rd => mult * (if Settled_eqb (fst rd) win then snd rd else 1.0))
    leg_results 1.0.

(** Returns [(payout, status, avg_odds)]. *)
Definition settle_bet (bt : BetType) (stake : Q) (leg_results : list (Settled * Q))
    : Q * Settled * Q :=
  if BetType_eqb bt parlay then
    let has_loss := existsb (fun rd => Settled_eqb (fst rd) lose) leg_results in
    let avg_odds := Qsum (map snd leg_results)
                    / inject_Z (Z.of_nat (length leg_results)) in
    if has_loss then (0.0, lose, avg_odds)
    else (stake * parlay_mult leg_results,
          if forallb (fun rd => Settled_eqb (fst rd) push) leg_results
          then push else win,
          avg_odds)
  else
    match leg_results with
    | (r, dec) :: _ =>
        match r with
        | win => (stake * dec, win, dec)
        | push => (stake, push, dec)
        | lose => (0.0, lose, dec)
        end
    | [] => (0.0, lose, 0) (* [leg_results[0]] of an empty list: not reached,
                              the bet's event is a row of [week_events] *)
    end.

(** ** simulate_ledger: the promotion decision (lines 663-705) *)

Definition promo_eligibility : gmap string Q :=
  <["sharp" := 0.45]> (<["regular" := 0.72]>
    (<["casual" := 0.68]> (<["promo_hunter" := 0.40]> ∅))).

Definition promo_base_rate : gmap string Q :=
  <["sharp" := 0.050]> (<["regular" := 0.095]>
    (<["casual" := 0.080]> (<["promo_hunter" := 0.080]> ∅))).

Definition promo_cost_scale : gmap string Q :=
  <["sharp" := 0.90]> (<["regular" := 1.00]>
    (<["casual" := 0.95]> (<["promo_hunter" := 0.70]> ∅))).

Definition promo_prob (c : Customer) (st : CustomerRunState) (wk_idx : Z) : Q :=
  let recent_promos_8w :=
    length (List.filter (fun p_wk => (wk_idx - p_wk <=? 8)%Z) (promo_week_history st)) in
  let p := dict_get promo_base_rate (segment c) 0.08 + 0.05 * promo_sensitivity c in
  let p := p * py_max 0.25 (1.0 - 0.22 * inject_Z (Z.of_nat recent_promos_8w)) in
  let p := if (20 <=? weeks_active st)%Z then p * 0.45
           else if (8 <=? weeks_active st)%Z then p * 0.70 else p in
  let p := if (2 <=? negative_net_streak st)%Z then p * 0.75 else p in
  np_clip p 0.010 0.45.

Definition tenure_cost_mult (wa : Z) : Q :=
  if (wa <? 8)%Z then 1.00 else if (wa <? 20)%Z then 0.45 else 0.30.

(** [0.14 if weeks_active < 8 else (0.09 if weeks_active < 20 else 0.06)] *)
Definition promo_cap (wa : Z) : Q :=
  if (wa <? 8)%Z then 0.14 else if (wa <? 20)%Z then 0.09 else 0.06.

(** ** simulate_ledger: one bet (lines 544-733) *)

(** What one iteration of the bet loop appends to the three ledgers. *)
Record Placed := {
  p_bet : BetRow;
  p_legs : list LegRow;
  p_cost : CostRow
}.

(** The variables the bet loop updates. *)
Record WeekAcc := {
  acc_state : CustomerRunState;
  week_net_profit : Q;
  promo_given_this_week : bool
}.

Definition null_event : Event :=
  {| event_id := 0; season := 0; week := None; game_date := 0;
     is_playoff := false; home_score := 0; away_score := 0;
     spread_line := None; total_line := None |}.

Definition place_bet (c : Customer) (promo_eligible : bool)
    (week_events : list Event) (wk_idx : Z) (acc : WeekAcc)
    : St Sim (Placed * WeekAcc) :=
  let st := acc_state acc in
  let seg := segment c in
  let wa := weeks_active st in
  let* bt := py (random_choices [moneyline; spread; total; parlay]
                   [pref_moneyline c; pref_spread c; pref_total c; pref_parlay c]) in
  let* x := np (rng_lognormal (math_log (avg_stake c)) 0.55) in
  let stake := np_clip x 5 2000 in
  let* i := np (rng_integers 0 (Z.of_nat (length week_events))) in
  let bet_time_event := nth (Z.to_nat i) week_events null_event in
  let event_id_base := event_id bet_time_event in
  let* hours := np (rng_uniform 1 96) in
  let bet_date := inject_Z (game_date bet_time_event) - hours / 24 in
  let* leg_events :=
    (if BetType_eqb bt parlay then
       let* n_legs := np (rng_integers 2 5) in
       let leg_sample_size := Z.min n_legs (Z.of_nat (length week_events)) in
       let* rs := np (rng_integers 1 10000000) in
       ret (df_sample week_events (Z.to_nat leg_sample_size) rs)
     else
       ret (List.filter (fun ev => (event_id ev =? event_id_base)%Z) week_events)) in
  let* bid := get_bet_id in
  let* legs := make_legs bt bid 1 leg_events in
  let leg_results := map (fun l => (settled_result l, decimal_odds l)) legs in
  let '(payout, stat, avg_odds) := settle_bet bt stake leg_results in
  let gross_profit := stake - payout in
  let pp := promo_prob c st wk_idx in
  let* trigger0 :=
    (if promo_eligible && negb (promo_given_this_week acc)
     then let* u := np rng_random in ret (Qltb u pp)
     else ret false) in
  let* promo_trigger :=
    (if trigger0 && is_promo_hunter seg && (10 <=? wa)%Z
     then let* u := np rng_random in ret (Qltb u 0.45)
     else ret trigger0) in
  let* cost0 :=
    (if promo_trigger
     then let* u := np (rng_uniform 0.05 0.18) in
          ret (stake
               * np_clip (u * promo_sensitivity c * dict_get promo_cost_scale seg 1.0)
                         0.0 0.20
               * tenure_cost_mult wa)
     else ret 0.0) in
  let cost1 := py_min cost0 (stake * promo_cap wa) in
  let cost := if promo_trigger && is_promo_hunter seg
              then py_min cost1 (stake * 0.06) else cost1 in
  let* st1 :=
    (if promo_trigger
     then let* k := (if negb (is_promo_hunter seg) then np (rng_integers 5 11)
                     else np (rng_integers 3 6)) in
          ret {| weeks_active := wa;
                 last_bet_week_idx := last_bet_week_idx st;
                 has_churned := has_churned st;
                 last_promo_week_idx := Some wk_idx;
                 promo_week_history := promo_week_history st ++ [wk_idx];
                 negative_net_streak := negative_net_streak st;
                 promo_effect_weeks_remaining :=
                   Z.max (promo_effect_weeks_remaining st) k |}
     else ret st) in
  let fee := stake * 0.012 in
  let the_tax := py_max 0.0 gross_profit * 0.03 in
  let net_profit := gross_profit - cost - fee - the_tax in
  let* _ := incr_bet_id in
  ret ({| p_bet := {| bet_id := bid; bet_customer_id := customer_id c;
                      bet_datetime := bet_date; bet_type := bt;
                      stake_amount := stake; odds_decimal_avg := avg_odds;
                      gross_payout := payout; status := stat |};
          p_legs := legs;
          p_cost := {| cost_id := bid; cost_bet_id := bid; promo_cost := cost;
                       payment_fee := fee; tax := the_tax |} |},
       {| acc_state :=
            {| weeks_active := weeks_active st1;
               last_bet_week_idx := Some wk_idx;
               has_churned := has_churned st1;
               last_promo_week_idx := last_promo_week_idx st1;
               promo_week_history := promo_week_history st1;
               negative_net_streak := negative_net_streak st1;
               promo_effect_weeks_remaining := promo_effect_weeks_remaining st1 |};
          week_net_profit := week_net_profit acc + net_profit;
          promo_given_this_week := promo_given_this_week acc || promo_trigger |}).

(** [for _ in range(n_bets_week)] *)
Fixpoint place_bets (c : Customer) (promo_eligible : bool)
    (week_events : list Event) (wk_idx : Z) (n : nat) (acc : WeekAcc)
    : St Sim (list Placed * WeekAcc) :=
  match n with
  | O => ret ([], acc)
  | S n' =>
      let* '(p, acc1) := place_bet c promo_eligible week_events wk_idx acc in
      let* '(ps, acc2) := place_bets c promo_eligible week_events wk_idx n' acc1 in
      ret (p :: ps, acc2)
  end.

(** ** simulate_ledger: one week of one customer (lines 490-740) *)

(** How the body of the week loop ended. *)
Inductive WeekOutcome :=
| WkChurned                                   (* churn draw, [continue] *)
| WkNoEvents                                  (* no events, [continue] *)
| WkIdle                                      (* [n_bets_week <= 0], [continue] *)
| WkBets (net : Q) (placed : list Placed).    (* the bet loop ran *)

Definition set_tenure (st : CustomerRunState) (wa streak effect : Z)
    : CustomerRunState :=
  {| weeks_active := wa;
     last_bet_week_idx := last_bet_week_idx st;
     has_churned := has_churned st;
     last_promo_week_idx := last_promo_week_idx st;
     promo_week_history := promo_week_history st;
     negative_net_streak := streak;
     promo_effect_weeks_remaining := effect |}.

Definition set_churned (st : CustomerRunState) : CustomerRunState :=
  {| weeks_active := weeks_active st;
     last_bet_week_idx := last_bet_week_idx st;
     has_churned := true;
     last_promo_week_idx := last_promo_week_idx st;
     promo_week_history := promo_week_history st;
     negative_net_streak := negative_net_streak st;
     promo_effect_weeks_remaining := promo_effect_weeks_remaining st |}.

(** The week after the churn check. *)
Definition active_week (c : Customer) (promo_eligible : bool)
    (events : list Event) (week_keys : list WeekKey)
    (wk_idx : Z) (st : CustomerRunState)
    : St Sim (WeekOutcome * CustomerRunState) :=
  let seg := segment c in
  let wa := weeks_active st in
  let week_key := nth (Z.to_nat wk_idx) week_keys (0%Z, 0%Z) in
  let week_events := events_by_week events week_key in
  match week_events with
  | [] =>
      ret (WkNoEvents,
           set_tenure st (wa + 1) (negative_net_streak st)
                      (promo_effect_weeks_remaining st))
  | _ :: _ =>
      let wk := snd week_key in
      let intensity := if (19 <=? wk)%Z then 0.75 else 1.0 in
      let weekly_lambda := py_max 0.01 (freq c * intensity) in
      let weekly_lambda :=
        if (0 <? promo_effect_weeks_remaining st)%Z
        then weekly_lambda * (if negb (is_promo_hunter seg) then 1.09 else 1.04)
        else weekly_lambda in
      let* n_bets_week :=
        (if (wa =? 0)%Z
         then let* n := np (rng_poisson (py_max 0.20 weekly_lambda)) in
              ret (Z.max 1 n)
         else np (rng_poisson weekly_lambda)) in
      if (n_bets_week <=? 0)%Z then
        let streak :=
          if gap_at_least wk_idx (last_bet_week_idx st) 2
          then Z.min (negative_net_streak st + 1) 6
          else negative_net_streak st in
        ret (WkIdle, set_tenure st (wa + 1) streak (promo_effect_weeks_remaining st))
      else
        let* '(placed, acc) :=
          place_bets c promo_eligible week_events wk_idx (Z.to_nat n_bets_week)
            {| acc_state := st; week_net_profit := 0.0;
               promo_given_this_week := false |} in
        let st1 := acc_state acc in
        let streak :=
          if Qltb (week_net_profit acc) 0
          then Z.min (negative_net_streak st1 + 1) 8
          else 0%Z in
        ret (WkBets (week_net_profit acc) placed,
             set_tenure st1 (weeks_active st1 + 1) streak
                        (Z.max 0 (promo_effect_weeks_remaining st1 - 1)))
  end.

(** The body of the week loop, entered with [has_churned] false. *)
Definition simulate_week (cfg : ChurnConfig) (c : Customer) (promo_eligible : bool)
    (events : list Event) (week_keys : list WeekKey)
    (wk_idx : Z) (st : CustomerRunState)
    : St Sim (WeekOutcome * CustomerRunState) :=
  if (0 <? weeks_active st)%Z then
    let* u := np rng_random in
    if Qltb u (churn_prob cfg (segment c) st wk_idx)
    then ret (WkChurned, set_churned st)
    else active_week c promo_eligible events week_keys wk_idx st
  else active_week c promo_eligible events week_keys wk_idx st.

(** One executed iteration of the week loop. *)
Record WeekLog := {
  wl_wk_idx : Z;
  wl_before : CustomerRunState;
  wl_outcome : WeekOutcome;
  wl_after : CustomerRunState
}.

(** [for wk_idx in range(start_idx, len(week_keys)): if has_churned: break ...] *)
Fixpoint week_loop (cfg : ChurnConfig) (c : Customer) (promo_eligible : bool)
    (events : list Event) (week_keys : list WeekKey)
    (wks : list Z) (st : CustomerRunState) : St Sim (list WeekLog) :=
  match wks with
  | [] => ret []
  | wk_idx :: rest =>
      if has_churned st then ret []
      else
        let* '(out, st') :=
          simulate_week cfg c promo_eligible events week_keys wk_idx st in
        let* logs := week_loop cfg c promo_eligible events week_keys rest st' in
        ret ({| wl_wk_idx := wk_idx; wl_before := st;
                wl_outcome := out; wl_after := st' |} :: logs)
  end.

Definition initial_state : CustomerRunState :=
  {| weeks_active := 0;
     last_bet_week_idx := None;
     has_churned := false;
     last_promo_week_idx := None;
     promo_week_history := [];
     negative_net_streak := 0;
     promo_effect_weeks_remaining := 0 |}.

(** The body of the loop over [customers.iterrows()]. *)
Definition simulate_customer (cfg : ChurnConfig) (events : list Event)
    (week_keys : list WeekKey) (c : Customer) : St Sim (list WeekLog) :=
  match week_keys with
  | [] => ret []
  | _ :: _ =>
      let n := Z.of_nat (length week_keys) in
      let* start_idx := np (rng_integers 0 (Z.max 1 (n - 24))) in
      let* u := np rng_random in
      let promo_eligible := Qltb u (dict_get promo_eligibility (segment c) 0.50) in
      week_loop cfg c promo_eligible events week_keys
                (py_range start_idx n) initial_state
  end.

Fixpoint simulate_customers (cfg : ChurnConfig) (events : list Event)
    (week_keys : list WeekKey) (cs : list Customer)
    : St Sim (list (Customer * list WeekLog)) :=
  match cs with
  | [] => ret []
  | c :: rest =>
      let* log := simulate_customer cfg events week_keys c in
      let* logs := simulate_customers cfg events week_keys rest in
      ret ((c, log) :: logs)
  end.

(** ** simulate_ledger *)

Definition placed_of (o : WeekOutcome) : list Placed :=
  match o with WkBets _ ps => ps | _ => [] end.

(** Everything the run appended, in order. *)
Definition all_placed (logs : list (Customer * list WeekLog)) : list Placed :=
  flat_map (fun cl => flat_map (fun wl => placed_of (wl_outcome wl)) (snd cl)) logs.

(** [random.seed(seed)]: whatever the state of the [random] module was, it
    is now the one of [seed]. *)
Definition seed_random (seed : Z) : St PyRandom unit :=
  fun _ => (tt, random_seed seed).

(** The run, week by week: [simulate_ledger] with its appends grouped by
    customer and week.  [rng], [bet_id] and [leg_id] are local to the
    call; the state the run leaves the [random] module in is returned. *)
Definition simulate_ledger_log (dim_event : list Event) (customers : list Customer)
    (seed : Z) (churn_cfg : option ChurnConfig)
    : St PyRandom (list (Customer * list WeekLog)) :=
  let* _ := seed_random seed in
  fun r =>
    let cfg := default DEFAULT_CHURN_CONFIG churn_cfg in
    let events := load_events dim_event in
    let week_keys := week_keys_of events in
    let (logs, s) :=
      simulate_customers cfg events week_keys customers
        {| sim_rng := default_rng seed; sim_random := r;
           sim_bet_id := 1; sim_leg_id := 1 |} in
    (logs, sim_random s).

(** [bets_df, legs_df, costs_df] *)
Definition Ledger : Type := list BetRow * list LegRow * list CostRow.

Definition ledger_of (logs : list (Customer * list WeekLog)) : Ledger :=
  (map p_bet (all_placed logs),
   flat_map p_legs (all_placed logs),
   map p_cost (all_placed logs)).

Definition simulate_ledger (dim_event : list Event) (customers : list Customer)
    (seed : Z) (churn_cfg : option ChurnConfig) : St PyRandom Ledger :=
  let* logs := simulate_ledger_log dim_event customers seed churn_cfg in
  ret (ledger_of logs).

(** ** compute_still_active_retention *)

(** [out]: segment -> window name -> fraction. *)
Definition Retention : Type := gmap string (gmap string Q).

(** [pd.to_datetime(b["bet_datetime"]).dt.date] *)
Definition bet_date (b : BetRow) : Z := Qfloor (bet_datetime b).

Definition dates_of (bets : list BetRow) (c_id : Z) : list Z :=
  map bet_date (List.filter (fun b => (bet_customer_id b =? c_id)%Z) bets).

(** [groupby("customer_id")["bet_date"].min()] *)
Definition anchor_date (bets : list BetRow) (c_id : Z) : Z :=
  match dates_of bets c_id with
  | [] => 0%Z
  | d :: ds => fold_left Z.min ds d
  end.

(** [segment_map[c_id]] after the left merge: the segment of the last
    row of [customers] with that id, [None] (a NaN) when there is none. *)
Definition segment_of (customers : list Customer) (c_id : Z) : option string :=
  last (map segment (List.filter (fun c => (customer_id c =? c_id)%Z) customers)).

Definition active_in_window (bets : list BetRow) (c_id : Z) (start_day end_day : Z)
    : Z :=
  let anchor := anchor_date bets c_id in
  if existsb (fun d => let delta := (d - anchor)%Z in
                       (start_day <? delta)%Z && (delta <=? end_day)%Z)
             (dates_of bets c_id)
  then 1%Z else 0%Z.

Definition Zsum (l : list Z) : Z := fold_left Z.add l 0%Z.

Definition still_active_keys : list (string * (Z * Z)) :=
  [("still_active_7d", (0, 7)); ("still_active_30d", (23, 30));
   ("still_active_60d", (53, 60)); ("still_active_90d", (83, 90))]%Z.

Definition compute_still_active_retention (bets : list BetRow)
    (customers : list Customer) : Retention :=
  match bets with
  | [] => (∅ : Retention)
  | _ :: _ =>
      let c_ids := remove_dups (map bet_customer_id bets) in
      fold_left
        (fun (out : Retention) seg =>
           let ids := List.filter (fun c_id =>
                                match segment_of customers c_id with
                                | Some sg => String.eqb sg seg
                                | None => false
                                end) c_ids in
           match ids with
           | [] => out
           | _ :: _ =>
               let n := inject_Z (Z.of_nat (length ids)) in
               <[seg :=
                   fold_left
                     (fun (m : gmap string Q) kw =>
                        <[fst kw :=
                            inject_Z
                              (Zsum (map (fun i => active_in_window bets i
                                                     (fst (snd kw)) (snd (snd kw)))
                                         ids)) / n]> m)
                     still_active_keys (∅ : gmap string Q)]> out
           end)
        ["sharp"; "regular"; "casual"; "promo_hunter"] (∅ : Retention)
  end.

(** ** calibrate_churn_config *)

Definition target : list (string * list (string * Q)) :=
  [("sharp", [("still_active_7d", 0.72); ("still_active_30d", 0.58);
              ("still_active_60d", 0.42); ("still_active_90d", 0.28)]);
   ("regular", [("still_active_7d", 0.40); ("still_active_30d", 0.20);
                ("still_active_60d", 0.08); ("still_active_90d", 0.03)]);
   ("casual", [("still_active_7d", 0.18); ("still_active_30d", 0.06);
               ("still_active_60d", 0.01); ("still_active_90d", 0.00)]);
   ("promo_hunter", [("still_active_7d", 0.14); ("still_active_30d", 0.03);
                     ("still_active_60d", 0.00); ("still_active_90d", 0.00)])].

(** [itertools.product([0.95, 1.05], [0.9, 1.1], [0.9, 1.1], [2.3, 2.7])] *)
Definition grid : list (Q * Q * Q * Q) :=
  flat_map (fun a =>
    flat_map (fun b =>
      flat_map (fun c =>
        map (fun d => (a, b, c, d)) [2.3; 2.7])
      [0.9; 1.1])
    [0.9; 1.1])
  [0.95; 1.05].

(** The candidate configuration of one grid cell (lines 814-821). *)
Definition candidate_cfg (base_cfg : ChurnConfig) (cell : Q * Q * Q * Q)
    : ChurnConfig :=
  let '(base_scale, mid_scale, tail_scale, inact) := cell in
  {| base_weekly_churn := (fun v => v * base_scale) <$> base_weekly_churn base_cfg;
     alpha := alpha base_cfg;
     churn_plateau_mult := churn_plateau_mult base_cfg;
     early_churn_mult := early_churn_mult base_cfg;
     mid_churn_mult := (fun v => v * mid_scale) <$> mid_churn_mult base_cfg;
     tail_churn_mult := (fun v => v * tail_scale) <$> tail_churn_mult base_cfg;
     inactivity_mult := inact;
     negative_net_mult := negative_net_mult base_cfg;
     promo_hunter_post_promo_mult := promo_hunter_post_promo_mult base_cfg;
     promo_hunter_post_promo_weeks := promo_hunter_post_promo_weeks base_cfg;
     min_churn := min_churn base_cfg;
     max_churn := max_churn base_cfg |}.

(** The sum of squared deviations from [target] (lines 824-828). *)
Definition retention_score (r : Retention) : Q :=
  fold_left
    (fun score st =>
       fold_left
         (fun score kv =>
            let sim := dict_get (dict_get r (fst st) (∅ : gmap string Q)) (fst kv) 0.0 in
            score + (sim - snd kv) ^ 2)
         (snd st) score)
    target 0.0.

(** A score, or [float("inf")]. *)
Inductive Score := Inf | Fin (q : Q).

(** [score < best_score] *)
Definition score_lt (q : Q) (best : Score) : bool :=
  match best with
  | Inf => true
  | Fin b => Qltb q b
  end.

(** [best_score, best_cfg, best_ret] *)
Definition Best : Type := Score * ChurnConfig * Retention.

(** One simulation of the sample under [cfg], and its retention. *)
Definition evaluate_cfg (dim_event : list Event) (sample : list Customer)
    (seed : Z) (cfg : ChurnConfig) : St PyRandom Retention :=
  let* '(bets, _, _) := simulate_ledger dim_event sample seed (Some cfg) in
  ret (compute_still_active_retention bets sample).

(** The loop over the grid (lines 813-832). *)
Fixpoint search (dim_event : list Event) (sample : list Customer) (seed : Z)
    (base_cfg : ChurnConfig) (cells : list (Q * Q * Q * Q)) (best : Best)
    : St PyRandom Best :=
  match cells with
  | [] => ret best
  | cell :: rest =>
      let cfg := candidate_cfg base_cfg cell in
      let* r := evaluate_cfg dim_event sample seed cfg in
      let score := retention_score r in
      search dim_event sample seed base_cfg rest
             (if score_lt score (fst (fst best)) then (Fin score, cfg, r) else best)
  end.

Record Diagnostics := {
  diag_target : list (string * list (string * Q));
  sample_achieved : Retention;
  diag_score : Score
}.

Definition calibrate_churn_config (dim_event : list Event)
    (customers : list Customer) (base_cfg : ChurnConfig) (seed : Z)
    : St PyRandom (ChurnConfig * Diagnostics) :=
  let sample :=
    df_sample customers (Nat.min 1000 (length customers)) seed in
  let* '(best_score, best_cfg, best_ret) :=
    search dim_event sample seed base_cfg grid (Inf, base_cfg, (∅ : Retention)) in
  ret (best_cfg,
       {| diag_target := target; sample_achieved := best_ret;
          diag_score := best_score |}).

(** ** monte_carlo_validation.main: the run loop (lines 61-103) *)

Record RunRow := {
  run_id : Z;
  row_customer_seed : Z;
  row_ledger_seed : Z;
  handle : Q;
  hold : Q;
  net_margin : Q;
  row_promo_rate : Q;
  row_retention : list (string * Q)
}.

(** The row of run [i] from its ledger (lines 70-102). *)
Definition run_row (i customer_seed ledger_seed : Z) (customers : list Customer)
    (bets : list BetRow) (costs : list CostRow) : RunRow :=
  let the_handle := Qsum (map stake_amount bets) in
  let ggr := Qsum (map (fun b => stake_amount b - gross_payout b) bets) in
  let merged :=
    flat_map (fun b => map (fun k => (b, k))
                           (List.filter (fun k => (cost_bet_id k =? bet_id b)%Z) costs))
             bets in
  let net := Qsum (map (fun bk => stake_amount (fst bk) - gross_payout (fst bk)
                                  - promo_cost (snd bk) - payment_fee (snd bk)
                                  - tax (snd bk)) merged) in
  let nonzero := negb (Qeq_bool the_handle 0) in
  let r := compute_still_active_retention bets customers in
  {| run_id := (i + 1)%Z;
     row_customer_seed := customer_seed;
     row_ledger_seed := ledger_seed;
     handle := the_handle;
     hold := if nonzero then ggr / the_handle else 0.0;
     net_margin := if nonzero then net / the_handle else 0.0;
     row_promo_rate :=
       if nonzero then Qsum (map (fun bk => promo_cost (snd bk)) merged) / the_handle
       else 0.0;
     row_retention :=
       flat_map (fun seg =>
         map (fun k => (String.append seg (String.append "_" k),
                        dict_get (dict_get r seg (∅ : gmap string Q)) k 0.0))
             ["still_active_7d"; "still_active_30d";
              "still_active_60d"; "still_active_90d"])
         ["sharp"; "regular"; "casual"; "promo_hunter"] |}.

(** [for i in range(args.runs)], over the remaining values of [i]. *)
Fixpoint run_loop (dim_event : list Event) (churn_cfg : ChurnConfig)
    (n_customers customer_seed0 ledger_seed0 : Z) (idxs : list Z)
    : St PyRandom (list RunRow) :=
  match idxs with
  | [] => ret []
  | i :: rest =>
      let customer_seed := (customer_seed0 + i)%Z in
      let ledger_seed := (ledger_seed0 + i)%Z in
      let customers := generate_customers n_customers customer_seed in
      let* '(bets, _, costs) :=
        simulate_ledger dim_event customers ledger_seed (Some churn_cfg) in
      let row :=
        match bets, costs with
        | _ :: _, _ :: _ =>
            [run_row i customer_seed ledger_seed customers bets costs]
        | _, _ => []            (* [if bets.empty or costs.empty: continue] *)
        end in
      let* rows := run_loop dim_event churn_cfg n_customers
                            customer_seed0 ledger_seed0 rest in
      ret (row ++ rows)
  end.

(** [run_rows] at the end of the loop. *)
Definition monte_carlo_runs (dim_event : list Event) (churn_cfg : ChurnConfig)
    (runs n_customers customer_seed0 ledger_seed0 : Z)
    : St PyRandom (list RunRow) :=
  run_loop dim_event churn_cfg n_customers customer_seed0 ledger_seed0
           (py_range 0 runs).

End Model.

(** * More of the code *)

(** ** main: the build branch (run_sportsbook_analysis.main, lines 1302-1311) *)

Section Main.
Context {RT : Runtime}.

(** The population, the churn configuration (calibrated unless
    [--skip-calibration]) and the ledger that [main] builds and hands to
    [build_fact_tables]. *)
Definition main_build (dim_event : list Event) (skip_calibration : bool)
    (customer_seed ledger_seed : Z)
    : St PyRandom (list Customer * ChurnConfig * Ledger) :=
  let customers := generate_customers 1600 customer_seed in
  let* churn_cfg :=
    (if negb skip_calibration
     then let* '(cfg, _) := calibrate_churn_config dim_event customers
                              DEFAULT_CHURN_CONFIG ledger_seed in
          ret cfg
     else ret DEFAULT_CHURN_CONFIG) in
  let* ledger := simulate_ledger dim_event customers ledger_seed (Some churn_cfg) in
  ret (customers, churn_cfg, ledger).

End Main.

(** ** compute_sustained_payback_week (build_promo_impact.py, lines 940-953) *)

(** One row of the payback series: the week and the cumulative net after
    promotion cost, [None] for a NaN. *)
Record PaybackRow := {
  pb_wk : Z;
  cum_net_after_promo : option Q
}.

(** [g >= 0], which is false of a NaN. *)
Definition gap_ge_0 (g : option Q) : bool :=
  match g with
  | Some q => Qle_bool 0 q
  | None => false
  end.

(** [l[i]] on a Python list: a negative index counts from the end;
    [None] is the IndexError of an index out of range. *)
Definition py_getitem {A} (l : list A) (i : Z) : option A :=
  let n := Z.of_nat (length l) in
  if (0 <=? i)%Z then nth_error l (Z.to_nat i)
  else if (- n <=? i)%Z then nth_error l (Z.to_nat (n + i))
  else None.

(** What a call does: return a week, return [None], or raise. *)
Inductive Payback :=
| PaybackWeek (w : Z)
| NoPayback
| PaybackIndexError.

(** [for idx, g in enumerate(gap)], from [idx] on. *)
Fixpoint payback_loop (weeks : list Z) (consecutive_weeks : Z)
    (gap : list (option Q)) (idx streak : Z) : Payback :=
  match gap with
  | [] => NoPayback
  | g :: rest =>
      if gap_ge_0 g then
        let streak := (streak + 1)%Z in
        if (consecutive_weeks <=? streak)%Z then
          match py_getitem weeks (idx - consecutive_weeks + 1) with
          | Some w => PaybackWeek w
          | None => PaybackIndexError
          end
        else payback_loop weeks consecutive_weeks rest (idx + 1) streak
      else payback_loop weeks consecutive_weeks rest (idx + 1) 0
  end.

Definition compute_sustained_payback_week (df_payback : list PaybackRow)
    (consecutive_weeks : Z) : Payback :=
  match df_payback with
  | [] => NoPayback
  | _ :: _ =>
      payback_loop (map pb_wk df_payback) consecutive_weeks
                   (map cum_net_after_promo df_payback) 0 0
  end.

(** * Vocabulary of the statements *)

(** ** Reasoning on the state monad *)

(** [m] returns a value satisfying [P] from every state. *)
Definition always {S A} (m : St S A) (P : A -> Prop) : Prop :=
  forall s, P (fst (m s)).

Section Vocabulary.
Context {RT : Runtime}.

(** ** Bets *)

(** The book's net profit on a bet, from its rows. *)
Definition bet_net (p : Placed) : Q :=
  stake_amount (p_bet p) - gross_payout (p_bet p)
  - promo_cost (p_cost p) - payment_fee (p_cost p) - tax (p_cost p).

(** The book's net profit over the bets of a week. *)
Definition book_net (ps : list Placed) : Q :=
  fold_right (fun p s => bet_net p + s) 0 ps.

(** Facts about the rows of one bet that hold whatever is drawn:
    [c] is the bettor and [wa] is [weeks_active] when the bet is placed. *)
Record bet_facts (c : Customer) (wa : Z) (p : Placed) : Prop := {
  bf_customer : bet_customer_id (p_bet p) = customer_id c;
  bf_stake_lo : 5 <= stake_amount (p_bet p);
  bf_stake_hi : stake_amount (p_bet p) <= 2000;
  bf_cost_id : cost_bet_id (p_cost p) = bet_id (p_bet p);
  bf_promo_cap : promo_cost (p_cost p) <= stake_amount (p_bet p) * promo_cap wa;
  bf_settle :
    (gross_payout (p_bet p), status (p_bet p), odds_decimal_avg (p_bet p))
    = settle_bet (bet_type (p_bet p)) (stake_amount (p_bet p))
        (map (fun l => (settled_result l, decimal_odds l)) (p_legs p))
}.

(** What the bet loop does to the variables of the week loop: tenure and
    streak are untouched, the week's net profit grows by the bet's. *)
Definition acc_step (acc : WeekAcc) (p : Placed) (acc' : WeekAcc) : Prop :=
  weeks_active (acc_state acc') = weeks_active (acc_state acc)
  /\ negative_net_streak (acc_state acc') = negative_net_streak (acc_state acc)
  /\ week_net_profit acc' = week_net_profit acc + bet_net p.

(** The events a customer can bet on in week [wk_idx]. *)
Definition week_events_at (events : list Event) (week_keys : list WeekKey)
    (wk_idx : Z) : list Event :=
  events_by_week events (nth (Z.to_nat wk_idx) week_keys (0%Z, 0%Z)).

(** [P c W wa p] holds of every bet [p] of the run, where [c] is the
    bettor, [W] the list of events of the week of the bet and [wa] the
    bettor's [weeks_active] in that week. *)
Definition every_bet (P : Customer -> list Event -> Z -> Placed -> Prop)
    (events : list Event) (week_keys : list WeekKey)
    (logs : list (Customer * list WeekLog)) : Prop :=
  Forall (fun cl =>
    Forall (fun e =>
      Forall (P (fst cl) (week_events_at events week_keys (wl_wk_idx e))
                (weeks_active (wl_before e)))
             (placed_of (wl_outcome e)))
      (snd cl))
    logs.

(** ** Parlay payout *)

Definition Qprod (l : list Q) : Q := fold_right Qmult 1 l.

(** The decimal odds of the winning legs of a bet. *)
Definition winning_odds (legs : list LegRow) : list Q :=
  map decimal_odds
      (List.filter (fun l => Settled_eqb (settled_result l) win) legs).

(** The payout rule in the spec's words: nothing if a leg lost, else the
    stake times the product of the odds of the winning legs (a pushed
    leg is not a factor). *)
Definition parlay_payout_rule (stake : Q) (legs : list LegRow) : Q :=
  if existsb (fun l => Settled_eqb (settled_result l) lose) legs then 0
  else stake * Qprod (winning_odds legs).

(** ** Weeks *)

(** The net profit of a week: that of its bets, 0 without a bet. *)
Definition week_net (o : WeekOutcome) : Q :=
  match o with
  | WkBets net _ => net
  | _ => 0
  end.

(** How the negative-net streak leaves a week, by the way the week ended. *)
Definition streak_rule (wk_idx : Z) (st : CustomerRunState)
    (out : WeekOutcome) (st' : CustomerRunState) : Prop :=
  negative_net_streak st' =
  match out with
  | WkBets net _ =>
      if Qltb net 0 then Z.min (negative_net_streak st + 1) 8 else 0%Z
  | WkIdle =>
      if gap_at_least wk_idx (last_bet_week_idx st) 2
      then Z.min (negative_net_streak st + 1) 6
      else negative_net_streak st
  | WkNoEvents | WkChurned => negative_net_streak st
  end.

(** The net profit a week with bets is judged on is that of its rows. *)
Definition net_of_rows (out : WeekOutcome) : Prop :=
  match out with
  | WkBets net ps => ps <> [] /\ net == book_net ps
  | _ => True
  end.

Definition week_ok (e : WeekLog) : Prop :=
  streak_rule (wl_wk_idx e) (wl_before e) (wl_outcome e) (wl_after e)
  /\ net_of_rows (wl_outcome e).

(** A churn week is the last week of a log. *)
Fixpoint churn_only_last (logs : list WeekLog) : Prop :=
  match logs with
  | [] => True
  | e :: rest => (wl_outcome e = WkChurned -> rest = []) /\ churn_only_last rest
  end.

(** The log of a week loop over the indices [wks]. *)
Definition log_shape (wks : list Z) (logs : list WeekLog) : Prop :=
  Forall week_ok logs
  /\ churn_only_last logs
  /\ exists tail, wks = map wl_wk_idx logs ++ tail.

(** The log of every customer of a run has the shape of a week loop over
    a range of week indices. *)
Definition every_log (logs : list (Customer * list WeekLog)) : Prop :=
  Forall (fun cl => exists lo hi, log_shape (py_range lo hi) (snd cl)) logs.

(** ** Legs *)

(** The number of legs of a bet placed in a week with events [W]. *)
Definition legs_rule (W : list Event) (p : Placed) : Prop :=
  match bet_type (p_bet p) with
  | parlay =>
      exists n, (2 <= n <= 4)%nat /\ length (p_legs p) = Nat.min n (length W)
  | _ =>
      exists ev0, In ev0 W
        /\ length (p_legs p)
           = length (List.filter (fun e => (event_id e =? event_id ev0)%Z) W)
  end.

(** ** Calibration *)

(** The retention and the score the search gives a grid cell. *)
Definition cell_retention (dim_event : list Event) (sample : list Customer)
    (seed : Z) (base_cfg : ChurnConfig) (cell : Q * Q * Q * Q) : Retention :=
  fst (evaluate_cfg dim_event sample seed (candidate_cfg base_cfg cell)
                    (random_seed seed)).

Definition cell_score (dim_event : list Event) (sample : list Customer)
    (seed : Z) (base_cfg : ChurnConfig) (cell : Q * Q * Q * Q) : Q :=
  retention_score (cell_retention dim_event sample seed base_cfg cell).

(** What the search keeps for a cell that wins. *)
Definition cell_best (dim_event : list Event) (sample : list Customer)
    (seed : Z) (base_cfg : ChurnConfig) (cell : Q * Q * Q * Q) : Best :=
  (Fin (cell_score dim_event sample seed base_cfg cell),
   candidate_cfg base_cfg cell,
   cell_retention dim_event sample seed base_cfg cell).

(** ** Monte Carlo runs *)

(** What run [i] (counted from 0) contributes to [run_rows]: the row
    computed from the population of seed [customer_seed0 + i] and the
    ledger of seed [ledger_seed0 + i], or nothing when that ledger is
    empty. *)
Definition rows_of_run (dim_event : list Event) (churn_cfg : ChurnConfig)
    (n_customers customer_seed0 ledger_seed0 : Z) (i : Z) : list RunRow :=
  let customers := generate_customers n_customers (customer_seed0 + i) in
  let '(bets, _, costs) :=
    fst (simulate_ledger dim_event customers (ledger_seed0 + i) (Some churn_cfg)
                         (random_seed (ledger_seed0 + i))) in
  match bets, costs with
  | _ :: _, _ :: _ =>
      [run_row i (customer_seed0 + i) (ledger_seed0 + i) customers bets costs]
  | _, _ => []
  end.

End Vocabulary.

(** The loop over the grid, as a function of the scores of the cells. *)
Fixpoint pick_best {C} (sc : C -> Q) (mk : C -> Best) (cells : list C)
    (best : Best) : Best :=
  match cells with
  | [] => best
  | c :: rest =>
      pick_best sc mk rest (if score_lt (sc c) (fst (fst best)) then mk c else best)
  end.

(** * Vocabulary of the further properties *)

(** ** Legs: prices, lines and settlement (simulate_ledger, lines 565-636) *)

(** The range [np.clip] leaves the American price of a market in. *)
Definition odds_in_market (mt : BetType) (odds : Z) : Prop :=
  match mt with
  | spread => (-145 <= odds <= 116)%Z
  | total => (-155 <= odds <= 120)%Z
  | _ => (-395 <= odds <= -113)%Z \/ (100 <= odds <= 315)%Z
  end.

(** [base] is the event's line, or the synthesized one within [lo, hi]. *)
Definition line_or_default (line : option Q) (lo hi base : Q) : Prop :=
  match line with
  | Some l => base = l
  | None => lo <= base <= hi
  end.

(** What the selection, line, price and settlement of a leg on [ev] in
    market [mt] satisfy, whatever is drawn. *)
Definition leg_core (mt : BetType) (ev : Event)
    (sel : Selection) (line : option Q) (odds : Z) (settled : Settled) : Prop :=
  odds_in_market mt odds
  /\ match mt with
     | spread =>
         (sel = sel_home \/ sel = sel_away)
         /\ exists sl v,
              line_or_default (spread_line ev) (-14) 14 sl
              /\ line = Some v
              /\ -1.5 <= v - (if Selection_is_home sel then sl else - sl) <= 1.5
              /\ settled
                 = sign_settle ((if Selection_is_home sel
                                 then inject_Z (home_margin ev)
                                 else - inject_Z (home_margin ev)) + v)
     | total =>
         (sel = sel_over \/ sel = sel_under)
         /\ exists tl v,
              line_or_default (total_line ev) 31 59 tl
              /\ line = Some v
              /\ -1.8 <= v - tl <= 1.8
              /\ settled
                 = match sel with
                   | sel_over => sign_settle (inject_Z (total_points ev) - v)
                   | _ => sign_settle (v - inject_Z (total_points ev))
                   end
     | _ =>
         (sel = sel_home \/ sel = sel_away)
         /\ line = None
         /\ settled
            = (if Selection_is_home sel
               then (if (0 <? home_margin ev)%Z then win else lose)
               else (if (0 <? home_margin ev)%Z then lose else win))
     end.

(** The facts of a leg row of bet [bid], of type [bt], on event [ev]. *)
Record leg_facts (bt : BetType) (bid : Z) (ev : Event) (l : LegRow) : Prop := {
  lf_event : leg_event_id l = event_id ev;
  lf_bet : leg_bet_id l = bid;
  lf_market : bt <> parlay -> market_type l = bt;
  lf_decimal : decimal_odds l = american_to_decimal (american_odds l);
  lf_is_win : is_win l = Settled_eqb (settled_result l) win;
  lf_is_push : is_push l = Settled_eqb (settled_result l) push;
  lf_core : leg_core (market_type l) ev (selection l) (line_value l)
                     (american_odds l) (settled_result l)
}.

(** The events the legs of a bet of type [bt] are made on: rows of the
    seeded sample of the week's events for a parlay, rows of the week
    otherwise. *)
Definition drawn_from {RT : Runtime} (W : list Event) (bt : BetType)
    (ev : Event) : Prop :=
  if BetType_eqb bt parlay
  then exists n rs, In ev (df_sample W n rs)
  else In ev W.

(** ** Costs and promotions of one bet (simulate_ledger, lines 663-731) *)

(** The promotion variables of the customer's state. *)
Definition promo_vars (st : CustomerRunState) : option Z * list Z * Z :=
  (last_promo_week_idx st, promo_week_history st, promo_effect_weeks_remaining st).

(** What a bet does to the promotion variables: [trig] tells whether the
    bet triggered a promotion. *)
Definition promo_step (pe : bool) (wk_idx : Z) (acc : WeekAcc) (p : Placed)
    (acc' : WeekAcc) (trig : bool) : Prop :=
  promo_given_this_week acc' = promo_given_this_week acc || trig
  /\ if trig
     then pe = true /\ promo_given_this_week acc = false
          /\ last_promo_week_idx (acc_state acc') = Some wk_idx
          /\ promo_week_history (acc_state acc')
             = promo_week_history (acc_state acc) ++ [wk_idx]
          /\ exists k, (3 <= k <= 10)%Z
               /\ promo_effect_weeks_remaining (acc_state acc')
                  = Z.max (promo_effect_weeks_remaining (acc_state acc)) k
     else promo_cost (p_cost p) = 0.0
          /\ promo_vars (acc_state acc') = promo_vars (acc_state acc).

(** The cost row of a bet, from its bet row. *)
Record cost_facts (p : Placed) : Prop := {
  cf_fee : payment_fee (p_cost p) = stake_amount (p_bet p) * 0.012;
  cf_tax : tax (p_cost p)
           = py_max 0.0 (stake_amount (p_bet p) - gross_payout (p_bet p)) * 0.03;
  cf_promo_nonneg : 0 <= promo_cost (p_cost p);
  cf_cost_id : cost_id (p_cost p) = bet_id (p_bet p)
}.

(** The legs of a bet placed in a week with events [W]. *)
Definition legs_facts {RT : Runtime} (W : list Event) (p : Placed) : Prop :=
  Forall (fun l => exists ev,
            drawn_from W (bet_type (p_bet p)) ev
            /\ leg_facts (bet_type (p_bet p)) (bet_id (p_bet p)) ev l)
         (p_legs p).

(** ** The bets of one week (simulate_ledger, lines 541-733) *)

(** The number of bets of a week that carry a promotional cost. *)
Definition count_promos (ps : list Placed) : nat :=
  length (List.filter (fun p => Qltb 0 (promo_cost (p_cost p))) ps).

(** What the bet loop of week [wk_idx] does to the variables of the week
    loop. *)
Definition week_bets_step (wk_idx : Z) (acc : WeekAcc) (ps : list Placed)
    (acc' : WeekAcc) : Prop :=
  (count_promos ps <= if promo_given_this_week acc then 0 else 1)%nat
  /\ (promo_effect_weeks_remaining (acc_state acc)
      <= promo_effect_weeks_remaining (acc_state acc')
      <= Z.max (promo_effect_weeks_remaining (acc_state acc)) 10)%Z
  /\ has_churned (acc_state acc') = has_churned (acc_state acc)
  /\ (ps <> [] -> last_bet_week_idx (acc_state acc') = Some wk_idx)
  /\ (ps = [] -> acc' = acc)
  /\ (promo_given_this_week acc = true ->
      promo_vars (acc_state acc') = promo_vars (acc_state acc)).

(** What the bet loop of week [wk_idx] does to the promotion variables:
    nothing, no bet carrying a promotional cost; or one promotion is
    recorded for the week. *)
Definition week_promo_step (wk_idx : Z) (acc : WeekAcc) (ps : list Placed)
    (acc' : WeekAcc) : Prop :=
  (count_promos ps = 0%nat
   /\ promo_vars (acc_state acc') = promo_vars (acc_state acc))
  \/ (promo_given_this_week acc = false
      /\ last_promo_week_idx (acc_state acc') = Some wk_idx
      /\ promo_week_history (acc_state acc')
         = promo_week_history (acc_state acc) ++ [wk_idx]
      /\ exists k, (3 <= k <= 10)%Z
           /\ promo_effect_weeks_remaining (acc_state acc')
              = Z.max (promo_effect_weeks_remaining (acc_state acc)) k).

(** ** One week of one customer (simulate_ledger, lines 489-740) *)

(** The bounds the week loop keeps on a customer's running state. *)
Definition state_ok (st : CustomerRunState) : Prop :=
  (0 <= weeks_active st)%Z
  /\ (0 <= negative_net_streak st <= 8)%Z
  /\ (0 <= promo_effect_weeks_remaining st <= 10)%Z.

(** What one executed week does to the promotion variables: it records
    no promotion, and then no bet of the week carries a promotional cost;
    or it records one, for this week, and the promotion effect lasts at
    least two more weeks. *)
Definition promo_week (wk_idx : Z) (st : CustomerRunState) (out : WeekOutcome)
    (st' : CustomerRunState) : Prop :=
  (count_promos (placed_of out) = 0%nat
   /\ last_promo_week_idx st' = last_promo_week_idx st
   /\ promo_week_history st' = promo_week_history st)
  \/ (last_promo_week_idx st' = Some wk_idx
      /\ promo_week_history st' = promo_week_history st ++ [wk_idx]
      /\ (2 <= promo_effect_weeks_remaining st')%Z).

(** What one executed week does, by its outcome: [W] are the events of
    the week, [st] and [st'] the state before and after. *)
Record week_facts (W : list Event) (wk_idx : Z) (st : CustomerRunState)
    (out : WeekOutcome) (st' : CustomerRunState) : Prop := {
  wf_churn : out = WkChurned -> (0 < weeks_active st)%Z /\ st' = set_churned st;
  wf_tenure : out <> WkChurned ->
              weeks_active st' = (weeks_active st + 1)%Z
              /\ has_churned st' = has_churned st;
  wf_no_events : out = WkNoEvents -> W = [];
  wf_first : weeks_active st = 0%Z -> W <> [] -> exists net ps, out = WkBets net ps;
  wf_bets : forall net ps, out = WkBets net ps ->
            ps <> [] /\ (count_promos ps <= 1)%nat
            /\ last_bet_week_idx st' = Some wk_idx;
  wf_no_bets : placed_of out = [] ->
               last_bet_week_idx st' = last_bet_week_idx st
               /\ promo_vars st' = promo_vars st;
  wf_promo : promo_week wk_idx st out st'
}.

(** ** The log of a customer (simulate_ledger, lines 467-740) *)

(** Each week starts in the state the week before left. *)
Fixpoint chained (st : CustomerRunState) (logs : list WeekLog) : Prop :=
  match logs with
  | [] => True
  | e :: rest => wl_before e = st /\ chained (wl_after e) rest
  end.

(** An executed week: entered not churned, within the bounds, and left as
    [week_facts] says. *)
Definition entry_facts (events : list Event) (week_keys : list WeekKey)
    (e : WeekLog) : Prop :=
  state_ok (wl_before e)
  /\ has_churned (wl_before e) = false
  /\ week_facts (week_events_at events week_keys (wl_wk_idx e)) (wl_wk_idx e)
                (wl_before e) (wl_outcome e) (wl_after e)
  /\ state_ok (wl_after e).

(** The log of a week loop over the indices [wks], started in [st]. *)
Definition run_facts (events : list Event) (week_keys : list WeekKey)
    (wks : list Z) (st : CustomerRunState) (logs : list WeekLog) : Prop :=
  chained st logs
  /\ Forall (entry_facts events week_keys) logs
  /\ (exists tail, wks = map wl_wk_idx logs ++ tail)
  /\ (wks <> [] -> has_churned st = false -> logs <> []).

(** The log of a customer: empty without a calendar, else that of the
    week loop from a start week of the calendar. *)
Definition customer_run (events : list Event) (week_keys : list WeekKey)
    (log : list WeekLog) : Prop :=
  match week_keys with
  | [] => log = []
  | _ :: _ =>
      exists start,
        (0 <= start < Z.of_nat (length week_keys))%Z
        /\ run_facts events week_keys
                     (py_range start (Z.of_nat (length week_keys)))
                     initial_state log
  end.

(** ** The ledgers of a run *)

(** [bets_df], [legs_df] and [costs_df] of the result. *)
Definition bets_df (L : Ledger) : list BetRow := fst (fst L).
Definition legs_df (L : Ledger) : list LegRow := snd (fst L).
Definition costs_df (L : Ledger) : list CostRow := snd L.

(** The result of a leg, settled again from its row and the final score
    of its event. *)
Definition leg_result (ev : Event) (l : LegRow) : Settled :=
  let v := default 0 (line_value l) in
  let margin := inject_Z (home_margin ev) in
  let points := inject_Z (total_points ev) in
  match market_type l with
  | spread =>
      sign_settle ((if Selection_is_home (selection l) then margin else - margin) + v)
  | total =>
      match selection l with
      | sel_over => sign_settle (points - v)
      | _ => sign_settle (v - points)
      end
  | _ =>
      if Selection_is_home (selection l)
      then (if (0 <? home_margin ev)%Z then win else lose)
      else (if (0 <? home_margin ev)%Z then lose else win)
  end.

(** The line a leg is offered at, against the line of its event: a spread
    leg is within 1.5 points of the event's spread seen from the side
    taken, a total leg within 1.8 points of the event's total; an event
    without a line gets one within [-14, 14] or [31, 59]. *)
Definition line_near (ev : Event) (l : LegRow) : Prop :=
  match market_type l with
  | spread =>
      exists sl v,
        line_or_default (spread_line ev) (-14) 14 sl
        /\ line_value l = Some v
        /\ -1.5 <= v - (if Selection_is_home (selection l) then sl else - sl) <= 1.5
  | total =>
      exists tl v,
        line_or_default (total_line ev) 31 59 tl
        /\ line_value l = Some v
        /\ -1.8 <= v - tl <= 1.8
  | _ => line_value l = None
  end.

(** The log of one customer, by position: the [k]-th executed week is
    week [start + k] of the calendar and is entered with
    [weeks_active = k]. *)
Definition log_facts (events : list Event) (week_keys : list WeekKey)
    (log : list WeekLog) : Prop :=
  exists start,
    (0 <= start)%Z
    /\ chained initial_state log
    /\ (week_keys = [] -> log = [])
    /\ (week_keys <> [] -> log <> [])
    /\ forall k e, nth_error log k = Some e ->
         wl_wk_idx e = (start + Z.of_nat k)%Z
         /\ (wl_wk_idx e < Z.of_nat (length week_keys))%Z
         /\ weeks_active (wl_before e) = Z.of_nat k
         /\ entry_facts events week_keys e.

(** ** The counters of a run (simulate_ledger, lines 441-442, 637, 718) *)

Section Counters.
Context {RT : Runtime}.

(** [bet_id] and [leg_id]. *)
Definition counters (s : Sim) : Z * Z := (sim_bet_id s, sim_leg_id s).

(** [m] relates the counters before, its result and the counters after
    by [R], from every state. *)
Definition counting {A} (m : St Sim A) (R : Z * Z -> A -> Z * Z -> Prop) : Prop :=
  forall s, R (counters s) (fst (m s)) (counters (snd (m s))).

(** [m] leaves the counters as they are. *)
Definition keeps {A} (m : St Sim A) : Prop :=
  forall s, counters (snd (m s)) = counters s.

End Counters.

(** [l] is [lo, lo + 1, ...]. *)
Fixpoint consecutive (lo : Z) (l : list Z) : Prop :=
  match l with
  | [] => True
  | x :: rest => x = lo /\ consecutive (lo + 1) rest
  end.

(** The ids of the rows of the bets [ps], appended when the counters are
    [c], and the counters [c'] afterwards: each bet takes the next bet
    id, its legs the next leg ids, and the legs of a bet are numbered
    from 1. *)
Fixpoint ids_from (c : Z * Z) (ps : list Placed) (c' : Z * Z) : Prop :=
  match ps with
  | [] => c' = c
  | p :: rest =>
      bet_id (p_bet p) = fst c
      /\ consecutive (snd c) (map bet_leg_id (p_legs p))
      /\ consecutive 1 (map leg_no (p_legs p))
      /\ ids_from ((fst c + 1)%Z, (snd c + Z.of_nat (length (p_legs p)))%Z) rest c'
  end.

(** ** Payouts (simulate_ledger, lines 638-661) *)

(** Status and payout of a bet agree: a lost bet pays nothing, a pushed
    bet returns the stake, a won bet pays the stake or more. *)
Definition payout_by_status (stake payout : Q) (stat : Settled) : Prop :=
  match stat with
  | lose => payout = 0.0
  | push => payout == stake
  | win => stake <= payout
  end.

(** What the sums of a Monte Carlo row use of each bet. *)
Record row_facts (p : Placed) : Prop := {
  rf_stake : 5 <= stake_amount (p_bet p);
  rf_payout : 0 <= gross_payout (p_bet p);
  rf_promo : 0 <= promo_cost (p_cost p) <= stake_amount (p_bet p) * 0.14;
  rf_fee : payment_fee (p_cost p) == stake_amount (p_bet p) * 0.012;
  rf_tax : 0 <= tax (p_cost p)
}.

(** ** Retention (compute_still_active_retention, lines 748-785) *)

(** [out.get(seg, {}).get(key, 0.0)], as the callers read a retention. *)
Definition retention_get (r : Retention) (seg key : string) : Q :=
  dict_get (dict_get r seg (∅ : gmap string Q)) key 0.0.

Definition retention_segments : list string :=
  ["sharp"; "regular"; "casual"; "promo_hunter"].

Definition retention_windows : list string :=
  ["still_active_7d"; "still_active_30d"; "still_active_60d"; "still_active_90d"].

(** A segment's entry: the four windows, each a fraction. *)
Definition windows_ok (m : gmap string Q) : Prop :=
  (forall key, is_Some (m !! key) <-> In key retention_windows)
  /\ forall key v, m !! key = Some v -> 0 <= v <= 1.

Definition retention_ok (r : Retention) : Prop :=
  forall seg m, r !! seg = Some m -> In seg retention_segments /\ windows_ok m.

(** ** Calibration (calibrate_churn_config, lines 788-835) *)

(** The parameters of a configuration the grid search does not tune. *)
Definition untuned (cfg : ChurnConfig)
    : Q * Q * gmap string Q * Q * Q * list Z * Q * Q :=
  (alpha cfg, churn_plateau_mult cfg, early_churn_mult cfg,
   negative_net_mult cfg, promo_hunter_post_promo_mult cfg,
   promo_hunter_post_promo_weeks cfg, min_churn cfg, max_churn cfg).

(** ** The population (generate_customers, lines 330-383) *)

(** The bet-type preferences of a customer are weights: positive, and
    summing to 1. *)
Definition prefs_ok (c : Customer) : Prop :=
  0 < pref_moneyline c /\ 0 < pref_spread c
  /\ 0 < pref_total c /\ 0 < pref_parlay c
  /\ pref_moneyline c + pref_spread c + pref_total c + pref_parlay c == 1.

(** ** The calendar: order of the weeks *)

(** [(season, week)] keys in calendar order. *)
Definition key_le (a b : WeekKey) : Prop :=
  (fst a < fst b)%Z \/ (fst a = fst b /\ (snd a <= snd b)%Z).

Definition key_lt (a b : WeekKey) : Prop :=
  (fst a < fst b)%Z \/ (fst a = fst b /\ (snd a < snd b)%Z).

(** Every row of a ledger refers to rows that exist: the customer of a
    bet is a customer of [customers], the bet of a leg or of a cost row
    is a bet of the bet ledger. *)
Definition references_ok (customers : list Customer) (L : Ledger) : Prop :=
  Forall (fun b => In (bet_customer_id b) (map customer_id customers)) (bets_df L)
  /\ Forall (fun l => In (leg_bet_id l) (map bet_id (bets_df L))) (legs_df L)
  /\ Forall (fun k => In (cost_bet_id k) (map bet_id (bets_df L))) (costs_df L).

(** ** The promotion history (simulate_ledger, lines 699-705) *)

(** The promotion history of a state entered at week [idx]: weeks in
    increasing order, all before [idx], the last of them being
    [last_promo_week_idx]. *)
Definition history_ok (idx : Z) (st : CustomerRunState) : Prop :=
  StronglySorted Z.lt (promo_week_history st)
  /\ Forall (fun w => (w < idx)%Z) (promo_week_history st)
  /\ last_promo_week_idx st = last (promo_week_history st).

(** ** The sustained payback week *)

(** The rows [i], ..., [i + n - 1] of the series exist and none of them
    has a negative (or missing) cumulative net. *)
Definition sustained_from (gap : list (option Q)) (n : Z) (i : nat) : Prop :=
  forall j : nat, (Z.of_nat j < n)%Z -> gap_ge_0 (nth (i + j) gap None) = true.

(** * A scripted runtime

    An implementation of [Runtime] whose generators replay a script: the
    state is the list of the values still to be drawn, and each draw
    returns the next one, coerced into the support of its distribution
    (an exhausted script yields 0).  [default_rng] and [random.seed] pick
    the script of a seed.  It makes the model executable on concrete
    inputs. *)

Definition Script : Type := list Q.

Definition pop (s : Script) : Q * Script :=
  match s with
  | [] => (0, [])
  | x :: s' => (x, s')
  end.

Definition unit_interval (x : Q) : Q :=
  if Qle_bool 0 x && Qltb x 1 then x else 0.

Definition scripted_random (s : Script) : Q * Script :=
  let (x, s') := pop s in (unit_interval x, s').

Definition scripted_integers (lo hi : Z) (s : Script) : Z * Script :=
  let (x, s') := pop s in ((lo + (Qfloor x - lo) mod (hi - lo))%Z, s').

Definition scripted_uniform (a b : Q) (s : Script) : Q * Script :=
  let (x, s') := pop s in (a + (b - a) * unit_interval x, s').

Definition scripted_normal (mu sigma : Q) (s : Script) : Q * Script :=
  let (x, s') := pop s in (mu + sigma * x, s').

Definition scripted_lognormal (mean sigma : Q) (s : Script) : Q * Script :=
  let (x, s') := pop s in (if Qltb 0 x then x else 1, s').

Definition scripted_poisson (lam : Q) (s : Script) : Z * Script :=
  let (x, s') := pop s in (Z.max 0 (Qfloor x), s').

Definition scripted_pick {A} (dflt : A) (population : list A) (s : Script)
    : A * Script :=
  let (x, s') := pop s in
  (nth (Z.to_nat (Qfloor x mod Z.of_nat (length population))) population dflt, s').

(** Truncated series for [exp] and [log]. *)
Definition series_exp (x : Q) : Q :=
  fst (fold_left (fun '(acc, term) k => let term' := term * x / inject_Z k in
                                         (acc + term', term'))
                 [1; 2; 3; 4; 5; 6; 7; 8]%Z (1, 1)).

Definition series_log (x : Q) : Q :=
  let y := (x - 1) / (x + 1) in
  2 * (y + y ^ 3 / 3 + y ^ 5 / 5 + y ^ 7 / 7).

Lemma scripted_integers_range (lo hi : Z) (s : Script) :
  (lo < hi)%Z -> (lo <= fst (scripted_integers lo hi s) < hi)%Z.
Proof.
  intros Hlt. unfold scripted_integers. destruct (pop s) as [x s']. simpl.
  pose proof (Z.mod_pos_bound (Qfloor x - lo) (hi - lo)) as Hb. lia.
Qed.

Lemma firstn_sample_length (A : Type) (l : list A) (n : nat) (s : Z) :
  (n <= length l)%nat -> length (firstn n l) = n.
Proof. intros Hn. rewrite length_firstn. lia. Qed.

Definition scripted (np_script py_script : Z -> Script) : Runtime := {|
  Generator := Script;
  default_rng := np_script;
  rng_random := scripted_random;
  rng_integers := scripted_integers;
  rng_uniform := scripted_uniform;
  rng_normal := scripted_normal;
  rng_lognormal := scripted_lognormal;
  rng_poisson := scripted_poisson;
  rng_choice := fun population _ => scripted_pick ""%string population;
  PyRandom := Script;
  random_seed := py_script;
  random_choices := fun population _ => scripted_pick moneyline population;
  df_sample := fun A l n _ => firstn n l;
  math_exp := series_exp;
  math_log := series_log;
  rng_integers_range := scripted_integers_range;
  df_sample_length := firstn_sample_length
|}.

(** ** Scenarios *)

Definition ev (id s w d hs as_ : Z) (sl tl : option Q) : Event :=
  {| event_id := id; season := s; week := Some w; game_date := d;
     is_playoff := false; home_score := hs; away_score := as_;
     spread_line := sl; total_line := tl |}.

(** A three-week calendar: two games, one game, one game. *)
Definition calendar3 : list Event :=
  [ev 1 2020 1 100 24 17 (Some (-3)) (Some 44);
   ev 2 2020 1 100 10 20 (Some 2.5) (Some 41);
   ev 3 2020 2 107 30 27 (Some (-1)) (Some 50);
   ev 4 2020 3 114 14 21 (Some 3) (Some 40)].

Definition casual1 : Customer :=
  {| customer_id := 1; segment := "casual"; freq := 0.3; avg_stake := 25;
     pref_moneyline := 0.30; pref_spread := 0.35; pref_total := 0.25;
     pref_parlay := 0.10; promo_sensitivity := 0.5 |}.

(** The Super Bowl week: one game. *)
Definition super_bowl : list Event :=
  [ev 1 2020 22 100 31 20 (Some (-1.5)) (Some 54)].

(** Scripts of draws, in the order [simulate_ledger] makes them.  NumPy:
    [start_idx], the eligibility draw, then per week the churn draw (from
    the second week on) and the Poisson count, and per bet the stake, the
    event index, the hours, for a parlay the number of legs and the
    sample's seed, and per leg the side draw and two normal draws.  The
    [random] module: the index of the bet type, and of the market of each
    parlay leg. *)

(** One moneyline bet in week 0 (the customer wins it), then two weeks
    without a bet and without churn. *)
Definition np_quiet : Z -> Script :=
  fun _ =>
    [0;      (* start_idx *)
     0.9;    (* eligibility draw: not below 0.68, no promotion *)
     1;      (* week 0: Poisson count, one bet *)
     30;     (* stake *)
     0;      (* index of the bet's event *)
     0.5;    (* hours before the game: 1 + 95 * 0.5 *)
     0.1;    (* side draw: below 0.58, the favorite *)
     0;      (* noise of the favorite's price *)
     0;      (* noise of the underdog's price *)
     0.99;   (* week 1: churn draw, no churn *)
     0;      (*         Poisson count, no bet *)
     0.99;   (* week 2: churn draw, no churn *)
     0].     (*         Poisson count, no bet *)
Definition py_quiet : Z -> Script :=
  fun _ => [0].   (* bet type: index 0, moneyline *)

(** One parlay in week 0, asking for 2 legs; churn in week 1. *)
Definition np_parlay : Z -> Script :=
  fun _ =>
    [0;      (* start_idx *)
     0.9;    (* eligibility draw: no promotion *)
     1;      (* week 0: Poisson count, one bet *)
     30;     (* stake *)
     0;      (* index of the bet's event *)
     0.5;    (* hours before the game *)
     2;      (* n_legs *)
     12345;  (* random_state of the sample *)
     0.1;    (* leg 1, spread: side draw, the favorite *)
     0;      (*   line shift *)
     0;      (*   noise of the price: -112 *)
     0.6;    (* leg 2, total: side draw, under *)
     0.2;    (*   line shift: 0.7 * 0.2 *)
     1;      (*   noise of the price: round(-114 + 9) *)
     0].     (* week 1: churn draw, churn *)
Definition py_parlay : Z -> Script :=
  fun _ => [3;    (* bet type: index 3, parlay *)
            1;    (* market of leg 1: index 1, spread *)
            2].   (* market of leg 2: index 2, total *)

(** One moneyline bet with a promotion whose cost reaches the cap. *)
Definition np_promo : Z -> Script :=
  fun _ =>
    [0;      (* start_idx *)
     0.1;    (* eligibility draw: below 0.72, eligible *)
     1;      (* week 0: Poisson count, one bet *)
     30;     (* stake *)
     0;      (* index of the bet's event *)
     0.5;    (* hours before the game *)
     0.1;    (* side draw: the favorite *)
     0;      (* noise of the favorite's price *)
     0;      (* noise of the underdog's price *)
     0.05;   (* promotion draw: below promo_prob = 0.14 *)
     0.99;   (* cost draw: 0.05 + 0.13 * 0.99 *)
     5].     (* weeks of promo effect *)

Definition regular1 : Customer :=
  {| customer_id := 1; segment := "regular"; freq := 0.7; avg_stake := 50;
     pref_moneyline := 0.25; pref_spread := 0.40; pref_total := 0.25;
     pref_parlay := 0.10; promo_sensitivity := 0.9 |}.

Definition quiet_runtime : Runtime := scripted np_quiet py_quiet.
Definition parlay_runtime : Runtime := scripted np_parlay py_parlay.
Definition promo_runtime : Runtime := scripted np_promo py_quiet.

(** DEFAULT_CHURN_CONFIG with the clamp bounds crossed. *)
Definition crossed_cfg : ChurnConfig :=
  {| base_weekly_churn := base_weekly_churn DEFAULT_CHURN_CONFIG;
     alpha := 0.05;
     churn_plateau_mult := 0.68;
     early_churn_mult := early_churn_mult DEFAULT_CHURN_CONFIG;
     mid_churn_mult := mid_churn_mult DEFAULT_CHURN_CONFIG;
     tail_churn_mult := tail_churn_mult DEFAULT_CHURN_CONFIG;
     inactivity_mult := 2.5;
     negative_net_mult := 1.45;
     promo_hunter_post_promo_mult := 1.20;
     promo_hunter_post_promo_weeks := [1; 2; 3; 4]%Z;
     min_churn := 0.7;
     max_churn := 0.65 |}.

(** A customer entering its second week. *)
Definition second_week : CustomerRunState :=
  {| weeks_active := 1;
     last_bet_week_idx := Some 0%Z;
     has_churned := false;
     last_promo_week_idx := None;
     promo_week_history := [];
     negative_net_streak := 0;
     promo_effect_weeks_remaining := 0 |}.

(** ** A payback series *)

(** A payback series that is back above zero in weeks 1 and 2, dips in
    week 3 and stays at or above zero from week 4 on. *)
Definition dipping_series : list PaybackRow :=
  map (fun wg => {| pb_wk := fst wg;
                    cum_net_after_promo := Some (inject_Z (snd wg)) |})
      [(0, -5); (1, 1); (2, 2); (3, -1); (4, 0); (5, 3); (6, 4); (7, 5)]%Z.

(** ** A promotion hunter *)

(** [regular1] as a promotion hunter. *)
Definition hunter1 : Customer :=
  {| customer_id := 1; segment := "promo_hunter"; freq := 0.7; avg_stake := 50;
     pref_moneyline := 0.25; pref_spread := 0.40; pref_total := 0.25;
     pref_parlay := 0.10; promo_sensitivity := 0.9 |}.

(** * Properties *)

(** ** The model on small inputs *)

Example american_to_decimal_underdog : american_to_decimal 150 == 2.5.
Proof. vm_compute. reflexivity. Qed.

Example american_to_decimal_favorite : american_to_decimal (-200) == 1.5.
Proof. vm_compute. reflexivity. Qed.

Example py_round_ties_to_even :
  map py_round [2.5; 3.5; -112.5; 2.4; 2.6; -0.5] = [2; 4; -112; 2; 3; 0]%Z.
Proof. vm_compute. reflexivity. Qed.

Example np_clip_stake : map (fun x => Qeq_bool (np_clip x 5 2000) x)
                            [3; 5; 30; 2000; 2500]
                        = [false; true; true; true; false].
Proof. vm_compute. reflexivity. Qed.

Example np_clip_crossed : np_clip 0.1 0.7 0.65 == 0.65.
Proof. vm_compute. reflexivity. Qed.

Example py_range_example : py_range 2 5 = [2; 3; 4]%Z.
Proof. reflexivity. Qed.

Example grid_has_16_cells : length grid = 16%nat /\ hd_error grid = Some (0.95, 0.9, 0.9, 2.3).
Proof. split; reflexivity. Qed.

Example promo_cap_buckets :
  map promo_cap [0; 7; 8; 19; 20; 50]%Z = [0.14; 0.14; 0.09; 0.09; 0.06; 0.06].
Proof. reflexivity. Qed.

Example settle_parlay_with_push :
  settle_bet parlay 10 [(win, 2); (push, 1.9); (win, 1.5)] = (10 * (1.0 * 2 * 1.0 * 1.5), win, Qsum [2; 1.9; 1.5] / 3).
Proof. reflexivity. Qed.

Example settle_parlay_with_loss :
  fst (settle_bet parlay 10 [(win, 2); (lose, 1.9)]) = (0.0, lose).
Proof. reflexivity. Qed.

Example week_keys_of_calendar3 :
  week_keys_of (load_events calendar3) = [(2020, 1); (2020, 2); (2020, 3)]%Z.
Proof. vm_compute. reflexivity. Qed.


(** ** Comparisons and clamps *)

Lemma Qltb_true (a b : Q) : Qltb a b = true <-> a < b.
Proof.
  unfold Qltb. rewrite negb_true_iff, <- not_true_iff_false, Qle_bool_iff.
  split; [apply Qnot_le_lt | apply Qlt_not_le].
Qed.

Lemma Qltb_false (a b : Q) : Qltb a b = false <-> b <= a.
Proof. unfold Qltb. rewrite negb_false_iff. apply Qle_bool_iff. Qed.

Ltac case_Qltb a b :=
  let E := fresh "E" in
  destruct (Qltb a b) eqn:E;
  [apply Qltb_true in E | apply Qltb_false in E].

Lemma py_min_le_l (a b : Q) : py_min a b <= a.
Proof. unfold py_min. case_Qltb b a; lra. Qed.

Lemma py_min_le_r (a b : Q) : py_min a b <= b.
Proof. unfold py_min. case_Qltb b a; lra. Qed.

Lemma py_max_ge_r (a b : Q) : b <= py_max a b.
Proof. unfold py_max. case_Qltb a b; lra. Qed.

Lemma np_clip_bounds (x lo hi : Q) :
  lo <= hi -> lo <= np_clip x lo hi <= hi.
Proof.
  intros Hle. unfold np_clip, py_min, py_max.
  case_Qltb x lo; case_Qltb hi lo; try case_Qltb hi x; lra.
Qed.

(** ** Reasoning on the state monad *)

Lemma always_ret {S A} (a : A) (P : A -> Prop) :
  P a -> always (S := S) (ret a) P.
Proof. intros H s. exact H. Qed.

Lemma always_bind {S A B} (m : St S A) (f : A -> St S B)
    (P : A -> Prop) (R : B -> Prop) :
  always m P -> (forall a, P a -> always (f a) R) -> always (bind m f) R.
Proof.
  intros Hm Hf s. unfold bind. specialize (Hm s).
  destruct (m s) as [a s']. apply Hf. exact Hm.
Qed.

Lemma always_bind_any {S A B} (m : St S A) (f : A -> St S B) (R : B -> Prop) :
  (forall a, always (f a) R) -> always (bind m f) R.
Proof.
  intros Hf. apply always_bind with (P := fun _ => True).
  - intros s. exact I.
  - intros a _. apply Hf.
Qed.

Lemma always_weaken {S A} (m : St S A) (P R : A -> Prop) :
  always m P -> (forall a, P a -> R a) -> always m R.
Proof. intros Hm H s. apply H, Hm. Qed.

Lemma always_and {S A} (m : St S A) (P R : A -> Prop) :
  always m P -> always m R -> always m (fun a => P a /\ R a).
Proof. intros HP HR s. split; [apply HP | apply HR]. Qed.

(** [draw x]: the computation starts with a step whose result [x] the
    property does not depend on. *)
Tactic Notation "draw" ident(x) := apply always_bind_any; intros x.

Section Properties.
Context {RT : Runtime}.

Lemma always_np_integers (lo hi : Z) :
  (lo < hi)%Z -> always (np (rng_integers lo hi)) (fun n => (lo <= n < hi)%Z).
Proof.
  intros Hlt s. unfold np.
  pose proof (rng_integers_range lo hi (sim_rng s) Hlt) as Hr.
  destruct (rng_integers lo hi (sim_rng s)). exact Hr.
Qed.

(** ** What one bet appends *)

Lemma place_bet_facts (c : Customer) (pe : bool) (W : list Event)
    (wk_idx : Z) (acc : WeekAcc) :
  always (place_bet c pe W wk_idx acc)
    (fun r => bet_facts c (weeks_active (acc_state acc)) (fst r)
              /\ acc_step acc (fst r) (snd r)).
Proof.
  unfold place_bet.
  draw bt.
  draw x.
  draw i.
  draw hours.
  draw leg_events.
  draw bid.
  draw legs.
  destruct (settle_bet _ _ _) as [[payout stat] avg_odds] eqn:Hsettle.
  draw trigger0.
  draw trigger.
  draw cost0.
  set (stake := np_clip x 5 2000) in *.
  set (wa := weeks_active (acc_state acc)) in *.
  assert (Hcost :
    (if trigger && is_promo_hunter (segment c)
     then py_min (py_min cost0 (stake * promo_cap wa)) (stake * 0.06)
     else py_min cost0 (stake * promo_cap wa))
    <= stake * promo_cap wa).
  { destruct (trigger && is_promo_hunter (segment c)).
    - eapply Qle_trans; [apply py_min_le_l | apply py_min_le_r].
    - apply py_min_le_r. }
  assert (Hstake : 5 <= stake <= 2000) by (apply np_clip_bounds; lra).
  apply always_bind with
    (P := fun st1 => weeks_active st1 = wa
                     /\ negative_net_streak st1
                        = negative_net_streak (acc_state acc)).
  { destruct trigger.
    - draw k. apply always_ret. split; reflexivity.
    - apply always_ret. split; reflexivity. }
  intros st1 [Hwa Hstreak].
  apply always_bind_any; intros [].
  apply always_ret. cbn [fst snd].
  split.
  - constructor; cbn [p_bet p_cost p_legs bet_customer_id stake_amount
                      cost_bet_id bet_id promo_cost gross_payout status
                      odds_decimal_avg bet_type].
    + reflexivity.
    + apply Hstake.
    + apply Hstake.
    + reflexivity.
    + exact Hcost.
    + symmetry. exact Hsettle.
  - repeat split; cbn; assumption || reflexivity.
Qed.

Lemma place_bets_acc (c : Customer) (pe : bool) (W : list Event)
    (wk_idx : Z) (n : nat) (acc : WeekAcc) :
  always (place_bets c pe W wk_idx n acc)
    (fun r => weeks_active (acc_state (snd r)) = weeks_active (acc_state acc)
              /\ negative_net_streak (acc_state (snd r))
                 = negative_net_streak (acc_state acc)
              /\ week_net_profit (snd r) == week_net_profit acc + book_net (fst r)).
Proof.
  revert acc. induction n as [|n IH]; intros acc; simpl.
  - apply always_ret. simpl. repeat split; auto. lra.
  - eapply always_bind; [apply place_bet_facts|].
    intros [p acc1] [_ (Hwa & Hst & Hnet)]. simpl in *.
    eapply always_bind; [apply IH|].
    intros [ps acc2] (Hwa2 & Hst2 & Hnet2). simpl in *.
    apply always_ret. simpl. repeat split; try congruence.
    rewrite Hnet2, Hnet. lra.
Qed.

(** ** From one bet to the whole run *)

Section Lifting.
Variable P : Customer -> list Event -> Z -> Placed -> Prop.
Hypothesis place_bet_P :
  forall c pe W wk_idx acc, W <> [] ->
    always (place_bet c pe W wk_idx acc)
           (fun r => P c W (weeks_active (acc_state acc)) (fst r)).

Lemma place_bets_every (c : Customer) (pe : bool) (W : list Event)
    (wk_idx : Z) (n : nat) (acc : WeekAcc) :
  W <> [] ->
  always (place_bets c pe W wk_idx n acc)
         (fun r => Forall (P c W (weeks_active (acc_state acc))) (fst r)).
Proof.
  intros HW. revert acc. induction n as [|n IH]; intros acc; simpl.
  - apply always_ret. constructor.
  - eapply always_bind.
    { apply always_and; [apply place_bet_P, HW | apply place_bet_facts]. }
    intros [p acc1] [Hp [_ (Hwa & _)]]. simpl in *.
    eapply always_bind; [apply IH|].
    intros [ps acc2] Hps. simpl in *.
    apply always_ret. simpl. constructor; [exact Hp|].
    rewrite <- Hwa. exact Hps.
Qed.

Lemma active_week_every (c : Customer) (pe : bool) (events : list Event)
    (week_keys : list WeekKey) (wk_idx : Z) (st : CustomerRunState) :
  always (active_week c pe events week_keys wk_idx st)
    (fun r => Forall (P c (week_events_at events week_keys wk_idx) (weeks_active st))
                     (placed_of (fst r))).
Proof.
  unfold active_week. fold (week_events_at events week_keys wk_idx).
  destruct (week_events_at events week_keys wk_idx) as [|e0 W] eqn:HW.
  - apply always_ret. constructor.
  - draw n.
    destruct (n <=? 0)%Z.
    + apply always_ret. constructor.
    + eapply always_bind; [apply place_bets_every; discriminate|].
      intros [ps acc] Hps. apply always_ret. exact Hps.
Qed.

Lemma simulate_week_every (cfg : ChurnConfig) (c : Customer) (pe : bool)
    (events : list Event) (week_keys : list WeekKey)
    (wk_idx : Z) (st : CustomerRunState) :
  always (simulate_week cfg c pe events week_keys wk_idx st)
    (fun r => Forall (P c (week_events_at events week_keys wk_idx) (weeks_active st))
                     (placed_of (fst r))).
Proof.
  unfold simulate_week. destruct (0 <? weeks_active st)%Z.
  - draw u. destruct (Qltb u _).
    + apply always_ret. constructor.
    + apply active_week_every.
  - apply active_week_every.
Qed.

Lemma week_loop_every (cfg : ChurnConfig) (c : Customer) (pe : bool)
    (events : list Event) (week_keys : list WeekKey)
    (wks : list Z) (st : CustomerRunState) :
  always (week_loop cfg c pe events week_keys wks st)
    (Forall (fun e =>
       Forall (P c (week_events_at events week_keys (wl_wk_idx e))
                 (weeks_active (wl_before e)))
              (placed_of (wl_outcome e)))).
Proof.
  revert st. induction wks as [|wk rest IH]; intros st; simpl.
  - apply always_ret. constructor.
  - destruct (has_churned st).
    + apply always_ret. constructor.
    + eapply always_bind; [apply simulate_week_every|].
      intros [out st'] Hout. eapply always_bind; [apply IH|].
      intros logs Hlogs. apply always_ret. constructor; assumption.
Qed.

Lemma simulate_customers_every (cfg : ChurnConfig) (events : list Event)
    (week_keys : list WeekKey) (cs : list Customer) :
  always (simulate_customers cfg events week_keys cs)
         (every_bet P events week_keys).
Proof.
  induction cs as [|c rest IH]; simpl.
  - apply always_ret. constructor.
  - eapply always_bind with
      (P := Forall (fun e =>
              Forall (P c (week_events_at events week_keys (wl_wk_idx e))
                        (weeks_active (wl_before e)))
                     (placed_of (wl_outcome e)))).
    + unfold simulate_customer. destruct week_keys.
      * apply always_ret. constructor.
      * do 2 (apply always_bind_any; intros ?). apply week_loop_every.
    + intros log Hlog. eapply always_bind; [apply IH|].
      intros logs Hlogs. apply always_ret. constructor; assumption.
Qed.

Lemma simulate_ledger_log_every (dim_event : list Event)
    (customers : list Customer) (seed : Z) (churn_cfg : option ChurnConfig) :
  always (simulate_ledger_log dim_event customers seed churn_cfg)
         (every_bet P (load_events dim_event)
                    (week_keys_of (load_events dim_event))).
Proof.
  intros r0. unfold simulate_ledger_log, bind, seed_random.
  match goal with
  | |- context [simulate_customers ?cfg ?evs ?wks ?cs ?s] =>
      pose proof (simulate_customers_every cfg evs wks cs s) as H;
      destruct (simulate_customers cfg evs wks cs s) as [logs s']
  end.
  exact H.
Qed.

End Lifting.

(** A property of bets that ignores the week holds of every row. *)
Lemma every_bet_all_placed (R : Placed -> Prop) (events : list Event)
    (week_keys : list WeekKey) (logs : list (Customer * list WeekLog)) :
  every_bet (fun _ _ _ => R) events week_keys logs -> Forall R (all_placed logs).
Proof.
  unfold every_bet, all_placed. intros H.
  induction H as [|cl logs Hcl _ IH]; simpl; [constructor|].
  apply Forall_app. split; [|exact IH].
  induction Hcl as [|e es He _ IHe]; simpl; [constructor|].
  apply Forall_app. split; assumption.
Qed.

Lemma simulate_ledger_rows (dim_event : list Event) (customers : list Customer)
    (seed : Z) (churn_cfg : option ChurnConfig) (r0 : PyRandom) :
  fst (simulate_ledger dim_event customers seed churn_cfg r0)
  = ledger_of (fst (simulate_ledger_log dim_event customers seed churn_cfg r0)).
Proof.
  unfold simulate_ledger, bind.
  destruct (simulate_ledger_log dim_event customers seed churn_cfg r0).
  reflexivity.
Qed.

Lemma bet_facts_every (dim_event : list Event) (customers : list Customer)
    (seed : Z) (churn_cfg : option ChurnConfig) (r0 : PyRandom) :
  every_bet (fun c _ wa p => bet_facts c wa p)
            (load_events dim_event) (week_keys_of (load_events dim_event))
            (fst (simulate_ledger_log dim_event customers seed churn_cfg r0)).
Proof.
  apply simulate_ledger_log_every. intros c pe W wk_idx acc _.
  eapply always_weaken; [apply place_bet_facts|]. intros r [H _]. exact H.
Qed.

Lemma every_bet_weaken (P R : Customer -> list Event -> Z -> Placed -> Prop)
    (events : list Event) (week_keys : list WeekKey)
    (logs : list (Customer * list WeekLog)) :
  (forall c W wa p, P c W wa p -> R c W wa p) ->
  every_bet P events week_keys logs -> every_bet R events week_keys logs.
Proof.
  intros HPR H. unfold every_bet in *.
  eapply Forall_impl; [exact H|]. intros cl Hcl.
  eapply Forall_impl; [exact Hcl|]. intros e He.
  eapply Forall_impl; [exact He|]. intros p. apply HPR.
Qed.

(** ** Stakes (C10) *)

(** C10.  Every bet of the bet ledger returned by [simulate_ledger] has a
    stake in the closed interval [5, 2000], whatever the calendar, the
    population, the seed, the configuration and the random draws. *)
Theorem stake_in_sane_range (dim_event : list Event) (customers : list Customer)
    (seed : Z) (churn_cfg : option ChurnConfig) (r0 : PyRandom) :
  Forall (fun b => 5 <= stake_amount b <= 2000)
         (fst (fst (fst (simulate_ledger dim_event customers seed churn_cfg r0)))).
Proof.
  rewrite simulate_ledger_rows. unfold ledger_of. simpl.
  apply Forall_map. apply (every_bet_all_placed _ (load_events dim_event)
                             (week_keys_of (load_events dim_event))).
  eapply every_bet_weaken; [|apply bet_facts_every].
  intros c W wa p H. split; [apply (bf_stake_lo _ _ _ H) | apply (bf_stake_hi _ _ _ H)].
Qed.

(** ** Promotional cost (C4) *)

(** C4.  In every week of every customer of a run, each bet placed has a
    cost row (same [bet_id]) whose promotional cost is at most the stake
    times the cap of the customer's tenure bucket, [promo_cap] of the
    [weeks_active] the customer has in that week: 0.14 below 8 weeks,
    0.09 below 20, 0.06 from 20 on. *)
Theorem promo_cost_within_tenure_cap (dim_event : list Event)
    (customers : list Customer) (seed : Z) (churn_cfg : option ChurnConfig)
    (r0 : PyRandom) :
  Forall (fun cl =>
    Forall (fun e =>
      Forall (fun p =>
                cost_bet_id (p_cost p) = bet_id (p_bet p)
                /\ promo_cost (p_cost p)
                   <= stake_amount (p_bet p) * promo_cap (weeks_active (wl_before e)))
             (placed_of (wl_outcome e)))
      (snd cl))
    (fst (simulate_ledger_log dim_event customers seed churn_cfg r0)).
Proof.
  pose proof (bet_facts_every dim_event customers seed churn_cfg r0) as H.
  apply (every_bet_weaken _
           (fun _ _ wa p =>
              cost_bet_id (p_cost p) = bet_id (p_bet p)
              /\ promo_cost (p_cost p) <= stake_amount (p_bet p) * promo_cap wa))
    in H; [exact H|].
  intros c W wa p Hp. split; [apply (bf_cost_id _ _ _ Hp) | apply (bf_promo_cap _ _ _ Hp)].
Qed.

(** ** Parlay payout (C2) *)

Lemma parlay_mult_from (legs : list LegRow) (a : Q) :
  fold_left
    (fun mult rd => mult * (if Settled_eqb (fst rd) win then snd rd else 1.0))
    (map (fun l => (settled_result l, decimal_odds l)) legs) a
  == a * Qprod (winning_odds legs).
Proof.
  revert a. induction legs as [|l legs IH]; intros a; simpl.
  - unfold Qprod, winning_odds. simpl. lra.
  - rewrite IH. unfold winning_odds. simpl.
    destruct (Settled_eqb (settled_result l) win); simpl.
    + fold (winning_odds legs). unfold Qprod at 2. simpl. fold (Qprod (winning_odds legs)).
      ring.
    + fold (winning_odds legs). ring.
Qed.

Lemma has_loss_legs (legs : list LegRow) :
  existsb (fun rd : Settled * Q => Settled_eqb (fst rd) lose)
          (map (fun l => (settled_result l, decimal_odds l)) legs)
  = existsb (fun l => Settled_eqb (settled_result l) lose) legs.
Proof. induction legs as [|l legs IH]; simpl; [reflexivity | now rewrite IH]. Qed.

(** C2.  For every bet of a run whose type is parlay, the gross payout is
    0 if one of its legs settled "lose", and otherwise the stake times
    the product of the decimal odds of its winning legs. *)
Theorem parlay_payout_correct (dim_event : list Event) (customers : list Customer)
    (seed : Z) (churn_cfg : option ChurnConfig) (r0 : PyRandom) :
  Forall (fun p =>
            bet_type (p_bet p) = parlay ->
            gross_payout (p_bet p)
            == parlay_payout_rule (stake_amount (p_bet p)) (p_legs p))
         (all_placed (fst (simulate_ledger_log dim_event customers seed churn_cfg r0))).
Proof.
  apply (every_bet_all_placed _ (load_events dim_event)
           (week_keys_of (load_events dim_event))).
  eapply every_bet_weaken; [|apply bet_facts_every].
  intros c W wa p H Hparlay. pose proof (bf_settle _ _ _ H) as Hs.
  rewrite Hparlay in Hs. unfold settle_bet in Hs. simpl in Hs.
  unfold parlay_payout_rule. rewrite has_loss_legs in Hs.
  destruct (existsb _ (p_legs p)).
  - inversion Hs as [[Hpay Hstat Havg]]. rewrite Hpay. clear. lra.
  - inversion Hs as [[Hpay Hstat Havg]]. rewrite Hpay. unfold parlay_mult.
    rewrite parlay_mult_from. clear. lra.
Qed.

(** ** The churn probability (C1) *)

(** C1 (amended).  Whenever the configuration has
    [min_churn <= max_churn], the probability the churn draw is compared
    with, [churn_prob], lies in [[min_churn, max_churn]] for every
    segment, run state and week. *)
Theorem churn_prob_within_bounds (cfg : ChurnConfig) (seg : string)
    (st : CustomerRunState) (wk_idx : Z) :
  min_churn cfg <= max_churn cfg ->
  min_churn cfg <= churn_prob cfg seg st wk_idx <= max_churn cfg.
Proof. intros Hle. unfold churn_prob. apply np_clip_bounds, Hle. Qed.

(** ** The week loop *)

Lemma place_bets_nonempty (c : Customer) (pe : bool) (W : list Event)
    (wk_idx : Z) (n : nat) (acc : WeekAcc) :
  (0 < n)%nat ->
  always (place_bets c pe W wk_idx n acc) (fun r => fst r <> []).
Proof.
  intros Hn. destruct n as [|n]; [lia|]. simpl.
  apply always_bind_any. intros [p acc1].
  apply always_bind_any. intros [ps acc2].
  apply always_ret. discriminate.
Qed.

Lemma active_week_rule (c : Customer) (pe : bool) (events : list Event)
    (week_keys : list WeekKey) (wk_idx : Z) (st : CustomerRunState) :
  always (active_week c pe events week_keys wk_idx st)
    (fun r => streak_rule wk_idx st (fst r) (snd r) /\ net_of_rows (fst r)
              /\ fst r <> WkChurned).
Proof.
  unfold active_week.
  destruct (events_by_week events _) as [|e0 W].
  - apply always_ret. unfold streak_rule, net_of_rows. simpl.
    repeat split; try discriminate; auto.
  - draw n.
    destruct (n <=? 0)%Z eqn:Hn.
    + apply always_ret. unfold streak_rule, net_of_rows. simpl.
      repeat split; try discriminate; auto.
    + eapply always_bind.
      { apply always_and; [apply place_bets_acc | apply place_bets_nonempty].
        apply Z.leb_gt in Hn. lia. }
      intros [ps acc] [(Hwa & Hst & Hnet) Hne]. simpl in *.
      apply always_ret. unfold streak_rule, net_of_rows. simpl.
      rewrite Hst. repeat split; try discriminate; auto.
      rewrite Hnet. lra.
Qed.

Lemma simulate_week_rule (cfg : ChurnConfig) (c : Customer) (pe : bool)
    (events : list Event) (week_keys : list WeekKey)
    (wk_idx : Z) (st : CustomerRunState) :
  always (simulate_week cfg c pe events week_keys wk_idx st)
    (fun r => streak_rule wk_idx st (fst r) (snd r) /\ net_of_rows (fst r)
              /\ (fst r = WkChurned -> has_churned (snd r) = true)).
Proof.
  assert (Hactive :
    always (active_week c pe events week_keys wk_idx st)
      (fun r => streak_rule wk_idx st (fst r) (snd r) /\ net_of_rows (fst r)
                /\ (fst r = WkChurned -> has_churned (snd r) = true))).
  { eapply always_weaken; [apply active_week_rule|].
    intros r (H1 & H2 & H3). split; [exact H1|]. split; [exact H2|].
    intros Hc. contradiction. }
  unfold simulate_week. destruct (0 <? weeks_active st)%Z; [|exact Hactive].
  draw u. destruct (Qltb u _); [|exact Hactive].
  apply always_ret. unfold streak_rule. simpl. auto.
Qed.

Lemma week_loop_shape (cfg : ChurnConfig) (c : Customer) (pe : bool)
    (events : list Event) (week_keys : list WeekKey)
    (wks : list Z) (st : CustomerRunState) :
  always (week_loop cfg c pe events week_keys wks st) (log_shape wks).
Proof.
  revert st. induction wks as [|wk rest IH]; intros st; simpl.
  - apply always_ret. repeat split; [constructor | exists []; reflexivity].
  - destruct (has_churned st) eqn:Hch.
    + apply always_ret. repeat split; [constructor | exists (wk :: rest); reflexivity].
    + eapply always_bind; [apply simulate_week_rule|].
      intros [out st'] (Hrule & Hnet & Hchurn). simpl in *.
      intros s. unfold bind.
      pose proof (IH st' s) as Hrest.
      destruct (week_loop cfg c pe events week_keys rest st' s) as [logs s'] eqn:Hrun.
      simpl in *. destruct Hrest as (Hok & Hlast & tail & Htail).
      repeat split.
      * constructor; [split; assumption | exact Hok].
      * intros Hout. specialize (Hchurn Hout).
        destruct rest as [|wk' rest']; simpl in Hrun.
        -- inversion Hrun. reflexivity.
        -- rewrite Hchurn in Hrun. inversion Hrun. reflexivity.
      * exact Hlast.
      * exists tail. simpl. rewrite Htail. reflexivity.
Qed.

Lemma simulate_customers_shape (cfg : ChurnConfig) (events : list Event)
    (week_keys : list WeekKey) (cs : list Customer) :
  always (simulate_customers cfg events week_keys cs) every_log.
Proof.
  induction cs as [|c rest IH]; simpl.
  - apply always_ret. constructor.
  - eapply always_bind with
      (P := fun log => exists lo hi, log_shape (py_range lo hi) log).
    + unfold simulate_customer. destruct week_keys as [|k ks].
      * apply always_ret. exists 0%Z, 0%Z.
        repeat split; [constructor | exists []; reflexivity].
      * draw start.
        draw u.
        eapply always_weaken; [apply week_loop_shape|].
        intros log H. eauto.
    + intros log Hlog. eapply always_bind; [apply IH|].
      intros logs Hlogs. apply always_ret. constructor; assumption.
Qed.

Lemma simulate_ledger_log_shape (dim_event : list Event)
    (customers : list Customer) (seed : Z) (churn_cfg : option ChurnConfig) :
  always (simulate_ledger_log dim_event customers seed churn_cfg) every_log.
Proof.
  intros r0. unfold simulate_ledger_log, bind, seed_random.
  match goal with
  | |- context [simulate_customers ?cfg ?evs ?wks ?cs ?s] =>
      pose proof (simulate_customers_shape cfg evs wks cs s) as H;
      destruct (simulate_customers cfg evs wks cs s) as [logs s']
  end.
  exact H.
Qed.

(** ** The negative-net streak (C8) *)

(** C8 (amended).  For every executed week of every customer of a run,
    the streak after the week follows [streak_rule]: after a week with
    bets, whose net profit is that of its rows, it is 0 if that net
    profit is not negative and one more, capped at 8, otherwise; after a
    week with events but no bet it is one more, capped at 6, if the last
    bet is at least 2 weeks back and unchanged otherwise; a week without
    events and the churn week leave it unchanged. *)
Theorem streak_follows_week_outcome (dim_event : list Event)
    (customers : list Customer) (seed : Z) (churn_cfg : option ChurnConfig)
    (r0 : PyRandom) :
  Forall (fun cl =>
    Forall (fun e =>
              streak_rule (wl_wk_idx e) (wl_before e) (wl_outcome e) (wl_after e)
              /\ net_of_rows (wl_outcome e))
           (snd cl))
    (fst (simulate_ledger_log dim_event customers seed churn_cfg r0)).
Proof.
  pose proof (simulate_ledger_log_shape dim_event customers seed churn_cfg r0) as H.
  eapply Forall_impl; [exact H|].
  intros cl (lo & hi & Hok & _). exact Hok.
Qed.

(** ** Churn is terminal (C3) *)

Lemma seq_range_sorted (lo : Z) (n a : nat) :
  StronglySorted Z.lt (map (fun i => (lo + Z.of_nat i)%Z) (seq a n)).
Proof.
  revert a. induction n as [|n IH]; intros a; simpl; constructor.
  - apply IH.
  - apply Forall_map, List.Forall_forall. intros i Hi. apply in_seq in Hi. lia.
Qed.

Lemma py_range_sorted (lo hi : Z) : StronglySorted Z.lt (py_range lo hi).
Proof. apply seq_range_sorted. Qed.

Lemma sorted_prefix (l1 l2 : list Z) :
  StronglySorted Z.lt (l1 ++ l2) -> StronglySorted Z.lt l1.
Proof.
  induction l1 as [|x l1 IH]; simpl; intros H; [constructor|].
  inversion H as [|? ? Hs Hall]; subst. constructor; [apply IH, Hs|].
  apply Forall_app in Hall. apply Hall.
Qed.

(** In a log over increasing week indices in which a churn week is last,
    no week comes after a churn week and every bet comes before it. *)
Lemma churn_week_is_last (logs : list WeekLog) (e e' : WeekLog) :
  StronglySorted Z.lt (map wl_wk_idx logs) ->
  churn_only_last logs ->
  In e logs -> wl_outcome e = WkChurned -> In e' logs ->
  (wl_wk_idx e' <= wl_wk_idx e)%Z
  /\ (forall p, In p (placed_of (wl_outcome e')) ->
                (wl_wk_idx e' < wl_wk_idx e)%Z).
Proof.
  induction logs as [|x rest IH]; simpl; [intros _ _ []|].
  intros Hs [Hx Hlast] He Hch He'.
  inversion Hs as [|? ? Hs' Hall]; subst.
  destruct He as [-> | He].
  - specialize (Hx Hch). subst rest. destruct He' as [-> | []].
    split; [lia|]. rewrite Hch. intros p [].
  - destruct He' as [-> | He'].
    + assert (wl_wk_idx e' < wl_wk_idx e)%Z as Hlt.
      { rewrite List.Forall_forall in Hall. apply Hall, in_map, He. }
      split; [lia | intros; exact Hlt].
    + apply IH; assumption.
Qed.

(** C3.  In the log of every customer of a run: if the churn draw
    succeeded in week [e], then no week [e'] of that customer is
    simulated after it, and every bet placed for that customer (the rows
    carry the customer's id) was placed in a week strictly before it. *)
Theorem churn_is_terminal (dim_event : list Event)
    (customers : list Customer) (seed : Z) (churn_cfg : option ChurnConfig)
    (r0 : PyRandom) :
  Forall (fun cl =>
    forall e e', In e (snd cl) -> wl_outcome e = WkChurned -> In e' (snd cl) ->
      (wl_wk_idx e' <= wl_wk_idx e)%Z
      /\ (forall p, In p (placed_of (wl_outcome e')) ->
                    bet_customer_id (p_bet p) = customer_id (fst cl)
                    /\ (wl_wk_idx e' < wl_wk_idx e)%Z))
    (fst (simulate_ledger_log dim_event customers seed churn_cfg r0)).
Proof.
  pose proof (simulate_ledger_log_shape dim_event customers seed churn_cfg r0) as Hshape.
  pose proof (bet_facts_every dim_event customers seed churn_cfg r0) as Hfacts.
  unfold every_log, every_bet in *.
  rewrite List.Forall_forall in *. intros cl Hcl e e' He Hch He'.
  destruct (Hshape cl Hcl) as (lo & hi & _ & Hlast & tail & Htail).
  assert (Hsorted : StronglySorted Z.lt (map wl_wk_idx (snd cl))).
  { apply (sorted_prefix _ tail). rewrite <- Htail. apply py_range_sorted. }
  destruct (churn_week_is_last _ e e' Hsorted Hlast He Hch He') as [Hle Hlt].
  split; [exact Hle|]. intros p Hp. split; [|apply (Hlt p Hp)].
  specialize (Hfacts cl Hcl). rewrite List.Forall_forall in Hfacts.
  specialize (Hfacts e' He'). rewrite List.Forall_forall in Hfacts.
  apply (bf_customer _ _ _ (Hfacts p Hp)).
Qed.

(** ** Legs per bet (C9) *)

Lemma make_legs_length (bt : BetType) (bid no : Z) (evs : list Event) :
  always (make_legs bt bid no evs) (fun legs => length legs = length evs).
Proof.
  revert no. induction evs as [|ev0 evs IH]; intros no; simpl.
  - apply always_ret. reflexivity.
  - draw l.
    eapply always_bind; [apply IH|]. intros ls Hls.
    apply always_ret. simpl. now rewrite Hls.
Qed.

Lemma place_bet_legs (c : Customer) (pe : bool) (W : list Event)
    (wk_idx : Z) (acc : WeekAcc) :
  W <> [] ->
  always (place_bet c pe W wk_idx acc) (fun r => legs_rule W (fst r)).
Proof.
  intros HW. unfold place_bet.
  assert (Hlen : (0 < Z.of_nat (length W))%Z) by (destruct W; simpl; [congruence | lia]).
  draw bt.
  draw x.
  eapply always_bind; [apply always_np_integers, Hlen|]. intros i Hi.
  cbv beta in Hi.
  draw hours.
  eapply always_bind with
    (P := fun leg_events =>
            if BetType_eqb bt parlay
            then exists n, (2 <= n <= 4)%nat
                           /\ length leg_events = Nat.min n (length W)
            else leg_events
                 = List.filter
                     (fun e => (event_id e =? event_id (nth (Z.to_nat i) W null_event))%Z)
                     W).
  { destruct (BetType_eqb bt parlay).
    - eapply always_bind; [apply (always_np_integers 2 5); lia|]. intros n Hn.
      draw rs. apply always_ret.
      cbv beta in Hn. exists (Z.to_nat n). split; [lia|].
      rewrite df_sample_length by lia. lia.
    - apply always_ret. reflexivity. }
  intros leg_events Hlegs.
  draw bid.
  eapply always_bind; [apply make_legs_length|]. intros legs Hlen_legs.
  destruct (settle_bet _ _ _) as [[payout stat] avg_odds].
  do 5 (apply always_bind_any; intros ?).
  apply always_ret. unfold legs_rule. simpl.
  rewrite Hlen_legs.
  destruct bt; simpl in Hlegs; try exact Hlegs;
    (exists (nth (Z.to_nat i) W null_event); split;
     [apply nth_In; lia | now rewrite Hlegs]).
Qed.

Lemma NoDup_map_filter {A B} (f : A -> B) (g : A -> bool) (l : list A) :
  List.NoDup (map f l) -> List.NoDup (map f (List.filter g l)).
Proof.
  induction l as [|x l IH]; simpl; intros H; [constructor|].
  inversion H as [|? ? Hnot Hnd]; subst.
  destruct (g x); simpl; [constructor|]; auto.
  intros Hin. apply Hnot. apply in_map_iff in Hin as (y & Hy & Hin).
  apply filter_In in Hin as [Hin _]. apply in_map_iff. eauto.
Qed.

Lemma insert_by_perm {A} (leb : A -> A -> bool) (x : A) (l : list A) :
  Permutation (insert_by leb x l) (x :: l).
Proof.
  induction l as [|y l IH]; simpl; [reflexivity|].
  destruct (leb x y); [reflexivity|].
  rewrite IH. apply perm_swap.
Qed.

Lemma sort_by_perm {A} (leb : A -> A -> bool) (l : list A) :
  Permutation (sort_by leb l) l.
Proof.
  induction l as [|x l IH]; simpl; [reflexivity|].
  unfold sort_by in *. simpl. rewrite insert_by_perm. now constructor.
Qed.

Lemma week_events_NoDup (dim_event : list Event) (wk : WeekKey) :
  List.NoDup (map event_id dim_event) ->
  List.NoDup (map event_id (events_by_week (load_events dim_event) wk)).
Proof.
  intros H. unfold events_by_week. apply NoDup_map_filter.
  unfold load_events.
  eapply Permutation_NoDup;
    [apply Permutation_map; symmetry; apply sort_by_perm|].
  apply NoDup_map_filter, H.
Qed.

Lemma single_match {A} (f : A -> Z) (l : list A) (x : A) :
  List.NoDup (map f l) -> In x l ->
  length (List.filter (fun y => (f y =? f x)%Z) l) = 1%nat.
Proof.
  induction l as [|y l IH]; simpl; intros Hnd Hin; [contradiction|].
  inversion Hnd as [|? ? Hnot Hnd']; subst.
  destruct Hin as [-> | Hin].
  - rewrite Z.eqb_refl. simpl. f_equal.
    apply length_zero_iff_nil.
    destruct (List.filter _ l) as [|z zs] eqn:Hf; [reflexivity|].
    assert (Hz : In z (List.filter (fun y => (f y =? f x)%Z) l))
      by (rewrite Hf; left; reflexivity).
    apply filter_In in Hz as [Hz Heq]. apply Z.eqb_eq in Heq.
    exfalso. apply Hnot. rewrite <- Heq. apply in_map, Hz.
  - destruct (f y =? f x)%Z eqn:Heq; [|apply IH; assumption].
    apply Z.eqb_eq in Heq. exfalso. apply Hnot. rewrite Heq. apply in_map, Hin.
Qed.

(** C9 (amended).  When the event ids of [dim_event] are distinct, every
    bet of a run is placed in a week that has events, a bet that is not a
    parlay has exactly one leg, and a parlay has [min(n, k)] legs for some
    [n] between 2 and 4, where [k] is the number of events of the week:
    between 2 and 4 legs when the week has at least two events, one leg
    in a week with a single event. *)
Theorem legs_per_bet (dim_event : list Event)
    (customers : list Customer) (seed : Z) (churn_cfg : option ChurnConfig)
    (r0 : PyRandom) :
  List.NoDup (map event_id dim_event) ->
  Forall (fun cl =>
    Forall (fun e =>
      let W := week_events_at (load_events dim_event)
                              (week_keys_of (load_events dim_event))
                              (wl_wk_idx e) in
      Forall (fun p =>
                W <> []
                /\ match bet_type (p_bet p) with
                   | parlay =>
                       exists n, (2 <= n <= 4)%nat
                                 /\ length (p_legs p) = Nat.min n (length W)
                   | _ => length (p_legs p) = 1%nat
                   end)
             (placed_of (wl_outcome e)))
      (snd cl))
    (fst (simulate_ledger_log dim_event customers seed churn_cfg r0)).
Proof.
  intros Hnd.
  pose proof (simulate_ledger_log_every
                (fun _ W _ p => W <> [] /\ legs_rule W p)) as H.
  specialize (H ltac:(intros c pe W wk_idx acc HW;
                      eapply always_weaken; [apply place_bet_legs, HW|];
                      intros r Hr; split; assumption)).
  specialize (H dim_event customers seed churn_cfg r0).
  unfold every_bet in H.
  eapply Forall_impl; [exact H|]. intros cl Hcl.
  eapply Forall_impl; [exact Hcl|]. intros e He. simpl.
  eapply Forall_impl; [exact He|]. intros p [HW Hrule].
  split; [exact HW|]. unfold legs_rule in Hrule.
  destruct (bet_type (p_bet p)); try exact Hrule;
    destruct Hrule as (ev0 & Hin & Hlen); rewrite Hlen;
    (apply single_match; [apply week_events_NoDup, Hnd | exact Hin]).
Qed.

(** ** Reseeding *)

(** [simulate_ledger] starts by seeding both generators, so what it
    returns does not depend on the state it finds the [random] module in. *)
Lemma simulate_ledger_reseeds (dim_event : list Event) (customers : list Customer)
    (seed : Z) (churn_cfg : option ChurnConfig) (r1 r2 : PyRandom) :
  simulate_ledger dim_event customers seed churn_cfg r1
  = simulate_ledger dim_event customers seed churn_cfg r2.
Proof. reflexivity. Qed.

Lemma evaluate_cfg_reseeds (dim_event : list Event) (sample : list Customer)
    (seed : Z) (cfg : ChurnConfig) (r1 r2 : PyRandom) :
  evaluate_cfg dim_event sample seed cfg r1
  = evaluate_cfg dim_event sample seed cfg r2.
Proof. reflexivity. Qed.

Lemma search_reseeds (dim_event : list Event) (sample : list Customer)
    (seed : Z) (base_cfg : ChurnConfig) (cells : list (Q * Q * Q * Q))
    (best : Best) (r1 r2 : PyRandom) :
  fst (search dim_event sample seed base_cfg cells best r1)
  = fst (search dim_event sample seed base_cfg cells best r2).
Proof.
  destruct cells as [|cell rest]; [reflexivity|]. simpl. unfold bind.
  rewrite (evaluate_cfg_reseeds _ _ _ _ r1 r2). reflexivity.
Qed.

(** ** Calibration (C5, C6) *)

(** C6.  Two invocations of [calibrate_churn_config] on the same event
    table, population, base configuration and seed return the same best
    configuration and the same diagnostics (achieved retention and
    score), whatever state each finds the [random] module in; in
    particular when the second runs after the first. *)
Theorem calibration_is_deterministic (dim_event : list Event)
    (customers : list Customer) (base_cfg : ChurnConfig) (seed : Z)
    (r1 r2 : PyRandom) :
  fst (calibrate_churn_config dim_event customers base_cfg seed r1)
  = fst (calibrate_churn_config dim_event customers base_cfg seed r2)
  /\ fst (calibrate_churn_config dim_event customers base_cfg seed
            (snd (calibrate_churn_config dim_event customers base_cfg seed r1)))
     = fst (calibrate_churn_config dim_event customers base_cfg seed r1).
Proof.
  assert (H : forall r r',
    fst (calibrate_churn_config dim_event customers base_cfg seed r)
    = fst (calibrate_churn_config dim_event customers base_cfg seed r')).
  { intros r r'. unfold calibrate_churn_config, bind.
    match goal with
    | |- context [search ?d ?sm ?sd ?b ?g ?bst r] =>
        pose proof (search_reseeds d sm sd b g bst r r') as Hs;
        destruct (search d sm sd b g bst r) as [[[sc cf] rt] s1];
        destruct (search d sm sd b g bst r') as [[[sc' cf'] rt'] s2]
    end.
    simpl in Hs. inversion Hs. reflexivity. }
  split; apply H.
Qed.

Lemma score_lt_Fin (q b : Q) : score_lt q (Fin b) = true <-> q < b.
Proof. apply Qltb_true. Qed.

Lemma score_lt_trans (q q' : Q) (best : Score) :
  q < q' -> score_lt q' best = true -> score_lt q best = true.
Proof.
  destruct best as [|b]; [reflexivity|]. rewrite !score_lt_Fin. lra.
Qed.

Lemma score_not_lt (q q' : Q) (best : Score) :
  score_lt q best = false -> score_lt q' best = true -> q' < q.
Proof.
  destruct best as [|b]; [discriminate|]. simpl.
  rewrite Qltb_false, Qltb_true. lra.
Qed.

(** One iteration of the loop over the grid. *)
Lemma search_cons (dim_event : list Event) (sample : list Customer)
    (seed : Z) (base_cfg : ChurnConfig) (cell : Q * Q * Q * Q)
    (rest : list (Q * Q * Q * Q)) (best : Best) (r : PyRandom) :
  fst (search dim_event sample seed base_cfg (cell :: rest) best r)
  = fst (search dim_event sample seed base_cfg rest
           (if score_lt (cell_score dim_event sample seed base_cfg cell)
                        (fst (fst best))
            then cell_best dim_event sample seed base_cfg cell else best)
           (snd (evaluate_cfg dim_event sample seed
                   (candidate_cfg base_cfg cell) (random_seed seed)))).
Proof.
  cbn [search]. unfold bind at 1.
  rewrite (evaluate_cfg_reseeds _ _ _ _ r (random_seed seed)).
  unfold cell_best, cell_score, cell_retention.
  destruct (evaluate_cfg dim_event sample seed (candidate_cfg base_cfg cell)
                         (random_seed seed)) as [rt s1].
  reflexivity.
Qed.

Lemma search_pick_best (dim_event : list Event) (sample : list Customer)
    (seed : Z) (base_cfg : ChurnConfig) (cells : list (Q * Q * Q * Q))
    (best : Best) (r : PyRandom) :
  fst (search dim_event sample seed base_cfg cells best r)
  = pick_best (cell_score dim_event sample seed base_cfg)
              (cell_best dim_event sample seed base_cfg) cells best.
Proof.
  revert best r. induction cells as [|cell rest IH]; intros best r.
  - reflexivity.
  - rewrite search_cons, IH. reflexivity.
Qed.

End Properties.

(** [pick_best] keeps [best] if no cell scores below it, and otherwise
    what [mk] makes of the first cell of minimum score. *)
Section FirstMinimum.
Context {C : Type}.
Variable sc : C -> Q.
Variable mk : C -> Best.
Hypothesis mk_score : forall c, fst (fst (mk c)) = Fin (sc c).

Lemma pick_best_result (cells : list C) (best : Best) :
  (pick_best sc mk cells best = best
   /\ Forall (fun c => score_lt (sc c) (fst (fst best)) = false) cells)
  \/ (exists pre cell post,
        cells = pre ++ cell :: post
        /\ pick_best sc mk cells best = mk cell
        /\ score_lt (sc cell) (fst (fst best)) = true
        /\ Forall (fun c => sc cell < sc c) pre
        /\ Forall (fun c => sc cell <= sc c) post).
Proof.
  revert best. induction cells as [|cell rest IH]; intros best.
  - left. split; [reflexivity | constructor].
  - cbn [pick_best].
    destruct (score_lt (sc cell) (fst (fst best))) eqn:Hlt.
    + destruct (IH (mk cell))
        as [[Hres Hall] | (pre & c' & post & Hcells & Hres & Hlt' & Hpre & Hpost)].
      * right. exists [], cell, rest.
        split; [reflexivity|]. split; [exact Hres|]. split; [exact Hlt|].
        split; [constructor|].
        eapply Forall_impl; [exact Hall|]. intros c Hc.
        rewrite mk_score in Hc. apply Qltb_false in Hc. exact Hc.
      * right. exists (cell :: pre), c', post.
        rewrite mk_score in Hlt'. apply score_lt_Fin in Hlt'.
        split; [cbn [app]; now rewrite Hcells|]. split; [exact Hres|].
        split; [eapply score_lt_trans; eassumption|].
        split; [constructor; assumption | exact Hpost].
    + destruct (IH best)
        as [[Hres Hall] | (pre & c' & post & Hcells & Hres & Hlt' & Hpre & Hpost)].
      * left. split; [exact Hres | constructor; assumption].
      * right. exists (cell :: pre), c', post.
        split; [cbn [app]; now rewrite Hcells|]. split; [exact Hres|].
        split; [exact Hlt'|].
        split; [|exact Hpost].
        constructor; [|exact Hpre]. eapply score_not_lt; eassumption.
Qed.

End FirstMinimum.

Section Harness.
Context {RT : Runtime}.

(** C5 (amended).  [calibrate_churn_config] always returns, and what it
    returns is a candidate of the grid, never the base configuration as
    such: the configuration of the first grid cell whose score is the
    minimum over the 16 cells, with the retention it achieved and that
    score.  The base configuration is not scored; the initial best score
    is infinite, so the first cell already replaces it. *)
Theorem calibration_returns_first_best_cell (dim_event : list Event)
    (customers : list Customer) (base_cfg : ChurnConfig) (seed : Z)
    (r0 : PyRandom) :
  let sample := df_sample customers (Nat.min 1000 (length customers)) seed in
  let sc := cell_score dim_event sample seed base_cfg in
  exists pre cell post,
    grid = pre ++ cell :: post
    /\ fst (calibrate_churn_config dim_event customers base_cfg seed r0)
       = (candidate_cfg base_cfg cell,
          {| diag_target := target;
             sample_achieved := cell_retention dim_event sample seed base_cfg cell;
             diag_score := Fin (sc cell) |})
    /\ Forall (fun c => sc cell < sc c) pre
    /\ Forall (fun c => sc cell <= sc c) post.
Proof.
  intros sample sc.
  destruct (pick_best_result sc (cell_best dim_event sample seed base_cfg)
              (fun c => eq_refl) grid (Inf, base_cfg, (∅ : Retention)))
    as [[_ Hall] | (pre & cell & post & Hgrid & Hres & _ & Hpre & Hpost)].
  - inversion Hall as [|? ? Hfalse _]. discriminate Hfalse.
  - exists pre, cell, post. split; [exact Hgrid|].
    split; [|split; assumption].
    unfold calibrate_churn_config, bind. fold sample.
    pose proof (search_pick_best dim_event sample seed base_cfg grid
                  (Inf, base_cfg, (∅ : Retention)) r0) as Hs.
    fold sc in Hs. rewrite Hres in Hs.
    destruct (search dim_event sample seed base_cfg grid
                     (Inf, base_cfg, (∅ : Retention)) r0) as [[[bs bc] br] s1].
    cbn [fst] in Hs. unfold cell_best in Hs. inversion Hs. reflexivity.
Qed.

(** ** The Monte Carlo harness (C7) *)

Lemma run_loop_rows (dim_event : list Event) (churn_cfg : ChurnConfig)
    (n_customers customer_seed0 ledger_seed0 : Z) (idxs : list Z) (r0 : PyRandom) :
  fst (run_loop dim_event churn_cfg n_customers customer_seed0 ledger_seed0 idxs r0)
  = flat_map (rows_of_run dim_event churn_cfg n_customers customer_seed0 ledger_seed0)
             idxs.
Proof.
  revert r0. induction idxs as [|i rest IH]; intros r0; [reflexivity|].
  simpl. unfold bind.
  rewrite (simulate_ledger_reseeds _ _ _ _ r0 (random_seed (ledger_seed0 + i))).
  unfold rows_of_run at 1.
  destruct (simulate_ledger dim_event _ (ledger_seed0 + i)%Z (Some churn_cfg)
                            (random_seed (ledger_seed0 + i)))
    as [[[bets legs] costs] s1].
  simpl. specialize (IH s1).
  destruct (run_loop dim_event churn_cfg n_customers customer_seed0 ledger_seed0
                     rest s1) as [rows s2].
  simpl in *. now rewrite IH.
Qed.

Lemma rows_of_run_seeds (dim_event : list Event) (churn_cfg : ChurnConfig)
    (n_customers customer_seed0 ledger_seed0 : Z) (i : Z) :
  Forall (fun row => run_id row = (i + 1)%Z
                     /\ row_customer_seed row = (customer_seed0 + i)%Z
                     /\ row_ledger_seed row = (ledger_seed0 + i)%Z)
         (rows_of_run dim_event churn_cfg n_customers customer_seed0 ledger_seed0 i).
Proof.
  unfold rows_of_run.
  destruct (fst (simulate_ledger _ _ _ _ _)) as [[bets legs] costs].
  destruct bets, costs; repeat constructor.
Qed.

(** C7 (amended).  The harness performs the runs [i = 0 .. R-1]; run [i]
    regenerates the population with seed [base_customer_seed + i] and
    simulates the ledger with seed [base_ledger_seed + i], and appends one
    row, numbered [run_id = i + 1], unless its bet or cost ledger is
    empty, in which case it appends none.  So the row numbered [k] carries
    the seeds [base + (k - 1)]. *)
Theorem harness_runs_and_seeds (dim_event : list Event) (churn_cfg : ChurnConfig)
    (runs n_customers customer_seed0 ledger_seed0 : Z) (r0 : PyRandom) :
  let rows := fst (monte_carlo_runs dim_event churn_cfg runs n_customers
                                    customer_seed0 ledger_seed0 r0) in
  rows = flat_map (rows_of_run dim_event churn_cfg n_customers
                               customer_seed0 ledger_seed0)
                  (py_range 0 runs)
  /\ Forall (fun row => (1 <= run_id row <= runs)%Z
                        /\ row_customer_seed row
                           = (customer_seed0 + (run_id row - 1))%Z
                        /\ row_ledger_seed row
                           = (ledger_seed0 + (run_id row - 1))%Z)
            rows.
Proof.
  intros rows. subst rows. unfold monte_carlo_runs. rewrite run_loop_rows.
  split; [reflexivity|].
  apply List.Forall_forall. intros row Hrow.
  apply in_flat_map in Hrow as (i & Hi & Hrow).
  pose proof (rows_of_run_seeds dim_event churn_cfg n_customers
                customer_seed0 ledger_seed0 i) as Hseeds.
  rewrite List.Forall_forall in Hseeds.
  destruct (Hseeds row Hrow) as (Hid & Hc & Hl).
  unfold py_range in Hi. apply in_map_iff in Hi as (k & Hk & Hin).
  apply in_seq in Hin. rewrite Hid, Hc, Hl.
  repeat split; try (f_equal; lia); lia.
Qed.

End Harness.

(** * Further properties of the code *)

(** ** Legs *)

Lemma np_clip_int_bounds (x lo hi : Z) :
  (lo <= hi)%Z -> (lo <= np_clip_int x lo hi <= hi)%Z.
Proof. unfold np_clip_int. lia. Qed.

Lemma sign_settle_flip (d : Q) :
  (if Qltb d 0 then win else if Qltb 0 d then lose else push)
  = sign_settle (- d).
Proof.
  unfold sign_settle.
  case_Qltb d 0; case_Qltb 0 (- d); try case_Qltb 0 d; try case_Qltb (- d) 0;
    try reflexivity; exfalso; lra.
Qed.

Lemma sign_settle_eq (x y : Q) : x == y -> sign_settle x = sign_settle y.
Proof.
  intros Hxy. unfold sign_settle.
  case_Qltb 0 x; case_Qltb 0 y; try case_Qltb x 0; try case_Qltb y 0;
    try reflexivity; exfalso; lra.
Qed.

Section Legs.
Context {RT : Runtime}.

Lemma side_draw_home_or_away (sl u t : Q) :
  let favorite_side := if Qltb sl 0 then sel_home else sel_away in
  let sel := if Qltb u t then favorite_side else other_side favorite_side in
  sel = sel_home \/ sel = sel_away.
Proof. cbv zeta. destruct (Qltb sl 0), (Qltb u t); simpl; auto. Qed.

Lemma make_leg_facts (bt : BetType) (bid no : Z) (ev : Event) :
  always (make_leg bt bid no ev) (leg_facts bt bid ev).
Proof.
  unfold make_leg.
  apply always_bind with (P := fun mt => bt <> parlay -> mt = bt).
  { destruct (BetType_eqb bt parlay) eqn:Hbt; simpl.
    - intros s Hne. destruct bt; simpl in Hbt; congruence.
    - apply always_ret. reflexivity. }
  intros mt Hmt.
  apply always_bind with (P := line_or_default (total_line ev) 31 59).
  { destruct (total_line ev); [apply always_ret; reflexivity|].
    draw z. apply always_ret. simpl. apply np_clip_bounds. lra. }
  intros tl Htl.
  apply always_bind with (P := line_or_default (spread_line ev) (-14) 14).
  { destruct (spread_line ev); [apply always_ret; reflexivity|].
    draw z. apply always_ret. simpl. apply np_clip_bounds. lra. }
  intros sl Hsl.
  apply always_bind with
    (P := fun r => leg_core mt ev (fst (fst (fst r))) (snd (fst (fst r)))
                            (snd (fst r)) (snd r)).
  { destruct mt.
    - (* moneyline *)
      draw u. draw z. draw z2. apply always_ret. cbn [fst snd]. split.
      + simpl. destruct (Selection_eqb _ _).
        * left. apply np_clip_int_bounds. lia.
        * right. apply np_clip_int_bounds. lia.
      + split; [apply side_draw_home_or_away|]. split; [reflexivity|].
        destruct (Selection_is_home _), (0 <? home_margin ev)%Z; reflexivity.
    - (* spread *)
      draw u. draw z. draw z2. apply always_ret. cbn [fst snd]. split.
      + simpl. apply np_clip_int_bounds. lia.
      + split; [apply side_draw_home_or_away|].
        exists sl. eexists. split; [exact Hsl|]. split; [reflexivity|].
        pose proof (np_clip_bounds z (-1.5) 1.5 ltac:(lra)) as Hb.
        destruct (Selection_is_home _); (split; [lra | reflexivity]).
    - (* total *)
      draw u. draw z. draw z2. apply always_ret. cbn [fst snd]. split.
      + simpl. apply np_clip_int_bounds. lia.
      + split; [destruct (Qltb u 0.56); auto|].
        exists tl. eexists. split; [exact Htl|]. split; [reflexivity|].
        split.
        * pose proof (np_clip_bounds z (-1.8) 1.8 ltac:(lra)) as Hb. lra.
        * destruct (Qltb u 0.56); [reflexivity|].
          rewrite sign_settle_flip. apply sign_settle_eq. lra.
    - (* a market outside the three: the moneyline branch *)
      draw u. draw z. draw z2. apply always_ret. cbn [fst snd]. split.
      + simpl. destruct (Selection_eqb _ _).
        * left. apply np_clip_int_bounds. lia.
        * right. apply np_clip_int_bounds. lia.
      + split; [apply side_draw_home_or_away|]. split; [reflexivity|].
        destruct (Selection_is_home _), (0 <? home_margin ev)%Z; reflexivity. }
  intros [[[sel line] odds] settled] Hcore. cbn [fst snd] in Hcore.
  draw lid. apply always_ret.
  constructor; cbn; auto.
Qed.

End Legs.

Section Legs2.
Context {RT : Runtime}.

Lemma make_legs_facts (bt : BetType) (bid no : Z) (evs : list Event) :
  always (make_legs bt bid no evs)
    (fun legs => Forall2 (fun ev l => leg_facts bt bid ev l) evs legs).
Proof.
  revert no. induction evs as [|ev0 evs IH]; intros no; simpl.
  - apply always_ret. constructor.
  - eapply always_bind; [apply make_leg_facts|]. intros l Hl.
    eapply always_bind; [apply IH|]. intros ls Hls.
    apply always_ret. constructor; assumption.
Qed.

End Legs2.

(** ** One bet *)

Lemma py_min_nonneg (a b : Q) : 0 <= a -> 0 <= b -> 0 <= py_min a b.
Proof. intros Ha Hb. unfold py_min. destruct (Qltb b a); assumption. Qed.

Lemma py_min_zero (b : Q) : 0 <= b -> py_min 0.0 b = 0.0.
Proof.
  intros Hb. unfold py_min. case_Qltb b 0.0; [exfalso; lra | reflexivity].
Qed.

Lemma promo_cap_pos (wa : Z) : 0 < promo_cap wa.
Proof. unfold promo_cap. destruct (wa <? 8)%Z, (wa <? 20)%Z; lra. Qed.

Lemma tenure_cost_mult_pos (wa : Z) : 0 < tenure_cost_mult wa.
Proof. unfold tenure_cost_mult. destruct (wa <? 8)%Z, (wa <? 20)%Z; lra. Qed.

Section OneBet.
Context {RT : Runtime}.

Lemma place_bet_more (c : Customer) (pe : bool) (W : list Event)
    (wk_idx : Z) (acc : WeekAcc) :
  W <> [] ->
  always (place_bet c pe W wk_idx acc)
    (fun r => cost_facts (fst r)
              /\ legs_facts W (fst r)
              /\ (exists trig, promo_step pe wk_idx acc (fst r) (snd r) trig)
              /\ last_bet_week_idx (acc_state (snd r)) = Some wk_idx
              /\ has_churned (acc_state (snd r)) = has_churned (acc_state acc)).
Proof.
  intros HW. unfold place_bet.
  assert (Hlen : (0 < Z.of_nat (length W))%Z)
    by (destruct W; simpl; [congruence | lia]).
  draw bt.
  draw x.
  eapply always_bind; [apply always_np_integers, Hlen|]. intros i Hi.
  cbv beta in Hi.
  draw hours.
  apply always_bind with (P := fun leg_events => Forall (drawn_from W bt) leg_events).
  { unfold drawn_from. destruct (BetType_eqb bt parlay).
    - draw n. draw rs. apply always_ret.
      apply List.Forall_forall. intros ev Hev. eauto.
    - apply always_ret. apply List.Forall_forall. intros ev Hev.
      apply filter_In in Hev. apply Hev. }
  intros leg_events Hevs.
  apply always_bind with (P := fun bid => True); [intros s; exact I|].
  intros bid _.
  eapply always_bind; [apply make_legs_facts|]. intros legs Hlegs.
  destruct (settle_bet _ _ _) as [[payout stat] avg_odds] eqn:Hsettle.
  set (stake := np_clip x 5 2000) in *.
  set (st := acc_state acc) in *.
  set (wa := weeks_active st) in *.
  assert (Hstake : 5 <= stake <= 2000) by (apply np_clip_bounds; lra).
  pose proof (promo_cap_pos wa) as Hcap.
  pose proof (tenure_cost_mult_pos wa) as Hmult.
  apply always_bind with
    (P := fun t0 => t0 = true -> pe = true /\ promo_given_this_week acc = false).
  { destruct (pe && negb (promo_given_this_week acc)) eqn:Hpe.
    - draw u. apply always_ret. intros _.
      apply andb_true_iff in Hpe as [-> Hg]. apply negb_true_iff in Hg. auto.
    - apply always_ret. discriminate. }
  intros trigger0 Ht0.
  apply always_bind with
    (P := fun t => t = true -> pe = true /\ promo_given_this_week acc = false).
  { destruct (trigger0 && is_promo_hunter (segment c) && (10 <=? wa)%Z) eqn:Hh.
    - draw u. apply always_ret. intros _. apply Ht0.
      apply andb_true_iff in Hh as [Hh _]. apply andb_true_iff in Hh as [Hh _].
      exact Hh.
    - apply always_ret. exact Ht0. }
  intros trigger Ht.
  apply always_bind with
    (P := fun cost0 => 0 <= cost0 /\ (trigger = false -> cost0 = 0.0)).
  { destruct trigger.
    - draw u. apply always_ret. split; [|discriminate].
      pose proof (np_clip_bounds
                    (u * promo_sensitivity c
                     * dict_get promo_cost_scale (segment c) 1.0) 0.0 0.20
                    ltac:(lra)) as [Hlo _].
      apply Qmult_le_0_compat; [apply Qmult_le_0_compat|]; lra.
    - apply always_ret. split; [lra | reflexivity]. }
  intros cost0 [Hc0 Hc0z].
  assert (Hcapx : 0 <= stake * promo_cap wa)
    by (apply Qmult_le_0_compat; lra).
  assert (H06 : 0 <= stake * 0.06) by lra.
  apply always_bind with
    (P := fun st1 =>
            last_bet_week_idx st1 = last_bet_week_idx st
            /\ has_churned st1 = has_churned st
            /\ weeks_active st1 = wa
            /\ negative_net_streak st1 = negative_net_streak st
            /\ if trigger
               then last_promo_week_idx st1 = Some wk_idx
                    /\ promo_week_history st1 = promo_week_history st ++ [wk_idx]
                    /\ exists k, (3 <= k <= 10)%Z
                         /\ promo_effect_weeks_remaining st1
                            = Z.max (promo_effect_weeks_remaining st) k
               else promo_vars st1 = promo_vars st).
  { destruct trigger.
    - apply always_bind with (P := fun k => (3 <= k <= 10)%Z).
      { destruct (negb (is_promo_hunter (segment c))).
        - eapply always_weaken; [apply (always_np_integers 5 11); lia|].
          cbv beta. intros k Hk. lia.
        - eapply always_weaken; [apply (always_np_integers 3 6); lia|].
          cbv beta. intros k Hk. lia. }
      intros k Hk. apply always_ret. cbn.
      repeat split; eauto.
    - apply always_ret. repeat split; reflexivity. }
  intros st1 (Hlb & Hch & Hwa & Hstr & Hpromo).
  draw u. destruct u.
  apply always_ret. cbn [fst snd].
  split; [|split; [|split; [|split]]].
  - constructor; cbn; try reflexivity.
    destruct (trigger && is_promo_hunter (segment c));
      repeat apply py_min_nonneg; assumption.
  - unfold legs_facts. cbn.
    clear - Hlegs Hevs.
    induction Hlegs as [|ev l evs ls Hl _ IH]; [constructor|].
    inversion Hevs; subst. constructor; [|apply IH; assumption].
    exists ev. split; assumption.
  - exists trigger. unfold promo_step. cbn.
    split; [reflexivity|].
    destruct trigger.
    + destruct (Ht eq_refl) as [Hpe Hg]. destruct Hpromo as (H1 & H2 & H3).
      repeat split; assumption.
    + split.
      * rewrite (Hc0z eq_refl). cbn. apply py_min_zero. exact Hcapx.
      * unfold promo_vars in *. cbn. exact Hpromo.
  - reflexivity.
  - cbn. exact Hch.
Qed.

End OneBet.

(** ** The bets of one week *)

Section WeekBets.
Context {RT : Runtime}.

Lemma place_bets_step (c : Customer) (pe : bool) (W : list Event)
    (wk_idx : Z) (n : nat) (acc : WeekAcc) :
  W <> [] ->
  always (place_bets c pe W wk_idx n acc)
         (fun r => week_bets_step wk_idx acc (fst r) (snd r)).
Proof.
  intros HW. revert acc. induction n as [|n IH]; intros acc; simpl.
  - apply always_ret. unfold week_bets_step, count_promos. cbn.
    repeat split; try reflexivity; try lia; try congruence.
  - eapply always_bind; [apply (place_bet_more c pe W wk_idx acc HW)|].
    intros [p acc1] (_ & _ & [trig Hpromo] & Hlast & Hch). cbn [fst snd] in *.
    eapply always_bind; [apply IH|].
    intros [ps acc2] (Hcount & Heff & Hch2 & Hlast2 & Hnil & Hkeep).
    cbn [fst snd] in *.
    apply always_ret. cbn [fst snd].
    destruct Hpromo as [Hgiven Htrig].
    unfold week_bets_step.
    assert (Hlast' : last_bet_week_idx (acc_state acc2) = Some wk_idx).
    { destruct ps as [|p' ps']; [|apply Hlast2; discriminate].
      rewrite (Hnil eq_refl). exact Hlast. }
    split; [|split; [|split; [|split; [|split]]]].
    + unfold count_promos in *. cbn [List.filter].
      destruct trig.
      * destruct Htrig as (_ & Hg & _). rewrite Hg in *. cbn in Hgiven.
        rewrite Hgiven in Hcount.
        destruct (Qltb 0 (promo_cost (p_cost p))); cbn [length]; lia.
      * destruct Htrig as [Hzero _]. rewrite Hzero.
        cbn. rewrite orb_false_r in Hgiven. rewrite Hgiven in Hcount.
        exact Hcount.
    + destruct trig.
      * destruct Htrig as (_ & _ & _ & _ & k & Hk & Hmax). lia.
      * destruct Htrig as [_ Hvars]. unfold promo_vars in Hvars.
        inversion Hvars as [[H1 H2 H3]]. lia.
    + congruence.
    + intros _. exact Hlast'.
    + discriminate.
    + intros Hg. destruct trig.
      * destruct Htrig as (_ & Hg' & _). congruence.
      * destruct Htrig as [_ Hvars]. rewrite Hg in Hgiven. cbn in Hgiven.
        rewrite (Hkeep Hgiven). exact Hvars.
Qed.

Lemma place_bets_promo (c : Customer) (pe : bool) (W : list Event)
    (wk_idx : Z) (n : nat) (acc : WeekAcc) :
  W <> [] ->
  always (place_bets c pe W wk_idx n acc)
         (fun r => week_promo_step wk_idx acc (fst r) (snd r)).
Proof.
  intros HW. revert acc. induction n as [|n IH]; intros acc; cbn [place_bets].
  - apply always_ret. left. split; reflexivity.
  - eapply always_bind; [apply (place_bet_more c pe W wk_idx acc HW)|].
    intros [p acc1] (_ & _ & [trig Hpromo] & _ & _). cbn [fst snd] in *.
    eapply always_bind.
    { apply always_and; [apply IH | apply (place_bets_step c pe W wk_idx n acc1 HW)]. }
    intros [ps acc2] [Hrest (_ & _ & _ & _ & _ & Hkeep)].
    cbn [fst snd] in *. apply always_ret. cbn [fst snd].
    destruct Hpromo as [Hgiven Htrig]. unfold week_promo_step in *.
    destruct trig.
    + destruct Htrig as (_ & Hg & Hlast & Hhist & k & Hk & Heff).
      rewrite Hg in Hgiven. cbn in Hgiven.
      specialize (Hkeep Hgiven). unfold promo_vars in Hkeep.
      inversion Hkeep as [[E1 E2 E3]].
      right. split; [exact Hg|]. split; [congruence|]. split; [congruence|].
      exists k. split; [exact Hk | congruence].
    + destruct Htrig as [Hzero Hvars]. rewrite orb_false_r in Hgiven.
      unfold promo_vars in Hvars. inversion Hvars as [[E1 E2 E3]].
      destruct Hrest as [[Hcount Hsame] | (Hg & Hlast & Hhist & k & Hk & Heff)].
      * left. split.
        -- unfold count_promos in *. cbn [List.filter]. rewrite Hzero. exact Hcount.
        -- rewrite Hsame. exact Hvars.
      * right. split; [congruence|]. split; [exact Hlast|].
        split; [congruence|]. exists k. split; [exact Hk | congruence].
Qed.

End WeekBets.

(** ** One week of one customer *)

Section OneWeek.
Context {RT : Runtime}.

Lemma active_week_facts (c : Customer) (pe : bool) (events : list Event)
    (week_keys : list WeekKey) (wk_idx : Z) (st : CustomerRunState) :
  state_ok st ->
  always (active_week c pe events week_keys wk_idx st)
    (fun r => week_facts (week_events_at events week_keys wk_idx) wk_idx st
                         (fst r) (snd r)
              /\ state_ok (snd r) /\ fst r <> WkChurned).
Proof.
  intros (Hwa & Hstreak & Heff).
  unfold active_week. fold (week_events_at events week_keys wk_idx).
  destruct (week_events_at events week_keys wk_idx) as [|e0 W] eqn:HW.
  - apply always_ret. cbn [fst snd]. split; [|split].
    + constructor; cbn; try discriminate; try tauto.
      left. repeat split; reflexivity.
    + unfold state_ok. cbn. lia.
    + discriminate.
  - apply always_bind with
      (P := fun n => weeks_active st = 0%Z -> (1 <= n)%Z).
    { destruct (weeks_active st =? 0)%Z eqn:Hz.
      - draw n. apply always_ret. lia.
      - intros s Hz'. apply Z.eqb_neq in Hz. contradiction. }
    intros n Hn.
    destruct (n <=? 0)%Z eqn:Hle.
    + apply always_ret. cbn [fst snd]. apply Z.leb_le in Hle.
      split; [|split].
      * constructor; cbn; try discriminate; try tauto.
        -- intros Hwa0 _. specialize (Hn Hwa0). lia.
        -- left. repeat split; reflexivity.
      * unfold state_ok. cbn.
        destruct (gap_at_least _ _ _); lia.
      * discriminate.
    + apply Z.leb_gt in Hle.
      eapply always_bind.
      { apply always_and;
          [apply (place_bets_step c pe (e0 :: W) wk_idx); discriminate
          |apply always_and;
             [apply place_bets_acc
             |apply always_and;
                [apply place_bets_nonempty; lia
                |apply (place_bets_promo c pe (e0 :: W) wk_idx); discriminate]]]. }
      intros [ps acc] [(Hcount & Heff' & Hch & Hlast & _ & _)
                         [(Hwa' & Hst' & _) [Hne Hpromo]]].
      cbn [fst snd acc_state promo_given_this_week] in *.
      apply always_ret. cbn [fst snd]. split; [|split].
      * constructor; cbn; try discriminate.
        -- intros _. split; [lia | exact Hch].
        -- intros _ _. eauto.
        -- intros net ps' Heq. inversion Heq; subst.
           split; [exact Hne|]. split; [exact Hcount | apply Hlast, Hne].
        -- intros Hnil. contradiction.
        -- unfold promo_week. cbn.
           destruct Hpromo as [[Hzero Hvars] | (_ & H1 & H2 & k & Hk & H3)].
           ++ left. unfold promo_vars in Hvars. cbn in Hvars.
              inversion Hvars as [[E1 E2 E3]]. auto.
           ++ right. cbn in H1, H2, H3. rewrite H3.
              split; [exact H1|]. split; [exact H2 | lia].
      * unfold state_ok. cbn.
        destruct (Qltb (week_net_profit acc) 0); lia.
      * discriminate.
Qed.

Lemma simulate_week_facts (cfg : ChurnConfig) (c : Customer) (pe : bool)
    (events : list Event) (week_keys : list WeekKey)
    (wk_idx : Z) (st : CustomerRunState) :
  state_ok st ->
  always (simulate_week cfg c pe events week_keys wk_idx st)
    (fun r => week_facts (week_events_at events week_keys wk_idx) wk_idx st
                         (fst r) (snd r)
              /\ state_ok (snd r)).
Proof.
  intros Hok.
  assert (Hactive :
    always (active_week c pe events week_keys wk_idx st)
      (fun r => week_facts (week_events_at events week_keys wk_idx) wk_idx st
                           (fst r) (snd r)
                /\ state_ok (snd r))).
  { eapply always_weaken; [apply active_week_facts, Hok|].
    intros r (H1 & H2 & _). split; assumption. }
  unfold simulate_week. destruct (0 <? weeks_active st)%Z eqn:Hpos;
    [|exact Hactive].
  draw u. destruct (Qltb u _); [|exact Hactive].
  apply always_ret. cbn [fst snd]. apply Z.ltb_lt in Hpos. split.
  - constructor; cbn; try discriminate; try tauto.
    + intros Hz. lia.
    + left. repeat split; reflexivity.
  - destruct Hok as (H1 & H2 & H3). unfold state_ok. cbn. auto.
Qed.

End OneWeek.

(** ** The calendar (simulate_ledger, lines 402-428) *)

Lemma drop_duplicates_In (k : WeekKey) (l : list WeekKey) :
  In k (drop_duplicates l) -> In k l.
Proof.
  induction l as [|k0 l IH]; simpl; [auto|].
  intros [-> | Hin]; [left; reflexivity|].
  right. apply IH. apply filter_In in Hin. apply Hin.
Qed.

Lemma key_eqb_refl (k : WeekKey) : key_eqb k k = true.
Proof. unfold key_eqb. rewrite !Z.eqb_refl. reflexivity. Qed.

(** Every key of [week_keys] is the key of an event. *)
Lemma week_key_has_events (events : list Event) (k : WeekKey) :
  In k (week_keys_of events) -> events_by_week events k <> [].
Proof.
  unfold week_keys_of. intros Hin.
  apply (Permutation_in _ (sort_by_perm _ _)) in Hin.
  apply drop_duplicates_In in Hin.
  apply in_map_iff in Hin as (ev0 & Hkey & Hev).
  unfold events_by_week. intros Hnil.
  assert (Hf : In ev0 (List.filter (fun ev => key_eqb (key_of ev) k) events)).
  { apply filter_In. split; [exact Hev|]. rewrite Hkey. apply key_eqb_refl. }
  rewrite Hnil in Hf. contradiction.
Qed.

Lemma week_events_at_nonempty (events : list Event) (wk_idx : Z) :
  (0 <= wk_idx < Z.of_nat (length (week_keys_of events)))%Z ->
  week_events_at events (week_keys_of events) wk_idx <> [].
Proof.
  intros Hidx. unfold week_events_at. apply week_key_has_events.
  apply nth_In. lia.
Qed.

Lemma py_range_In (lo hi i : Z) : In i (py_range lo hi) -> (lo <= i < hi)%Z.
Proof.
  unfold py_range. intros Hin. apply in_map_iff in Hin as (k & <- & Hk).
  apply in_seq in Hk. lia.
Qed.

Lemma py_range_cons (lo hi : Z) :
  (lo < hi)%Z -> py_range lo hi = lo :: py_range (lo + 1) hi.
Proof.
  intros Hlt. unfold py_range.
  replace (Z.to_nat (hi - lo)) with (S (Z.to_nat (hi - (lo + 1)))) by lia.
  cbn [seq map]. f_equal; [lia|].
  rewrite <- seq_shift, map_map. apply map_ext. intros k. lia.
Qed.

(** ** The log of a customer *)

Lemma initial_state_ok : state_ok initial_state.
Proof. unfold state_ok. cbn. lia. Qed.

Section Runs.
Context {RT : Runtime}.

Lemma week_loop_run (cfg : ChurnConfig) (c : Customer) (pe : bool)
    (events : list Event) (week_keys : list WeekKey)
    (wks : list Z) (st : CustomerRunState) :
  state_ok st ->
  always (week_loop cfg c pe events week_keys wks st)
         (run_facts events week_keys wks st).
Proof.
  revert st. induction wks as [|wk rest IH]; intros st Hok; simpl.
  - apply always_ret. unfold run_facts. cbn.
    repeat split; [constructor | exists []; reflexivity | congruence].
  - destruct (has_churned st) eqn:Hch.
    + apply always_ret. unfold run_facts. cbn.
      repeat split; [constructor | exists (wk :: rest); reflexivity | congruence].
    + eapply always_bind; [apply simulate_week_facts, Hok|].
      intros [out st'] [Hfacts Hok']. cbn [fst snd] in *.
      eapply always_bind; [apply IH, Hok'|].
      intros logs (Hchain & Hall & [tail Htail] & _).
      apply always_ret. unfold run_facts. cbn.
      repeat split; try assumption.
      * constructor; [|exact Hall]. unfold entry_facts. cbn. auto.
      * exists tail. now rewrite Htail.
      * discriminate.
Qed.

Lemma simulate_customer_run (cfg : ChurnConfig) (events : list Event)
    (week_keys : list WeekKey) (c : Customer) :
  always (simulate_customer cfg events week_keys c)
         (customer_run events week_keys).
Proof.
  unfold simulate_customer, customer_run. destruct week_keys as [|k ks].
  - apply always_ret. reflexivity.
  - set (n := Z.of_nat (length (k :: ks))).
    assert (Hn : (1 <= n)%Z) by (subst n; cbn [length]; lia).
    eapply always_bind; [apply (always_np_integers 0 (Z.max 1 (n - 24))); lia|].
    intros start Hstart. cbv beta in Hstart.
    draw u.
    eapply always_weaken; [apply week_loop_run, initial_state_ok|].
    intros log Hlog. exists start. split; [lia | exact Hlog].
Qed.

Lemma simulate_customers_run (cfg : ChurnConfig) (events : list Event)
    (week_keys : list WeekKey) (cs : list Customer) :
  always (simulate_customers cfg events week_keys cs)
    (fun logs => map fst logs = cs
                 /\ Forall (fun cl => customer_run events week_keys (snd cl)) logs).
Proof.
  induction cs as [|c rest IH]; simpl.
  - apply always_ret. split; [reflexivity | constructor].
  - eapply always_bind; [apply simulate_customer_run|]. intros log Hlog.
    eapply always_bind; [apply IH|]. intros logs [Hmap Hall].
    apply always_ret. cbn. split; [now rewrite Hmap | constructor; assumption].
Qed.

Lemma simulate_ledger_log_run (dim_event : list Event)
    (customers : list Customer) (seed : Z) (churn_cfg : option ChurnConfig) :
  always (simulate_ledger_log dim_event customers seed churn_cfg)
    (fun logs =>
       map fst logs = customers
       /\ Forall (fun cl => customer_run (load_events dim_event)
                                         (week_keys_of (load_events dim_event))
                                         (snd cl)) logs).
Proof.
  intros r0. unfold simulate_ledger_log, bind, seed_random.
  match goal with
  | |- context [simulate_customers ?cfg ?evs ?wks ?cs ?s] =>
      pose proof (simulate_customers_run cfg evs wks cs s) as H;
      destruct (simulate_customers cfg evs wks cs s) as [logs s']
  end.
  exact H.
Qed.

End Runs.

(** ** The rows and the weeks of a run *)

Lemma leg_core_result (ev : Event) (l : LegRow) :
  leg_core (market_type l) ev (selection l) (line_value l)
           (american_odds l) (settled_result l) ->
  settled_result l = leg_result ev l.
Proof.
  unfold leg_core, leg_result. intros [_ H].
  destruct (market_type l).
  - destruct H as (_ & _ & ->). reflexivity.
  - destruct H as (_ & sl & v & _ & -> & _ & ->). reflexivity.
  - destruct H as (Hsel & tl & v & _ & -> & _ & ->). cbn [default].
    destruct Hsel as [-> | ->]; reflexivity.
  - destruct H as (_ & _ & ->). reflexivity.
Qed.

Lemma leg_core_line (ev : Event) (l : LegRow) :
  leg_core (market_type l) ev (selection l) (line_value l)
           (american_odds l) (settled_result l) ->
  line_near ev l.
Proof.
  unfold leg_core, line_near. intros [_ H].
  destruct (market_type l).
  - apply H.
  - destruct H as (_ & sl & v & H1 & H2 & H3 & _). eauto.
  - destruct H as (_ & tl & v & H1 & H2 & H3 & _). eauto.
  - apply H.
Qed.

Lemma chained_not_after_churn (e : WeekLog) (rest : list WeekLog)
    (events : list Event) (week_keys : list WeekKey) :
  chained (wl_after e) rest ->
  Forall (entry_facts events week_keys) rest ->
  has_churned (wl_after e) = true -> rest = [].
Proof.
  intros Hch Hall Htrue. destruct rest as [|e1 rest]; [reflexivity|].
  destruct Hch as [Hb _]. inversion Hall as [|? ? (_ & Hnot & _) _]; subst.
  rewrite Hb in Hnot. congruence.
Qed.

Lemma run_positions (events : list Event) (week_keys : list WeekKey) (n : Z)
    (logs : list WeekLog) :
  forall (start : Z) (st : CustomerRunState),
    chained st logs ->
    Forall (entry_facts events week_keys) logs ->
    (exists tail, py_range start n = map wl_wk_idx logs ++ tail) ->
    forall k e, nth_error logs k = Some e ->
      wl_wk_idx e = (start + Z.of_nat k)%Z
      /\ (wl_wk_idx e < n)%Z
      /\ weeks_active (wl_before e) = (weeks_active st + Z.of_nat k)%Z.
Proof.
  induction logs as [|e0 rest IH]; intros start st Hch Hall [tail Htail] k e Hk.
  - destruct k; discriminate.
  - destruct Hch as [Hb Hch].
    inversion Hall as [|? ? He0 Hrest]; subst.
    assert (Hlt : (start < n)%Z).
    { destruct (Z_lt_ge_dec start n) as [|Hge]; [assumption|].
      unfold py_range in Htail.
      replace (Z.to_nat (n - start)) with 0%nat in Htail by lia.
      discriminate. }
    rewrite (py_range_cons _ _ Hlt) in Htail. cbn [map app] in Htail.
    injection Htail as Hidx Htail.
    destruct k as [|k].
    + injection Hk as <-. repeat split; lia.
    + cbn [nth_error] in Hk.
      destruct He0 as (_ & _ & Hweek & _).
      destruct (wl_outcome e0) eqn:Hout.
      * destruct (wf_churn _ _ _ _ _ Hweek eq_refl) as [_ Hst'].
        assert (Hnil : rest = []).
        { eapply chained_not_after_churn; eauto. rewrite Hst'. reflexivity. }
        subst rest. destruct k; discriminate.
      * destruct (wf_tenure _ _ _ _ _ Hweek) as [Hwa _]; [discriminate|].
        destruct (IH (start + 1)%Z (wl_after e0) Hch Hrest
                     (ex_intro _ tail Htail) k e Hk) as (H1 & H2 & H3).
        repeat split; lia.
      * destruct (wf_tenure _ _ _ _ _ Hweek) as [Hwa _]; [discriminate|].
        destruct (IH (start + 1)%Z (wl_after e0) Hch Hrest
                     (ex_intro _ tail Htail) k e Hk) as (H1 & H2 & H3).
        repeat split; lia.
      * destruct (wf_tenure _ _ _ _ _ Hweek) as [Hwa _]; [discriminate|].
        destruct (IH (start + 1)%Z (wl_after e0) Hch Hrest
                     (ex_intro _ tail Htail) k e Hk) as (H1 & H2 & H3).
        repeat split; lia.
Qed.

Lemma customer_run_log_facts (events : list Event) (week_keys : list WeekKey)
    (log : list WeekLog) :
  customer_run events week_keys log -> log_facts events week_keys log.
Proof.
  unfold customer_run, log_facts. destruct week_keys as [|k0 ks].
  - intros ->. exists 0%Z. split; [lia|]. split; [exact I|].
    split; [reflexivity|]. split; [congruence|].
    intros k e Hk. destruct k; discriminate.
  - intros (start & Hstart & Hchain & Hall & Hpre & Hne).
    exists start. split; [lia|]. split; [exact Hchain|].
    split; [discriminate|]. split.
    + intros _. apply Hne; [|reflexivity].
      rewrite py_range_cons by lia. discriminate.
    + intros k e Hk.
      destruct (run_positions _ _ _ _ _ _ Hchain Hall Hpre k e Hk) as (H1 & H2 & H3).
      cbn [weeks_active initial_state] in H3.
      split; [exact H1|]. split; [exact H2|]. split; [lia|].
      apply (proj1 (List.Forall_forall _ _) Hall).
      eapply nth_error_In, Hk.
Qed.

Section RunFacts.
Context {RT : Runtime}.

Lemma simulate_ledger_log_facts (dim_event : list Event)
    (customers : list Customer) (seed : Z) (churn_cfg : option ChurnConfig)
    (r0 : PyRandom) :
  let logs := fst (simulate_ledger_log dim_event customers seed churn_cfg r0) in
  map fst logs = customers
  /\ Forall (fun cl => log_facts (load_events dim_event)
                                 (week_keys_of (load_events dim_event))
                                 (snd cl)) logs.
Proof.
  cbv zeta.
  destruct (simulate_ledger_log_run dim_event customers seed churn_cfg r0)
    as [Hmap Hall].
  split; [exact Hmap|].
  eapply Forall_impl; [exact Hall|].
  intros cl. apply customer_run_log_facts.
Qed.

Lemma bet_more_every (dim_event : list Event) (customers : list Customer)
    (seed : Z) (churn_cfg : option ChurnConfig) (r0 : PyRandom) :
  every_bet (fun _ W _ p => cost_facts p /\ legs_facts W p)
            (load_events dim_event) (week_keys_of (load_events dim_event))
            (fst (simulate_ledger_log dim_event customers seed churn_cfg r0)).
Proof.
  apply simulate_ledger_log_every. intros c pe W wk_idx acc HW.
  eapply always_weaken; [apply (place_bet_more c pe W wk_idx acc HW)|].
  intros r (H1 & H2 & _). split; assumption.
Qed.

Lemma legs_df_every (R : LegRow -> Prop) (logs : list (Customer * list WeekLog)) :
  Forall (fun p => Forall R (p_legs p)) (all_placed logs) ->
  Forall R (legs_df (ledger_of logs)).
Proof.
  unfold legs_df, ledger_of. cbn [fst snd].
  induction 1 as [|p ps Hp _ IH]; cbn [flat_map]; [constructor|].
  apply Forall_app. split; assumption.
Qed.

Lemma leg_facts_every (dim_event : list Event) (customers : list Customer)
    (seed : Z) (churn_cfg : option ChurnConfig) (r0 : PyRandom) :
  Forall (fun l => decimal_odds l = american_to_decimal (american_odds l)
                   /\ is_win l = Settled_eqb (settled_result l) win
                   /\ is_push l = Settled_eqb (settled_result l) push
                   /\ exists ev, leg_core (market_type l) ev (selection l)
                                   (line_value l) (american_odds l)
                                   (settled_result l))
         (legs_df (fst (simulate_ledger dim_event customers seed churn_cfg r0))).
Proof.
  rewrite simulate_ledger_rows. apply legs_df_every.
  apply (every_bet_all_placed _ (load_events dim_event)
           (week_keys_of (load_events dim_event))).
  eapply every_bet_weaken; [|apply bet_more_every].
  intros c W wa p [_ Hlegs]. cbv beta.
  eapply Forall_impl; [exact Hlegs|].
  intros l (ev & _ & Hl). destruct Hl. eauto 6.
Qed.

End RunFacts.

Lemma american_to_decimal_moneyline (odds : Z) :
  (-395 <= odds <= -113)%Z \/ (100 <= odds <= 315)%Z ->
  1 < american_to_decimal odds /\ american_to_decimal odds <= 4.15.
Proof.
  unfold american_to_decimal. intros [H | H].
  - replace (0 <? odds)%Z with false by (symmetry; apply Z.ltb_ge; lia).
    assert (Hlo : inject_Z 113 <= inject_Z (Z.abs odds))
      by (rewrite <- Zle_Qle; lia).
    set (x := inject_Z (Z.abs odds)) in *.
    change (inject_Z 113) with (113 # 1) in Hlo.
    assert (Hpos : 0 < x) by lra.
    assert (H1 : 0 < 100 / x) by (apply Qlt_shift_div_l; [exact Hpos | lra]).
    assert (H2 : 100 / x <= 1) by (apply Qle_shift_div_r; [exact Hpos | lra]).
    split; lra.
  - replace (0 <? odds)%Z with true by (symmetry; apply Z.ltb_lt; lia).
    assert (Hlo : inject_Z 100 <= inject_Z odds) by (rewrite <- Zle_Qle; lia).
    assert (Hhi : inject_Z odds <= inject_Z 315) by (rewrite <- Zle_Qle; lia).
    set (x := inject_Z odds) in *.
    change (inject_Z 100) with (100 # 1) in Hlo.
    change (inject_Z 315) with (315 # 1) in Hhi.
    assert (H1 : 1 <= x / 100) by (apply Qle_shift_div_l; lra).
    assert (H2 : x / 100 <= 3.15) by (apply Qle_shift_div_r; lra).
    split; lra.
Qed.

Lemma py_max_ge_l (a b : Q) : a <= py_max a b.
Proof. unfold py_max. case_Qltb a b; lra. Qed.

Lemma Forall_of_nth_error {A} (R : A -> Prop) (l : list A) :
  (forall k x, nth_error l k = Some x -> R x) -> Forall R l.
Proof.
  intros H. apply List.Forall_forall. intros x Hx.
  apply In_nth_error in Hx as [k Hk]. eauto.
Qed.

(** In a calendar's own week list, a week entered in range has events,
    so the week is not skipped for lack of events, and the first
    executed week places bets. *)
Lemma log_entry_events (events : list Event) (log : list WeekLog) :
  log_facts events (week_keys_of events) log ->
  forall k e, nth_error log k = Some e ->
    week_events_at events (week_keys_of events) (wl_wk_idx e) <> []
    /\ wl_outcome e <> WkNoEvents
    /\ (k = 0%nat -> exists net ps, wl_outcome e = WkBets net ps /\ ps <> []).
Proof.
  intros (start & Hstart & _ & _ & _ & Hpos) k e Hk.
  destruct (Hpos k e Hk) as (Hidx & Hlt & Hwa & _ & _ & Hweek & _).
  assert (HW : week_events_at events (week_keys_of events) (wl_wk_idx e) <> [])
    by (apply week_events_at_nonempty; lia).
  split; [exact HW|]. split.
  - intros Hout. apply HW. apply (wf_no_events _ _ _ _ _ Hweek Hout).
  - intros ->. cbn in Hwa.
    destruct (wf_first _ _ _ _ _ Hweek Hwa HW) as (net & ps & Hout).
    exists net, ps. split; [exact Hout|].
    apply (wf_bets _ _ _ _ _ Hweek net ps Hout).
Qed.

(** From the second executed week on the customer has a last bet week,
    and it is an earlier week. *)
Lemma log_last_bet (events : list Event) (log : list WeekLog) :
  log_facts events (week_keys_of events) log ->
  forall k e, nth_error log k = Some e ->
    (0 < k)%nat ->
    exists w, last_bet_week_idx (wl_before e) = Some w /\ (w < wl_wk_idx e)%Z.
Proof.
  intros Hlog.
  pose proof (log_entry_events events log Hlog) as Hev.
  destruct Hlog as (start & Hstart & Hchain & _ & _ & Hpos).
  assert (Hnext : forall k e e', nth_error log k = Some e ->
                    nth_error log (S k) = Some e' -> wl_before e' = wl_after e).
  { clear -Hchain. revert Hchain. generalize initial_state.
    induction log as [|e0 rest IH]; intros st Hch k e e' Hk Hk'.
    - destruct k; discriminate.
    - destruct Hch as [_ Hch]. destruct k as [|k].
      + injection Hk as <-. cbn in Hk'. destruct rest as [|e1 rest]; [discriminate|].
        injection Hk' as <-. apply Hch.
      + cbn in Hk, Hk'. eapply IH; eauto. }
  induction k as [|k IH]; intros e' Hk' Hgt; [lia|].
  assert (Hsome : exists e, nth_error log k = Some e).
  { destruct (nth_error log k) eqn:E; [eauto|].
    apply nth_error_None in E.
    assert (nth_error log (S k) <> None) by congruence.
    apply nth_error_Some in H. lia. }
  destruct Hsome as [e Hk].
  rewrite (Hnext k e e' Hk Hk').
  destruct (Hpos k e Hk) as (Hidx & _ & _ & _ & _ & Hweek & _).
  destruct (Hpos (S k) e' Hk') as (Hidx' & _).
  destruct (wl_outcome e) eqn:Hout.
  - destruct (wf_no_bets _ _ _ _ _ Hweek) as [Hsame _]; [reflexivity|].
    destruct k as [|k'].
    + destruct (proj2 (proj2 (Hev 0%nat e Hk)) eq_refl) as (net & ps & Hb & _).
      congruence.
    + destruct (IH e Hk) as (w & Hw & Hlt); [lia|].
      exists w. rewrite Hsame. split; [exact Hw | lia].
  - destruct (proj1 (proj2 (Hev k e Hk)) Hout).
  - destruct (wf_no_bets _ _ _ _ _ Hweek) as [Hsame _]; [reflexivity|].
    destruct k as [|k'].
    + destruct (proj2 (proj2 (Hev 0%nat e Hk)) eq_refl) as (net' & ps & Hb & _).
      congruence.
    + destruct (IH e Hk) as (w & Hw & Hlt); [lia|].
      exists w. rewrite Hsame. split; [exact Hw | lia].
  - destruct (wf_bets _ _ _ _ _ Hweek net placed eq_refl) as (_ & _ & Hlast).
    exists (wl_wk_idx e). split; [exact Hlast | lia].
Qed.

Section RunTheorems.
Context {RT : Runtime}.

(** X1.  Every row of the leg ledger of a run is priced inside the range
    of its market: American odds between -145 and 116 on a spread,
    between -155 and 120 on a total, and between -395 and -113 (favorite)
    or 100 and 315 (underdog) otherwise; its decimal odds are the
    conversion of its American odds. *)
Theorem leg_odds_in_market_range (dim_event : list Event)
    (customers : list Customer) (seed : Z) (churn_cfg : option ChurnConfig)
    (r0 : PyRandom) :
  Forall (fun l => odds_in_market (market_type l) (american_odds l)
                   /\ decimal_odds l = american_to_decimal (american_odds l))
         (legs_df (fst (simulate_ledger dim_event customers seed churn_cfg r0))).
Proof.
  eapply Forall_impl; [apply leg_facts_every|].
  intros l (Hdec & _ & _ & ev & Hodds & _). split; assumption.
Qed.

(** X2.  A moneyline leg of a run has no line, is on the home or the away
    side, is never a push (a tied game settles as an away win), and pays
    decimal odds above 1 and at most 4.15. *)
Theorem moneyline_leg_never_pushes (dim_event : list Event)
    (customers : list Customer) (seed : Z) (churn_cfg : option ChurnConfig)
    (r0 : PyRandom) :
  Forall (fun l => market_type l = moneyline ->
                   line_value l = None
                   /\ (selection l = sel_home \/ selection l = sel_away)
                   /\ (settled_result l = win \/ settled_result l = lose)
                   /\ is_push l = false
                   /\ 1 < decimal_odds l /\ decimal_odds l <= 4.15)
         (legs_df (fst (simulate_ledger dim_event customers seed churn_cfg r0))).
Proof.
  eapply Forall_impl; [apply leg_facts_every|].
  intros l (Hdec & _ & Hpush & ev & Hcore) Hmt.
  unfold leg_core, odds_in_market in Hcore. rewrite Hmt in Hcore.
  destruct Hcore as (Hodds & Hsel & Hline & Hres).
  assert (Hwl : settled_result l = win \/ settled_result l = lose).
  { rewrite Hres.
    destruct (Selection_is_home _), (0 <? home_margin ev)%Z; auto. }
  split; [exact Hline|]. split; [exact Hsel|]. split; [exact Hwl|]. split.
  - rewrite Hpush. destruct Hwl as [-> | ->]; reflexivity.
  - rewrite Hdec. apply american_to_decimal_moneyline, Hodds.
Qed.

(** X3.  Every leg of every bet of a run carries the bet's id and the id
    of an event the bet was drawn from (an event of the bet's week for a
    straight bet), a straight bet's leg is on the market of the bet, and
    the leg's stored result is the one obtained by settling its stored
    selection and line against the final score of that event. *)
Theorem leg_settled_from_final_score (dim_event : list Event)
    (customers : list Customer) (seed : Z) (churn_cfg : option ChurnConfig)
    (r0 : PyRandom) :
  every_bet
    (fun _ W _ p =>
       Forall (fun l => exists ev,
                 drawn_from W (bet_type (p_bet p)) ev
                 /\ leg_event_id l = event_id ev
                 /\ leg_bet_id l = bet_id (p_bet p)
                 /\ (bet_type (p_bet p) <> parlay ->
                     market_type l = bet_type (p_bet p))
                 /\ settled_result l = leg_result ev l)
              (p_legs p))
    (load_events dim_event) (week_keys_of (load_events dim_event))
    (fst (simulate_ledger_log dim_event customers seed churn_cfg r0)).
Proof.
  eapply every_bet_weaken; [|apply bet_more_every].
  intros c W wa p [_ Hlegs].
  eapply Forall_impl; [exact Hlegs|].
  intros l (ev & Hev & Hl). exists ev.
  destruct Hl as [H1 H2 H3 _ _ _ Hcore].
  repeat split; try assumption. apply leg_core_result, Hcore.
Qed.

(** X4.  The line of every leg stays near the line of its event: a spread
    leg is offered within 1.5 points of the event's spread seen from the
    side taken, a total leg within 1.8 points of the event's total (for an
    event without a line, of a line within [-14, 14] or [31, 59]); any
    other leg has no line. *)
Theorem leg_line_near_event_line (dim_event : list Event)
    (customers : list Customer) (seed : Z) (churn_cfg : option ChurnConfig)
    (r0 : PyRandom) :
  every_bet
    (fun _ W _ p =>
       Forall (fun l => exists ev,
                 drawn_from W (bet_type (p_bet p)) ev
                 /\ leg_event_id l = event_id ev
                 /\ line_near ev l)
              (p_legs p))
    (load_events dim_event) (week_keys_of (load_events dim_event))
    (fst (simulate_ledger_log dim_event customers seed churn_cfg r0)).
Proof.
  eapply every_bet_weaken; [|apply bet_more_every].
  intros c W wa p [_ Hlegs].
  eapply Forall_impl; [exact Hlegs|].
  intros l (ev & Hev & Hl). exists ev.
  destruct Hl as [H1 _ _ _ _ _ Hcore].
  repeat split; try assumption. apply leg_core_line, Hcore.
Qed.

(** X5.  Every bet of a run has a cost row with the bet's id whose payment
    fee is 1.2% of the stake (so between 0.06 and 24), whose tax is 3% of
    the book's gross profit on the bet when that is positive and 0
    otherwise, and whose promotional cost is not negative. *)
Theorem cost_row_from_bet_row (dim_event : list Event)
    (customers : list Customer) (seed : Z) (churn_cfg : option ChurnConfig)
    (r0 : PyRandom) :
  Forall (fun p =>
            cost_id (p_cost p) = bet_id (p_bet p)
            /\ cost_bet_id (p_cost p) = bet_id (p_bet p)
            /\ payment_fee (p_cost p) = stake_amount (p_bet p) * 0.012
            /\ 0.06 <= payment_fee (p_cost p) <= 24
            /\ tax (p_cost p)
               = py_max 0.0 (stake_amount (p_bet p) - gross_payout (p_bet p)) * 0.03
            /\ 0 <= tax (p_cost p)
            /\ 0 <= promo_cost (p_cost p))
         (all_placed (fst (simulate_ledger_log dim_event customers seed churn_cfg r0))).
Proof.
  apply (every_bet_all_placed _ (load_events dim_event)
           (week_keys_of (load_events dim_event))).
  eapply every_bet_weaken;
    [|apply (simulate_ledger_log_every
               (fun c _ wa p => cost_facts p /\ bet_facts c wa p))].
  - intros c W wa p [[Hfee Htax Hpromo Hid] Hbet]. cbv beta.
    pose proof (bf_stake_lo _ _ _ Hbet) as Hlo.
    pose proof (bf_stake_hi _ _ _ Hbet) as Hhi.
    pose proof (py_max_ge_l 0.0 (stake_amount (p_bet p) - gross_payout (p_bet p))) as Hmax.
    split; [exact Hid|]. split; [apply (bf_cost_id _ _ _ Hbet)|].
    split; [exact Hfee|]. split; [rewrite Hfee; lra|].
    split; [exact Htax|]. split; [rewrite Htax; lra | exact Hpromo].
  - intros c pe W wk_idx acc HW. apply always_and.
    + eapply always_weaken; [apply (place_bet_more c pe W wk_idx acc HW)|].
      intros r (H & _). exact H.
    + eapply always_weaken; [apply place_bet_facts|]. intros r [H _]. exact H.
Qed.

(** X6.  In every week of every customer of a run at most one bet carries
    a promotional cost: once a promotion is given, no further bet of that
    week gets one. *)
Theorem one_promotion_per_week (dim_event : list Event)
    (customers : list Customer) (seed : Z) (churn_cfg : option ChurnConfig)
    (r0 : PyRandom) :
  Forall (fun cl =>
    Forall (fun e => (count_promos (placed_of (wl_outcome e)) <= 1)%nat) (snd cl))
    (fst (simulate_ledger_log dim_event customers seed churn_cfg r0)).
Proof.
  destruct (simulate_ledger_log_facts dim_event customers seed churn_cfg r0)
    as [_ Hall].
  eapply Forall_impl; [exact Hall|].
  intros cl (start & _ & _ & _ & _ & Hpos). apply Forall_of_nth_error.
  intros k e Hk. destruct (Hpos k e Hk) as (_ & _ & _ & _ & _ & Hweek & _).
  destruct (wl_outcome e) eqn:Hout; cbn; try lia.
  apply (wf_bets _ _ _ _ _ Hweek net placed eq_refl).
Qed.

(** X7.  Around every executed week of a run the customer's state stays
    within its bounds: the negative-net streak between 0 and 8 and the
    remaining promotion-effect weeks between 0 and 10. *)
Theorem run_state_within_bounds (dim_event : list Event)
    (customers : list Customer) (seed : Z) (churn_cfg : option ChurnConfig)
    (r0 : PyRandom) :
  Forall (fun cl =>
    Forall (fun e =>
              (0 <= negative_net_streak (wl_before e) <= 8)%Z
              /\ (0 <= promo_effect_weeks_remaining (wl_before e) <= 10)%Z
              /\ (0 <= negative_net_streak (wl_after e) <= 8)%Z
              /\ (0 <= promo_effect_weeks_remaining (wl_after e) <= 10)%Z)
           (snd cl))
    (fst (simulate_ledger_log dim_event customers seed churn_cfg r0)).
Proof.
  destruct (simulate_ledger_log_facts dim_event customers seed churn_cfg r0)
    as [_ Hall].
  eapply Forall_impl; [exact Hall|].
  intros cl (start & _ & _ & _ & _ & Hpos). apply Forall_of_nth_error.
  intros k e Hk.
  destruct (Hpos k e Hk) as (_ & _ & _ & (_ & Hs & Hp) & _ & _ & (_ & Hs' & Hp')).
  auto.
Qed.

(** X8.  The weeks a customer executes are consecutive weeks of the
    calendar from a start week on: the [k]-th executed week (from 0) is
    week [start + k], it is a week of the calendar, and the customer
    enters it with [weeks_active = k] and not churned. *)
Theorem weeks_active_counts_executed_weeks (dim_event : list Event)
    (customers : list Customer) (seed : Z) (churn_cfg : option ChurnConfig)
    (r0 : PyRandom) :
  Forall (fun cl =>
    exists start, (0 <= start)%Z /\
      forall k e, nth_error (snd cl) k = Some e ->
        wl_wk_idx e = (start + Z.of_nat k)%Z
        /\ (wl_wk_idx e
            < Z.of_nat (length (week_keys_of (load_events dim_event))))%Z
        /\ weeks_active (wl_before e) = Z.of_nat k
        /\ has_churned (wl_before e) = false)
    (fst (simulate_ledger_log dim_event customers seed churn_cfg r0)).
Proof.
  destruct (simulate_ledger_log_facts dim_event customers seed churn_cfg r0)
    as [_ Hall].
  eapply Forall_impl; [exact Hall|].
  intros cl (start & Hstart & _ & _ & _ & Hpos). exists start.
  split; [exact Hstart|]. intros k e Hk.
  destruct (Hpos k e Hk) as (H1 & H2 & H3 & _ & H4 & _). auto.
Qed.

(** X9.  Every week a customer executes has at least one event, so the
    branch that skips a week without events is never taken. *)
Theorem executed_week_has_events (dim_event : list Event)
    (customers : list Customer) (seed : Z) (churn_cfg : option ChurnConfig)
    (r0 : PyRandom) :
  Forall (fun cl =>
    Forall (fun e =>
              week_events_at (load_events dim_event)
                             (week_keys_of (load_events dim_event))
                             (wl_wk_idx e) <> []
              /\ wl_outcome e <> WkNoEvents)
           (snd cl))
    (fst (simulate_ledger_log dim_event customers seed churn_cfg r0)).
Proof.
  destruct (simulate_ledger_log_facts dim_event customers seed churn_cfg r0)
    as [_ Hall].
  eapply Forall_impl; [exact Hall|].
  intros cl Hlog. apply Forall_of_nth_error. intros k e Hk.
  destruct (log_entry_events _ _ Hlog k e Hk) as (H1 & H2 & _). auto.
Qed.

(** X10.  The run logs the customers in the order given.  With an empty
    calendar (no event from season 2010 on with a week) no customer
    executes a week; otherwise every customer executes a first week, and
    places at least one bet in it: nobody churns or idles in the first
    week, and every customer appears in the bet ledger. *)
Theorem first_week_places_a_bet (dim_event : list Event)
    (customers : list Customer) (seed : Z) (churn_cfg : option ChurnConfig)
    (r0 : PyRandom) :
  let logs := fst (simulate_ledger_log dim_event customers seed churn_cfg r0) in
  map fst logs = customers
  /\ Forall (fun cl =>
       match week_keys_of (load_events dim_event) with
       | [] => snd cl = []
       | _ :: _ =>
           exists e rest net ps,
             snd cl = e :: rest
             /\ wl_outcome e = WkBets net ps
             /\ ps <> []
             /\ Forall (fun p => bet_customer_id (p_bet p) = customer_id (fst cl)) ps
       end) logs.
Proof.
  cbv zeta.
  destruct (simulate_ledger_log_facts dim_event customers seed churn_cfg r0)
    as [Hmap Hall].
  split; [exact Hmap|].
  pose proof (bet_facts_every dim_event customers seed churn_cfg r0) as Hbets.
  unfold every_bet in Hbets.
  pose proof (List.Forall_and Hall Hbets) as Hboth. clear Hall Hbets.
  eapply Forall_impl; [exact Hboth|].
  intros cl [Hlog Hbets]. cbv beta in Hbets.
  pose proof (log_entry_events _ _ Hlog) as Hev.
  destruct Hlog as (start & _ & _ & Hnil & Hne & _).
  destruct (week_keys_of (load_events dim_event)) as [|k0 ks] eqn:Hkeys.
  - apply Hnil. reflexivity.
  - destruct (snd cl) as [|e rest] eqn:Hcl; [destruct Hne; [discriminate | reflexivity]|].
    destruct (Hev 0%nat e eq_refl) as (_ & _ & Hfirst).
    destruct (Hfirst eq_refl) as (net & ps & Hout & Hps).
    exists e, rest, net, ps. repeat split; try assumption.
    inversion Hbets as [|? ? He _]; subst. rewrite Hout in He. cbn in He.
    eapply Forall_impl; [exact He|]. intros p Hp. apply (bf_customer _ _ _ Hp).
Qed.

(** X11.  From the second executed week on, a customer enters every week
    with a last bet week, which is an earlier week: the inactivity terms
    of the churn model are always evaluated on a gap of at least one
    week. *)
Theorem last_bet_week_is_earlier (dim_event : list Event)
    (customers : list Customer) (seed : Z) (churn_cfg : option ChurnConfig)
    (r0 : PyRandom) :
  Forall (fun cl =>
    Forall (fun e =>
              (0 < weeks_active (wl_before e))%Z ->
              exists w, last_bet_week_idx (wl_before e) = Some w
                        /\ (w < wl_wk_idx e)%Z)
           (snd cl))
    (fst (simulate_ledger_log dim_event customers seed churn_cfg r0)).
Proof.
  destruct (simulate_ledger_log_facts dim_event customers seed churn_cfg r0)
    as [_ Hall].
  eapply Forall_impl; [exact Hall|].
  intros cl Hlog. apply Forall_of_nth_error. intros k e Hk Hwa.
  apply (log_last_bet _ _ Hlog k e Hk).
  destruct Hlog as (start & _ & _ & _ & _ & Hpos).
  destruct (Hpos k e Hk) as (_ & _ & Hk' & _). lia.
Qed.

End RunTheorems.

(** ** Row ids *)

Section CountingRules.
Context {RT : Runtime}.

Lemma keeps_ret {A} (a : A) : keeps (ret a).
Proof. intros s. reflexivity. Qed.

Lemma keeps_bind {A B} (m : St Sim A) (f : A -> St Sim B) :
  keeps m -> (forall a, keeps (f a)) -> keeps (bind m f).
Proof.
  intros Hm Hf s. unfold bind. specialize (Hm s).
  destruct (m s) as [a s1]. cbn [snd] in *. rewrite <- Hm. apply Hf.
Qed.

Lemma counting_ret {A} (a : A) (R : Z * Z -> A -> Z * Z -> Prop) :
  (forall c, R c a c) -> counting (ret a) R.
Proof. intros H s. apply H. Qed.

Lemma counting_bind {A B} (m : St Sim A) (f : A -> St Sim B)
    (R1 : Z * Z -> A -> Z * Z -> Prop) (R : Z * Z -> B -> Z * Z -> Prop) :
  counting m R1 ->
  (forall a, counting (f a) (fun c1 b c2 => forall c, R1 c a c1 -> R c b c2)) ->
  counting (bind m f) R.
Proof.
  intros Hm Hf s. unfold bind. specialize (Hm s).
  destruct (m s) as [a s1]. cbn [fst snd] in *.
  apply (Hf a s1), Hm.
Qed.

Lemma counting_keep {A B} (m : St Sim A) (f : A -> St Sim B)
    (R : Z * Z -> B -> Z * Z -> Prop) :
  keeps m -> (forall a, counting (f a) R) -> counting (bind m f) R.
Proof.
  intros Hm Hf s. unfold bind. specialize (Hm s).
  destruct (m s) as [a s1]. cbn [fst snd] in *. rewrite <- Hm. apply Hf.
Qed.

Lemma counting_weaken {A} (m : St Sim A) (R R' : Z * Z -> A -> Z * Z -> Prop) :
  counting m R -> (forall c a c', R c a c' -> R' c a c') -> counting m R'.
Proof. intros H HR s. apply HR, H. Qed.

End CountingRules.

Lemma consecutive_app (lo : Z) (l1 l2 : list Z) :
  consecutive lo (l1 ++ l2)
  <-> consecutive lo l1 /\ consecutive (lo + Z.of_nat (length l1)) l2.
Proof.
  revert lo. induction l1 as [|x l1 IH]; intros lo; cbn [app consecutive length].
  - replace (lo + Z.of_nat 0)%Z with lo by lia. tauto.
  - rewrite IH.
    replace (lo + 1 + Z.of_nat (length l1))%Z
      with (lo + Z.of_nat (S (length l1)))%Z by lia.
    tauto.
Qed.

Lemma consecutive_py_range (lo : Z) (l : list Z) :
  consecutive lo l <-> l = py_range lo (lo + Z.of_nat (length l)).
Proof.
  revert lo. induction l as [|x l IH]; intros lo; cbn [consecutive length].
  - unfold py_range. replace (Z.to_nat (lo + Z.of_nat 0 - lo)) with 0%nat by lia.
    cbn. tauto.
  - rewrite py_range_cons by lia. rewrite IH.
    replace (lo + 1 + Z.of_nat (length l))%Z
      with (lo + Z.of_nat (S (length l)))%Z by lia.
    split.
    + intros [-> H]. f_equal. exact H.
    + intros H. injection H as H1 H2. split; assumption.
Qed.

Lemma ids_from_app (ps1 ps2 : list Placed) (c c1 c2 : Z * Z) :
  ids_from c ps1 c1 -> ids_from c1 ps2 c2 -> ids_from c (ps1 ++ ps2) c2.
Proof.
  revert c. induction ps1 as [|p ps1 IH]; intros c; cbn [ids_from app].
  - intros ->. auto.
  - intros (H1 & H2 & H3 & H4) H5. repeat split; try assumption.
    eapply IH; eassumption.
Qed.

(** The ids of the three ledgers, from [ids_from]. *)
Lemma ids_from_ledger (ps : list Placed) :
  forall c c', ids_from c ps c' ->
    consecutive (fst c) (map bet_id (map p_bet ps))
    /\ consecutive (snd c) (map bet_leg_id (flat_map p_legs ps))
    /\ Forall (fun p => consecutive 1 (map leg_no (p_legs p))) ps.
Proof.
  induction ps as [|p ps IH]; intros c c'; cbn [ids_from map flat_map consecutive].
  - intros _. repeat split. constructor.
  - intros (H1 & H2 & H3 & H4).
    destruct (IH _ _ H4) as (Hb & Hl & Hn). cbn [fst snd] in *.
    repeat split; try assumption.
    + rewrite map_app. apply consecutive_app. split; [exact H2|].
      rewrite length_map. exact Hl.
    + constructor; assumption.
Qed.

Section Counting.
Context {RT : Runtime}.

Lemma keeps_np {A} (f : Generator -> A * Generator) : keeps (np f).
Proof. intros s. unfold np. destruct (f (sim_rng s)). reflexivity. Qed.

Lemma keeps_py {A} (f : PyRandom -> A * PyRandom) : keeps (py f).
Proof. intros s. unfold py. destruct (f (sim_random s)). reflexivity. Qed.

Lemma keeps_get_bet_id : keeps get_bet_id.
Proof. intros s. reflexivity. Qed.

End Counting.

Ltac keeps_step :=
  first
    [ apply keeps_ret
    | apply keeps_np
    | apply keeps_py
    | apply keeps_bind; [|intros ?]
    | match goal with
      | |- keeps (if ?b then _ else _) => destruct b
      | |- keeps (match ?x with _ => _ end) => destruct x
      end ].

Ltac keeps_all := repeat keeps_step.

Section Ids.
Context {RT : Runtime}.

Lemma make_leg_ids (bt : BetType) (bid no : Z) (ev : Event) :
  counting (make_leg bt bid no ev)
    (fun c l c' => bet_leg_id l = snd c /\ leg_no l = no
                   /\ c' = (fst c, (snd c + 1)%Z)).
Proof.
  unfold make_leg.
  apply counting_keep; [keeps_all|]. intros mt.
  apply counting_keep; [keeps_all|]. intros tl.
  apply counting_keep; [keeps_all|]. intros sl.
  apply counting_keep; [keeps_all|]. intros [[[sel line] odds] settled].
  intros s. cbn. auto.
Qed.

Lemma make_legs_ids (bt : BetType) (bid : Z) (evs : list Event) :
  forall no,
    counting (make_legs bt bid no evs)
      (fun c legs c' => consecutive (snd c) (map bet_leg_id legs)
                        /\ consecutive no (map leg_no legs)
                        /\ c' = (fst c, (snd c + Z.of_nat (length legs))%Z)).
Proof.
  induction evs as [|ev0 evs IH]; intros no; cbn [make_legs].
  - apply counting_ret. intros [b g]. cbn. repeat split. f_equal. lia.
  - eapply counting_bind; [apply make_leg_ids|]. intros l.
    eapply counting_bind; [apply IH|]. intros ls.
    apply counting_ret.
    intros c2 c1 (Hids & Hnos & ->) c (Hid & Hno & ->).
    cbn [fst snd map consecutive length] in *.
    repeat split; try assumption. f_equal. lia.
Qed.

Lemma counting_get_bet_id :
  counting get_bet_id (fun c a c' => a = fst c /\ c' = c).
Proof. intros s. split; reflexivity. Qed.

Lemma counting_incr_bet_id :
  counting incr_bet_id (fun c _ c' => c' = ((fst c + 1)%Z, snd c)).
Proof. intros s. reflexivity. Qed.

Lemma place_bet_ids (c : Customer) (pe : bool) (W : list Event)
    (wk_idx : Z) (acc : WeekAcc) :
  counting (place_bet c pe W wk_idx acc)
           (fun k r k' => ids_from k [fst r] k').
Proof.
  unfold place_bet.
  apply counting_keep; [keeps_all|]. intros bt.
  apply counting_keep; [keeps_all|]. intros x.
  apply counting_keep; [keeps_all|]. intros i.
  apply counting_keep; [keeps_all|]. intros hours.
  apply counting_keep; [keeps_all|]. intros leg_events.
  eapply counting_bind; [apply counting_get_bet_id|]. intros bid.
  eapply counting_bind; [apply make_legs_ids|]. intros legs.
  destruct (settle_bet _ _ _) as [[payout stat] avg_odds].
  apply counting_keep; [keeps_all|]. intros trigger0.
  apply counting_keep; [keeps_all|]. intros promo_trigger.
  apply counting_keep; [keeps_all|]. intros cost0.
  apply counting_keep; [keeps_all|]. intros st1.
  eapply counting_bind; [apply counting_incr_bet_id|]. intros u.
  apply counting_ret.
  intros k3 k2 -> k1 (Hids & Hnos & ->) k [-> ->].
  cbn [ids_from fst snd p_bet p_legs bet_id]. auto.
Qed.

Lemma place_bets_ids (c : Customer) (pe : bool) (W : list Event)
    (wk_idx : Z) (n : nat) :
  forall acc,
    counting (place_bets c pe W wk_idx n acc)
             (fun k r k' => ids_from k (fst r) k').
Proof.
  induction n as [|n IH]; intros acc; cbn [place_bets].
  - apply counting_ret. intros k. reflexivity.
  - eapply counting_bind; [apply place_bet_ids|]. intros [p acc1].
    eapply counting_bind; [apply IH|]. intros [ps acc2].
    apply counting_ret. intros k2 k1 Hps k Hp. cbn [fst] in *.
    apply (ids_from_app [p] ps k k1 k2 Hp Hps).
Qed.

Lemma active_week_ids (c : Customer) (pe : bool) (events : list Event)
    (week_keys : list WeekKey) (wk_idx : Z) (st : CustomerRunState) :
  counting (active_week c pe events week_keys wk_idx st)
           (fun k r k' => ids_from k (placed_of (fst r)) k').
Proof.
  unfold active_week.
  destruct (events_by_week _ _) as [|ev0 W].
  - apply counting_ret. intros k. reflexivity.
  - apply counting_keep; [keeps_all|]. intros n.
    destruct (n <=? 0)%Z.
    + apply counting_ret. intros k. reflexivity.
    + eapply counting_bind; [apply place_bets_ids|]. intros [ps acc].
      apply counting_ret. intros k1 k Hps. exact Hps.
Qed.

Lemma simulate_week_ids (cfg : ChurnConfig) (c : Customer) (pe : bool)
    (events : list Event) (week_keys : list WeekKey) (wk_idx : Z)
    (st : CustomerRunState) :
  counting (simulate_week cfg c pe events week_keys wk_idx st)
           (fun k r k' => ids_from k (placed_of (fst r)) k').
Proof.
  unfold simulate_week. destruct (0 <? weeks_active st)%Z.
  - apply counting_keep; [keeps_all|]. intros u.
    destruct (Qltb u _).
    + apply counting_ret. intros k. reflexivity.
    + apply active_week_ids.
  - apply active_week_ids.
Qed.

Lemma week_loop_ids (cfg : ChurnConfig) (c : Customer) (pe : bool)
    (events : list Event) (week_keys : list WeekKey) (wks : list Z) :
  forall st,
    counting (week_loop cfg c pe events week_keys wks st)
      (fun k logs k' =>
         ids_from k (flat_map (fun wl => placed_of (wl_outcome wl)) logs) k').
Proof.
  induction wks as [|wk rest IH]; intros st; cbn [week_loop].
  - apply counting_ret. intros k. reflexivity.
  - destruct (has_churned st).
    + apply counting_ret. intros k. reflexivity.
    + eapply counting_bind; [apply simulate_week_ids|]. intros [out st'].
      eapply counting_bind; [apply IH|]. intros logs.
      apply counting_ret. intros k2 k1 Hrest k Hout.
      cbn [flat_map wl_outcome fst] in *.
      eapply ids_from_app; eassumption.
Qed.

Lemma simulate_customers_ids (cfg : ChurnConfig) (events : list Event)
    (week_keys : list WeekKey) (cs : list Customer) :
  counting (simulate_customers cfg events week_keys cs)
           (fun k logs k' => ids_from k (all_placed logs) k').
Proof.
  induction cs as [|c rest IH]; cbn [simulate_customers].
  - apply counting_ret. intros k. reflexivity.
  - eapply counting_bind with
      (R1 := fun k log k' =>
               ids_from k (flat_map (fun wl => placed_of (wl_outcome wl)) log) k').
    { unfold simulate_customer. destruct week_keys as [|k0 ks].
      - apply counting_ret. intros k. reflexivity.
      - apply counting_keep; [keeps_all|]. intros start.
        apply counting_keep; [keeps_all|]. intros u.
        apply week_loop_ids. }
    intros log. eapply counting_bind; [apply IH|]. intros logs.
    apply counting_ret. intros k2 k1 Hrest k Hlog.
    unfold all_placed in *. cbn [flat_map snd].
    eapply ids_from_app; eassumption.
Qed.

Lemma simulate_ledger_log_ids (dim_event : list Event)
    (customers : list Customer) (seed : Z) (churn_cfg : option ChurnConfig)
    (r0 : PyRandom) :
  exists k',
    ids_from (1%Z, 1%Z)
      (all_placed (fst (simulate_ledger_log dim_event customers seed churn_cfg r0)))
      k'.
Proof.
  unfold simulate_ledger_log, bind, seed_random.
  match goal with
  | |- context [simulate_customers ?cfg ?evs ?wks ?cs ?s] =>
      pose proof (simulate_customers_ids cfg evs wks cs s) as H;
      destruct (simulate_customers cfg evs wks cs s) as [logs s']
  end.
  cbn [fst snd counters sim_bet_id sim_leg_id] in *. eauto.
Qed.

End Ids.

(** ** Payouts *)

Lemma american_to_decimal_ge_1 (odds : Z) : 1 <= american_to_decimal odds.
Proof.
  unfold american_to_decimal. destruct (0 <? odds)%Z eqn:Hpos.
  - apply Z.ltb_lt in Hpos.
    assert (H : inject_Z 0 <= inject_Z odds) by (rewrite <- Zle_Qle; lia).
    change (inject_Z 0) with 0 in H.
    assert (0 <= inject_Z odds / 100) by (apply Qle_shift_div_l; lra).
    lra.
  - assert (H : inject_Z 0 <= inject_Z (Z.abs odds)) by (rewrite <- Zle_Qle; lia).
    change (inject_Z 0) with 0 in H.
    assert (0 <= 100 / inject_Z (Z.abs odds)).
    { unfold Qdiv. apply Qmult_le_0_compat; [lra|]. apply Qinv_le_0_compat, H. }
    lra.
Qed.

Lemma parlay_mult_acc_ge (rs : list (Settled * Q)) (a : Q) :
  Forall (fun rd => 1 <= snd rd) rs -> 1 <= a ->
  1 <= fold_left
         (fun mult rd => mult * (if Settled_eqb (fst rd) win then snd rd else 1.0))
         rs a.
Proof.
  revert a. induction rs as [|rd rs IH]; intros a Hall Ha; [exact Ha|].
  inversion Hall as [|? ? Hrd Hrs]; subst. cbn [fold_left]. apply IH; [exact Hrs|].
  destruct (Settled_eqb (fst rd) win); nra.
Qed.

Lemma parlay_mult_all_push (rs : list (Settled * Q)) (a : Q) :
  forallb (fun rd => Settled_eqb (fst rd) push) rs = true ->
  fold_left
    (fun mult rd => mult * (if Settled_eqb (fst rd) win then snd rd else 1.0))
    rs a == a.
Proof.
  revert a. induction rs as [|rd rs IH]; intros a Hall; [reflexivity|].
  cbn [forallb] in Hall. apply andb_true_iff in Hall as [Hrd Hrs].
  cbn [fold_left]. rewrite (IH _ Hrs).
  destruct (fst rd); try discriminate. cbn. lra.
Qed.

Lemma settle_bet_payout (bt : BetType) (stake : Q) (rs : list (Settled * Q)) :
  0 <= stake -> Forall (fun rd => 1 <= snd rd) rs ->
  payout_by_status stake (fst (fst (settle_bet bt stake rs)))
                   (snd (fst (settle_bet bt stake rs))).
Proof.
  intros Hstake Hall. unfold settle_bet.
  destruct (BetType_eqb bt parlay).
  - destruct (existsb _ rs); [reflexivity|].
    cbn [fst snd]. unfold parlay_mult.
    destruct (forallb _ rs) eqn:Hpush; cbn [payout_by_status].
    + rewrite (parlay_mult_all_push rs 1.0 Hpush). lra.
    + pose proof (parlay_mult_acc_ge rs 1.0 Hall) as H.
      assert (1 <= 1.0) by lra. specialize (H H0). nra.
  - destruct rs as [|[r dec] rs]; [reflexivity|].
    inversion Hall as [|? ? Hrd _]; subst. cbn [snd] in Hrd.
    destruct r; cbn; try reflexivity. nra.
Qed.

(** ** Sums over the ledger (monte_carlo_validation.main, lines 77-92) *)

Lemma fold_Qplus_acc (l : list Q) (a : Q) :
  fold_left Qplus l a == a + Qsum l.
Proof.
  unfold Qsum. revert a. induction l as [|x l IH]; intros a; cbn [fold_left].
  - lra.
  - rewrite (IH (a + x)), (IH (0 + x)). lra.
Qed.

Lemma Qsum_cons (x : Q) (l : list Q) : Qsum (x :: l) == x + Qsum l.
Proof. unfold Qsum at 1. cbn [fold_left]. rewrite fold_Qplus_acc. lra. Qed.

(** The merge of the bets with their cost rows on [bet_id]: when bet ids
    are distinct and each cost row carries the id of its bet, every bet
    meets its own cost row and no other. *)
Lemma filter_single {A} (f : A -> Z) (l : list A) (x : A) :
  List.NoDup (map f l) -> In x l ->
  List.filter (fun y => (f y =? f x)%Z) l = [x].
Proof.
  induction l as [|y l IH]; cbn [map List.filter]; intros Hnd Hin; [contradiction|].
  inversion Hnd as [|? ? Hnot Hnd']; subst.
  destruct Hin as [-> | Hin].
  - rewrite Z.eqb_refl. f_equal.
    destruct (List.filter _ l) as [|z zs] eqn:Hf; [reflexivity|].
    assert (Hz : In z (List.filter (fun y => (f y =? f x)%Z) l))
      by (rewrite Hf; left; reflexivity).
    apply filter_In in Hz as [Hz Heq]. apply Z.eqb_eq in Heq.
    exfalso. apply Hnot. rewrite <- Heq. apply in_map, Hz.
  - destruct (f y =? f x)%Z eqn:Heq; [|apply IH; assumption].
    apply Z.eqb_eq in Heq. exfalso. apply Hnot. rewrite Heq. apply in_map, Hin.
Qed.

Lemma filter_map_swap {A B} (g : A -> B) (P : B -> bool) (l : list A) :
  List.filter P (map g l) = map g (List.filter (fun x => P (g x)) l).
Proof.
  induction l as [|x l IH]; cbn [map List.filter]; [reflexivity|].
  destruct (P (g x)); cbn [map]; now rewrite IH.
Qed.

Lemma merged_pairs (ps : list Placed) :
  List.NoDup (map (fun p => bet_id (p_bet p)) ps) ->
  Forall (fun p => cost_bet_id (p_cost p) = bet_id (p_bet p)) ps ->
  flat_map (fun b => map (fun k => (b, k))
                         (List.filter (fun k => (cost_bet_id k =? bet_id b)%Z)
                                      (map p_cost ps)))
           (map p_bet ps)
  = map (fun p => (p_bet p, p_cost p)) ps.
Proof.
  intros Hnd Hids.
  assert (Hone : forall p, In p ps ->
            List.filter (fun k => (cost_bet_id k =? bet_id (p_bet p))%Z)
                        (map p_cost ps) = [p_cost p]).
  { intros p Hp. rewrite filter_map_swap.
    rewrite (filter_ext_in _ (fun q => (bet_id (p_bet q) =? bet_id (p_bet p))%Z)).
    - rewrite (filter_single (fun q => bet_id (p_bet q)) ps p Hnd Hp). reflexivity.
    - intros q Hq. rewrite List.Forall_forall in Hids. now rewrite (Hids q Hq). }
  assert (Hsub : forall qs, incl qs ps ->
            flat_map (fun b => map (fun k => (b, k))
                         (List.filter (fun k => (cost_bet_id k =? bet_id b)%Z)
                                      (map p_cost ps)))
                     (map p_bet qs)
            = map (fun p => (p_bet p, p_cost p)) qs).
  { induction qs as [|q qs IH]; intros Hincl; [reflexivity|].
    cbn [map flat_map]. rewrite (Hone q) by (apply Hincl; left; reflexivity).
    rewrite IH by (intros x Hx; apply Hincl; right; exact Hx). reflexivity. }
  apply Hsub, incl_refl.
Qed.

Lemma row_sums (ps : list Placed) :
  Forall row_facts ps ->
  let the_handle := Qsum (map stake_amount (map p_bet ps)) in
  let ggr := Qsum (map (fun b => stake_amount b - gross_payout b) (map p_bet ps)) in
  let merged := map (fun p => (p_bet p, p_cost p)) ps in
  let net := Qsum (map (fun bk => stake_amount (fst bk) - gross_payout (fst bk)
                                  - promo_cost (snd bk) - payment_fee (snd bk)
                                  - tax (snd bk)) merged) in
  let promo := Qsum (map (fun bk => promo_cost (snd bk)) merged) in
  5 * inject_Z (Z.of_nat (length ps)) <= the_handle
  /\ ggr <= the_handle
  /\ net <= ggr - 0.012 * the_handle
  /\ 0 <= promo <= 0.14 * the_handle.
Proof.
  cbv zeta. induction 1 as [|p ps Hp _ IH]; cbn [map length].
  - unfold Qsum. cbn [fold_left]. change (inject_Z (Z.of_nat 0)) with 0.
    repeat split; lra.
  - rewrite !Qsum_cons. cbn [fst snd].
    destruct IH as (H1 & H2 & H3 & H4). destruct Hp as [S1 S2 S3 S4 S5].
    rewrite Nat2Z.inj_succ, <- Z.add_1_r, inject_Z_plus.
    change (inject_Z 1) with 1.
    repeat split; lra.
Qed.

Lemma promo_cap_le (wa : Z) : promo_cap wa <= 0.14.
Proof. unfold promo_cap. destruct (wa <? 8)%Z, (wa <? 20)%Z; lra. Qed.

Section Rows.
Context {RT : Runtime}.

Lemma bet_all_every (dim_event : list Event) (customers : list Customer)
    (seed : Z) (churn_cfg : option ChurnConfig) (r0 : PyRandom) :
  every_bet (fun c W wa p => bet_facts c wa p /\ cost_facts p /\ legs_facts W p)
            (load_events dim_event) (week_keys_of (load_events dim_event))
            (fst (simulate_ledger_log dim_event customers seed churn_cfg r0)).
Proof.
  apply simulate_ledger_log_every. intros c pe W wk_idx acc HW.
  apply always_and.
  - eapply always_weaken; [apply place_bet_facts|]. intros r [H _]. exact H.
  - eapply always_weaken; [apply (place_bet_more c pe W wk_idx acc HW)|].
    intros r (H1 & H2 & _). split; assumption.
Qed.

Lemma bet_payout_by_status (c : Customer) (W : list Event) (wa : Z) (p : Placed) :
  bet_facts c wa p -> legs_facts W p ->
  payout_by_status (stake_amount (p_bet p)) (gross_payout (p_bet p))
                   (status (p_bet p)).
Proof.
  intros Hbet Hlegs.
  pose proof (bf_settle _ _ _ Hbet) as Hs.
  pose proof (bf_stake_lo _ _ _ Hbet) as Hlo.
  pose proof (settle_bet_payout (bet_type (p_bet p)) (stake_amount (p_bet p))
                (map (fun l => (settled_result l, decimal_odds l)) (p_legs p))) as H.
  rewrite <- Hs in H. cbn [fst snd] in H. apply H; [lra|].
  apply Forall_map. eapply Forall_impl; [exact Hlegs|].
  intros l (ev & _ & Hl). cbn [snd]. rewrite (lf_decimal _ _ _ _ Hl).
  apply american_to_decimal_ge_1.
Qed.

Lemma bet_row_facts (c : Customer) (W : list Event) (wa : Z) (p : Placed) :
  bet_facts c wa p -> cost_facts p -> legs_facts W p -> row_facts p.
Proof.
  intros Hbet Hcost Hlegs.
  pose proof (bet_payout_by_status c W wa p Hbet Hlegs) as Hpay.
  pose proof (bf_stake_lo _ _ _ Hbet) as Hlo.
  pose proof (bf_promo_cap _ _ _ Hbet) as Hcap.
  pose proof (promo_cap_le wa) as Hle.
  destruct Hcost as [Hfee Htax Hpromo _].
  constructor.
  - exact Hlo.
  - unfold payout_by_status in Hpay.
    destruct (status (p_bet p)); [lra | rewrite Hpay; lra | lra].
  - split; [exact Hpromo|]. nra.
  - rewrite Hfee. reflexivity.
  - rewrite Htax.
    pose proof (py_max_ge_l 0.0 (stake_amount (p_bet p) - gross_payout (p_bet p))).
    lra.
Qed.

Lemma ledger_ids (dim_event : list Event) (customers : list Customer)
    (seed : Z) (churn_cfg : option ChurnConfig) (r0 : PyRandom) :
  let ps := all_placed (fst (simulate_ledger_log dim_event customers seed
                                                 churn_cfg r0)) in
  map bet_id (map p_bet ps) = py_range 1 (1 + Z.of_nat (length ps))
  /\ map bet_leg_id (flat_map p_legs ps)
     = py_range 1 (1 + Z.of_nat (length (flat_map p_legs ps)))
  /\ Forall (fun p => map leg_no (p_legs p)
                      = py_range 1 (1 + Z.of_nat (length (p_legs p)))) ps.
Proof.
  cbv zeta.
  destruct (simulate_ledger_log_ids dim_event customers seed churn_cfg r0)
    as [k' Hids].
  destruct (ids_from_ledger _ _ _ Hids) as (Hb & Hl & Hn). cbn [fst snd] in *.
  apply consecutive_py_range in Hb, Hl.
  rewrite length_map in Hl. do 2 rewrite length_map in Hb.
  split; [exact Hb|]. split; [exact Hl|].
  eapply Forall_impl; [exact Hn|]. intros p Hp.
  apply consecutive_py_range in Hp. rewrite length_map in Hp. exact Hp.
Qed.

End Rows.

(** ** The rows of the Monte Carlo runs *)

Lemma py_range_NoDup (lo hi : Z) : List.NoDup (py_range lo hi).
Proof.
  unfold py_range. generalize (seq_NoDup (Z.to_nat (hi - lo)) 0).
  induction 1 as [|k l Hnot _ IH]; cbn [map]; constructor; [|exact IH].
  intros Hin. apply in_map_iff in Hin as (k' & Hk & Hin).
  assert (k' = k) by lia. subst k'. contradiction.
Qed.

Lemma run_row_metrics (i cs ls : Z) (customers : list Customer) (ps : list Placed) :
  ps <> [] ->
  List.NoDup (map (fun p => bet_id (p_bet p)) ps) ->
  Forall (fun p => cost_bet_id (p_cost p) = bet_id (p_bet p)) ps ->
  Forall row_facts ps ->
  let row := run_row i cs ls customers (map p_bet ps) (map p_cost ps) in
  5 <= handle row
  /\ hold row <= 1
  /\ net_margin row <= hold row - 0.012
  /\ 0 <= row_promo_rate row <= 0.14.
Proof.
  intros Hne Hnd Hids Hfacts. cbv zeta. unfold run_row.
  cbn [handle hold net_margin row_promo_rate].
  rewrite (merged_pairs ps Hnd Hids).
  destruct (row_sums ps Hfacts) as (H1 & H2 & H3 & H4 & H5).
  set (H := Qsum (map stake_amount (map p_bet ps))) in *.
  set (G := Qsum (map (fun b => stake_amount b - gross_payout b) (map p_bet ps))) in *.
  set (N := Qsum (map _ (map (fun p => (p_bet p, p_cost p)) ps))) in H3 |- *.
  set (P := Qsum (map _ (map (fun p => (p_bet p, p_cost p)) ps))) in H4, H5 |- *.
  assert (Hlen : 1 <= inject_Z (Z.of_nat (length ps))).
  { change 1 with (inject_Z 1). rewrite <- Zle_Qle.
    destruct ps; [congruence | cbn [length]; lia]. }
  assert (H5' : 5 <= H) by lra.
  destruct (Qeq_bool H 0) eqn:E; [apply Qeq_bool_eq in E; lra|].
  cbn [negb].
  assert (Hhold : G / H <= 1) by (apply Qle_shift_div_r; lra).
  assert (Hnet : N / H <= (G - 0.012 * H) / H).
  { unfold Qdiv. apply Qmult_le_compat_r; [exact H3|].
    apply Qinv_le_0_compat. lra. }
  assert (Hsplit : (G - 0.012 * H) / H == G / H - 0.012) by (field; lra).
  assert (Hp0 : 0 <= P / H) by (apply Qle_shift_div_l; lra).
  assert (Hp1 : P / H <= 0.14) by (apply Qle_shift_div_r; lra).
  rewrite Hsplit in Hnet.
  repeat split; assumption.
Qed.

Section MoreRunTheorems.
Context {RT : Runtime}.

(** X12.  The rows of a run are numbered in the order they are appended:
    bet ids are 1, 2, ..., N down the bet ledger, leg ids 1, 2, ..., M
    down the leg ledger, and the i-th row of the cost ledger carries the
    id of the i-th bet, both as its own id and as its bet id.  So ids are
    unique, and bets and cost rows correspond one to one. *)
Theorem ledger_ids_are_consecutive (dim_event : list Event)
    (customers : list Customer) (seed : Z) (churn_cfg : option ChurnConfig)
    (r0 : PyRandom) :
  let L := fst (simulate_ledger dim_event customers seed churn_cfg r0) in
  map bet_id (bets_df L) = py_range 1 (1 + Z.of_nat (length (bets_df L)))
  /\ map bet_leg_id (legs_df L) = py_range 1 (1 + Z.of_nat (length (legs_df L)))
  /\ map cost_id (costs_df L) = map bet_id (bets_df L)
  /\ map cost_bet_id (costs_df L) = map bet_id (bets_df L).
Proof.
  cbv zeta. rewrite simulate_ledger_rows.
  unfold ledger_of, bets_df, legs_df, costs_df. cbn [fst snd].
  destruct (ledger_ids dim_event customers seed churn_cfg r0) as (Hb & Hl & _).
  rewrite length_map. split; [exact Hb|]. split; [exact Hl|].
  pose proof (bet_all_every dim_event customers seed churn_cfg r0) as Hall.
  apply (every_bet_weaken _
           (fun _ _ _ p => cost_id (p_cost p) = bet_id (p_bet p)
                           /\ cost_bet_id (p_cost p) = bet_id (p_bet p))) in Hall.
  - apply every_bet_all_placed in Hall. rewrite !map_map.
    split; apply map_ext_Forall; (eapply Forall_impl; [exact Hall|]);
      intros p [H1 H2]; assumption.
  - intros c W wa p (Hbet & Hcost & _).
    split; [apply (cf_cost_id _ Hcost) | apply (bf_cost_id _ _ _ Hbet)].
Qed.

(** X13.  The legs of every bet of a run are numbered 1, 2, ..., k in the
    order they are appended. *)
Theorem legs_numbered_from_one (dim_event : list Event)
    (customers : list Customer) (seed : Z) (churn_cfg : option ChurnConfig)
    (r0 : PyRandom) :
  Forall (fun p => map leg_no (p_legs p)
                   = py_range 1 (1 + Z.of_nat (length (p_legs p))))
         (all_placed (fst (simulate_ledger_log dim_event customers seed
                                               churn_cfg r0))).
Proof. apply ledger_ids. Qed.

(** X14.  Status and payout of every bet of the bet ledger agree: a lost
    bet pays nothing, a pushed bet returns the stake, and a won bet pays
    at least the stake; no payout is negative. *)
Theorem payout_agrees_with_status (dim_event : list Event)
    (customers : list Customer) (seed : Z) (churn_cfg : option ChurnConfig)
    (r0 : PyRandom) :
  Forall (fun b => payout_by_status (stake_amount b) (gross_payout b) (status b)
                   /\ 0 <= gross_payout b)
         (bets_df (fst (simulate_ledger dim_event customers seed churn_cfg r0))).
Proof.
  rewrite simulate_ledger_rows. unfold ledger_of, bets_df. cbn [fst].
  apply Forall_map.
  apply (every_bet_all_placed _ (load_events dim_event)
           (week_keys_of (load_events dim_event))).
  eapply every_bet_weaken; [|apply bet_all_every].
  intros c W wa p (Hbet & Hcost & Hlegs). cbv beta. split.
  - apply (bet_payout_by_status c W wa p Hbet Hlegs).
  - apply (rf_payout _ (bet_row_facts c W wa p Hbet Hcost Hlegs)).
Qed.

End MoreRunTheorems.

(** ** Retention *)

Lemma retention_ok_empty : retention_ok (∅ : Retention).
Proof.
  intros seg m H. unfold Retention in H. rewrite lookup_empty in H. discriminate.
Qed.

Lemma fold_Zadd_acc (l : list Z) (a : Z) :
  fold_left Z.add l a = (a + Zsum l)%Z.
Proof.
  unfold Zsum. revert a. induction l as [|x l IH]; intros a; cbn [fold_left].
  - lia.
  - rewrite (IH (a + x)%Z), (IH (0 + x)%Z). lia.
Qed.

Lemma Zsum_flags {A} (f : A -> Z) (l : list A) :
  (forall x, (0 <= f x <= 1)%Z) ->
  (0 <= Zsum (map f l) <= Z.of_nat (length l))%Z.
Proof.
  intros Hf. induction l as [|x l IH]; [cbn; lia|].
  unfold Zsum in *. cbn [map fold_left length]. rewrite fold_Zadd_acc.
  unfold Zsum. specialize (Hf x). lia.
Qed.

Lemma active_in_window_flag (bets : list BetRow) (c_id start_day end_day : Z) :
  (0 <= active_in_window bets c_id start_day end_day <= 1)%Z.
Proof. unfold active_in_window. destruct (existsb _ _); lia. Qed.

Lemma fraction_in_unit (k n : Z) :
  (0 <= k <= n)%Z -> (0 < n)%Z -> 0 <= inject_Z k / inject_Z n <= 1.
Proof.
  intros Hk Hn.
  assert (H0 : inject_Z 0 <= inject_Z k) by (rewrite <- Zle_Qle; lia).
  assert (H1 : inject_Z k <= inject_Z n) by (rewrite <- Zle_Qle; lia).
  assert (H2 : inject_Z 0 < inject_Z n) by (rewrite <- Zlt_Qlt; lia).
  change (inject_Z 0) with 0 in *.
  split; [apply Qle_shift_div_l | apply Qle_shift_div_r]; lra.
Qed.

Lemma segment_windows_ok (bets : list BetRow) (ids : list Z) :
  ids <> [] ->
  windows_ok
    (fold_left
       (fun (m : gmap string Q) kw =>
          <[fst kw :=
              inject_Z (Zsum (map (fun i => active_in_window bets i
                                               (fst (snd kw)) (snd (snd kw)))
                                  ids))
              / inject_Z (Z.of_nat (length ids))]> m)
       still_active_keys (∅ : gmap string Q)).
Proof.
  intros Hne.
  assert (Hn : (0 < Z.of_nat (length ids))%Z)
    by (destruct ids; [congruence | cbn [length]; lia]).
  assert (Hfrac : forall a b,
            0 <= inject_Z (Zsum (map (fun i => active_in_window bets i a b) ids))
                 / inject_Z (Z.of_nat (length ids)) <= 1).
  { intros a b. apply fraction_in_unit; [|exact Hn].
    apply Zsum_flags. intros i. apply active_in_window_flag. }
  unfold still_active_keys, windows_ok, retention_windows.
  cbn [fold_left fst snd]. split.
  - intros key. rewrite !lookup_insert_is_Some, lookup_empty, is_Some_alt.
    cbn [In]. split.
    + intros [-> | [_ [-> | [_ [-> | [_ [-> | [_ []]]]]]]]]; auto.
    + intros [<- | [<- | [<- | [<- | []]]]].
      * right. split; [discriminate|]. right. split; [discriminate|].
        right. split; [discriminate|]. left. reflexivity.
      * right. split; [discriminate|]. right. split; [discriminate|].
        left. reflexivity.
      * right. split; [discriminate|]. left. reflexivity.
      * left. reflexivity.
  - intros key v.
    rewrite !lookup_insert_Some, lookup_empty.
    intros [[_ <-] | [_ [[_ <-] | [_ [[_ <-] | [_ [[_ <-] | [_ H]]]]]]]];
      try apply Hfrac. discriminate.
Qed.

Lemma compute_still_active_retention_ok (bets : list BetRow)
    (customers : list Customer) :
  retention_ok (compute_still_active_retention bets customers).
Proof.
  unfold compute_still_active_retention. destruct bets as [|b0 bets'].
  { apply retention_ok_empty. }
  set (bets := b0 :: bets'). set (c_ids := remove_dups _).
  assert (Hgen : forall segs out,
            incl segs retention_segments -> retention_ok out ->
            retention_ok
              (fold_left
                 (fun (out : Retention) seg =>
                    let ids := List.filter
                                 (fun c_id =>
                                    match segment_of customers c_id with
                                    | Some sg => String.eqb sg seg
                                    | None => false
                                    end) c_ids in
                    match ids with
                    | [] => out
                    | _ :: _ =>
                        let n := inject_Z (Z.of_nat (length ids)) in
                        <[seg :=
                            fold_left
                              (fun (m : gmap string Q) kw =>
                                 <[fst kw :=
                                     inject_Z
                                       (Zsum (map (fun i => active_in_window bets i
                                                              (fst (snd kw))
                                                              (snd (snd kw)))
                                                  ids)) / n]> m)
                              still_active_keys (∅ : gmap string Q)]> out
                    end)
                 segs out)).
  { induction segs as [|s segs IH]; intros out Hincl Hout; [exact Hout|].
    cbn [fold_left]. apply IH; [intros x Hx; apply Hincl; right; exact Hx|].
    cbv zeta.
    destruct (List.filter _ c_ids) as [|i0 ids0] eqn:Hids; [exact Hout|].
    intros seg m Hlook. apply lookup_insert_Some in Hlook as [[<- <-] | [_ Hlook]].
    - split; [apply Hincl; left; reflexivity|].
      apply segment_windows_ok. discriminate.
    - apply Hout, Hlook. }
  apply Hgen; [apply incl_refl | apply retention_ok_empty].
Qed.

Lemma retention_ok_get (r : Retention) (seg key : string) :
  retention_ok r -> 0 <= retention_get r seg key <= 1.
Proof.
  intros Hok. specialize (Hok seg). unfold retention_get, dict_get.
  assert (Hcase : forall o : option (gmap string Q),
            (forall m, o = Some m -> In seg retention_segments /\ windows_ok m) ->
            0 <= default 0.0 (default (∅ : gmap string Q) o !! key) <= 1).
  { intros [m|] Hm; simpl.
    - destruct (Hm m eq_refl) as [_ [_ Hv]].
      destruct (m !! key) as [v|] eqn:Hkey; simpl; [eapply Hv, Hkey | lra].
    - rewrite lookup_empty. simpl. lra. }
  apply Hcase, Hok.
Qed.

(** X16.  The retention table has entries only for the four segments,
    each with exactly the four windows, and every value a caller reads
    from it (0.0 for a segment or window that is absent) is a fraction
    between 0 and 1.  Without bets the table is empty. *)
Theorem retention_values_are_fractions (bets : list BetRow)
    (customers : list Customer) :
  let r := compute_still_active_retention bets customers in
  (forall seg key, 0 <= retention_get r seg key <= 1)
  /\ (forall seg,
        match r !! seg with
        | Some m => In seg retention_segments
                    /\ forall key, is_Some (m !! key) <-> In key retention_windows
        | None => True
        end)
  /\ compute_still_active_retention [] customers = (∅ : Retention).
Proof.
  cbv zeta. pose proof (compute_still_active_retention_ok bets customers) as Hok.
  split; [|split; [|reflexivity]].
  - intros seg key. apply retention_ok_get, Hok.
  - intros seg. specialize (Hok seg).
    destruct (compute_still_active_retention bets customers !! seg) as [m|];
      [|exact I].
    destruct (Hok m eq_refl) as [Hin [Hdom _]]. split; assumption.
Qed.

(** ** Calibration *)

Lemma sq_nonneg (x : Q) : 0 <= x ^ 2.
Proof. change (x ^ 2) with (x * x). nra. Qed.

Lemma fold_squares_ge {A} (f : A -> Q) (l : list A) (a : Q) :
  a <= fold_left (fun score kv => score + f kv ^ 2) l a.
Proof.
  revert a. induction l as [|x l IH]; intros a; cbn [fold_left]; [lra|].
  pose proof (IH (a + f x ^ 2)). pose proof (sq_nonneg (f x)). lra.
Qed.

Lemma retention_score_nonneg (r : Retention) : 0 <= retention_score r.
Proof.
  unfold retention_score.
  assert (H : forall (tg : list (string * list (string * Q))) a,
            a <= fold_left
                   (fun score st =>
                      fold_left
                        (fun score kv =>
                           let sim := dict_get (dict_get r (fst st) (∅ : gmap string Q))
                                               (fst kv) 0.0 in
                           score + (sim - snd kv) ^ 2)
                        (snd st) score)
                   tg a).
  { induction tg as [|st tg IH]; intros a; cbn [fold_left]; [lra|].
    eapply Qle_trans; [|apply IH].
    apply (fold_squares_ge
             (fun kv => dict_get (dict_get r (fst st) (∅ : gmap string Q))
                                 (fst kv) 0.0 - snd kv)). }
  eapply Qle_trans; [|apply (H target 0.0)]. lra.
Qed.

Lemma candidate_cfg_untuned (base_cfg : ChurnConfig) (cell : Q * Q * Q * Q) :
  In cell grid ->
  untuned (candidate_cfg base_cfg cell) = untuned base_cfg
  /\ (inactivity_mult (candidate_cfg base_cfg cell) = 2.3
      \/ inactivity_mult (candidate_cfg base_cfg cell) = 2.7)
  /\ dom (base_weekly_churn (candidate_cfg base_cfg cell))
     = dom (base_weekly_churn base_cfg)
  /\ dom (mid_churn_mult (candidate_cfg base_cfg cell))
     = dom (mid_churn_mult base_cfg)
  /\ dom (tail_churn_mult (candidate_cfg base_cfg cell))
     = dom (tail_churn_mult base_cfg).
Proof.
  intros Hin. destruct cell as [[[a b] c] d].
  unfold candidate_cfg, untuned.
  cbn [alpha churn_plateau_mult early_churn_mult negative_net_mult
       promo_hunter_post_promo_mult promo_hunter_post_promo_weeks
       min_churn max_churn inactivity_mult base_weekly_churn
       mid_churn_mult tail_churn_mult].
  split; [reflexivity|]. split.
  - unfold grid in Hin. cbn [flat_map map app In] in Hin.
    repeat (destruct Hin as [Hin | Hin]; [inversion Hin; auto|]).
    destruct Hin.
  - rewrite !dom_fmap_L. auto.
Qed.

Section CalibrationFacts.
Context {RT : Runtime}.

(** X17.  The configuration [calibrate_churn_config] returns keeps every
    parameter of the base configuration that the grid does not tune
    (alpha, the plateau and early multipliers, the negative-net and
    post-promotion parameters, and the bounds [min_churn] and
    [max_churn]); its three scaled tables have the keys of the base
    tables; its inactivity multiplier is 2.3 or 2.7, whatever the base's
    was.  The diagnostics carry the target, a finite score that is not
    negative, and a retention whose values are fractions. *)
Theorem calibration_keeps_untuned_parameters (dim_event : list Event)
    (customers : list Customer) (base_cfg : ChurnConfig) (seed : Z)
    (r0 : PyRandom) :
  let cfg := fst (fst (calibrate_churn_config dim_event customers base_cfg seed r0)) in
  let diag := snd (fst (calibrate_churn_config dim_event customers base_cfg seed r0)) in
  untuned cfg = untuned base_cfg
  /\ (inactivity_mult cfg = 2.3 \/ inactivity_mult cfg = 2.7)
  /\ dom (base_weekly_churn cfg) = dom (base_weekly_churn base_cfg)
  /\ dom (mid_churn_mult cfg) = dom (mid_churn_mult base_cfg)
  /\ dom (tail_churn_mult cfg) = dom (tail_churn_mult base_cfg)
  /\ diag_target diag = target
  /\ (exists q, diag_score diag = Fin q /\ 0 <= q)
  /\ forall seg key, 0 <= retention_get (sample_achieved diag) seg key <= 1.
Proof.
  cbv zeta.
  set (sample := df_sample customers (Nat.min 1000 (length customers)) seed).
  destruct (pick_best_result (cell_score dim_event sample seed base_cfg)
              (cell_best dim_event sample seed base_cfg)
              (fun c => eq_refl) grid (Inf, base_cfg, (∅ : Retention)))
    as [[_ Hall] | (pre & cell & post & Hgrid & Hres & _)].
  { inversion Hall as [|? ? Hfalse _]. discriminate Hfalse. }
  assert (Hin : In cell grid) by (rewrite Hgrid; apply in_elt).
  unfold calibrate_churn_config, bind. fold sample.
  pose proof (search_pick_best dim_event sample seed base_cfg grid
                (Inf, base_cfg, (∅ : Retention)) r0) as Hs.
  rewrite Hres in Hs.
  destruct (search dim_event sample seed base_cfg grid
                   (Inf, base_cfg, (∅ : Retention)) r0) as [[[bs bc] br] s1].
  cbn [fst] in Hs. unfold cell_best in Hs. inversion Hs; subst bs bc br.
  cbn [fst snd ret diag_target diag_score sample_achieved].
  destruct (candidate_cfg_untuned base_cfg cell Hin) as (H1 & H2 & H3 & H4 & H5).
  repeat (split; [assumption|]).
  split; [reflexivity|]. split.
  - eexists. split; [reflexivity|]. apply retention_score_nonneg.
  - unfold cell_retention, evaluate_cfg, bind.
    destruct (simulate_ledger dim_event sample seed _ _) as [[[bets legs] costs] s2].
    cbn [fst ret]. intros seg key.
    apply retention_ok_get, compute_still_active_retention_ok.
Qed.

End CalibrationFacts.

(** ** The population *)

Lemma normalized_weights (m0 m1 m2 m3 : Q) :
  0.05 <= m0 -> 0.05 <= m1 -> 0.05 <= m2 -> 0.05 <= m3 ->
  let tot := Qsum [m0; m1; m2; m3] in
  0 < m0 / tot /\ 0 < m1 / tot /\ 0 < m2 / tot /\ 0 < m3 / tot
  /\ m0 / tot + m1 / tot + m2 / tot + m3 / tot == 1.
Proof.
  intros H0 H1 H2 H3. cbv zeta. unfold Qsum. cbn [fold_left].
  set (tot := 0 + m0 + m1 + m2 + m3).
  assert (Htot : 0 < tot) by (subst tot; lra).
  repeat split; try (apply Qlt_shift_div_l; lra).
  assert (E : m0 / tot + m1 / tot + m2 / tot + m3 / tot
              == (0 + m0 + m1 + m2 + m3) / tot) by (field; lra).
  rewrite E. fold tot. field. lra.
Qed.

Section Population.
Context {RT : Runtime}.

Lemma generate_customer_facts (cid : Z) :
  always (generate_customer cid)
         (fun c => customer_id c = cid /\ prefs_ok c).
Proof.
  unfold generate_customer.
  draw seg. draw fr. draw stake.
  apply always_bind with (P := fun ps => length (fst ps) = 4%nat).
  { apply always_ret.
    destruct (String.eqb seg "sharp"); [reflexivity|].
    destruct (String.eqb seg "promo_hunter"); [reflexivity|].
    destruct (String.eqb seg "regular"); reflexivity. }
  intros [prefs sens_range] Hlen. cbn [fst] in Hlen.
  destruct prefs as [|a [|b [|c [|d [|e prefs]]]]]; try discriminate.
  draw promo_sens. draw n0. draw n1. draw n2. draw n3.
  apply always_ret. cbn [combine map fst snd nth].
  split; [reflexivity|]. unfold prefs_ok.
  cbn [pref_moneyline pref_spread pref_total pref_parlay].
  apply normalized_weights; apply py_max_ge_r.
Qed.

Lemma generate_rows_facts (cids : list Z) :
  always (generate_rows cids)
         (fun cs => map customer_id cs = cids /\ Forall prefs_ok cs).
Proof.
  induction cids as [|cid rest IH]; cbn [generate_rows].
  - apply always_ret. split; [reflexivity | constructor].
  - eapply always_bind; [apply generate_customer_facts|]. intros c [Hid Hp].
    eapply always_bind; [apply IH|]. intros cs [Hids Hps].
    apply always_ret. cbn [map]. split; [now rewrite Hid, Hids | constructor; assumption].
Qed.

(** X18.  [generate_customers n seed] returns [n] customers (none for
    [n <= 0]) with the ids 1, 2, ..., n in order, so ids are distinct, and
    the four bet-type preferences of every customer are positive weights
    that sum to 1. *)
Theorem generate_customers_ids_and_weights (n_customers seed : Z) :
  let cs := generate_customers n_customers seed in
  map customer_id cs = py_range 1 (n_customers + 1)
  /\ length cs = Z.to_nat n_customers
  /\ List.NoDup (map customer_id cs)
  /\ Forall prefs_ok cs.
Proof.
  cbv zeta. unfold generate_customers.
  destruct (generate_rows_facts (py_range 1 (n_customers + 1))
                                (default_rng seed)) as [Hids Hps].
  split; [exact Hids|]. split; [|split; [|exact Hps]].
  - rewrite <- (length_map customer_id), Hids. unfold py_range.
    rewrite length_map, length_seq. f_equal. lia.
  - rewrite Hids. apply py_range_NoDup.
Qed.

End Population.

(** ** Sorting *)

Section InsertionSort.
Context {A : Type}.
Variable leb : A -> A -> bool.
Hypothesis leb_total : forall a b, leb a b = true \/ leb b a = true.
Hypothesis leb_trans :
  forall a b c, leb a b = true -> leb b c = true -> leb a c = true.

Lemma insert_by_sorted (x : A) (l : list A) :
  StronglySorted (fun a b => leb a b = true) l ->
  StronglySorted (fun a b => leb a b = true) (insert_by leb x l).
Proof.
  induction 1 as [|y l Hs IH Hall]; cbn [insert_by].
  - constructor; constructor.
  - destruct (leb x y) eqn:Hxy.
    + constructor; [constructor; assumption|].
      constructor; [exact Hxy|].
      eapply Forall_impl; [exact Hall|]. intros z Hz. eapply leb_trans; eassumption.
    + constructor; [exact IH|].
      apply (Permutation_Forall (Permutation_sym (insert_by_perm leb x l))).
      constructor; [|exact Hall].
      destruct (leb_total x y) as [H | H]; [congruence | exact H].
Qed.

Lemma sort_by_sorted (l : list A) :
  StronglySorted (fun a b => leb a b = true) (sort_by leb l).
Proof.
  unfold sort_by. induction l as [|x l IH]; cbn [fold_right].
  - constructor.
  - apply insert_by_sorted, IH.
Qed.

End InsertionSort.

Lemma StronglySorted_weaken {A} (R R' : A -> A -> Prop) (l : list A) :
  (forall a b, R a b -> R' a b) -> StronglySorted R l -> StronglySorted R' l.
Proof.
  intros HR. induction 1 as [|x l Hs IH Hall]; constructor; [exact IH|].
  eapply Forall_impl; [exact Hall|]. intros y. apply HR.
Qed.

Lemma key_leb_le (a b : WeekKey) :
  lex_leb [fst a; snd a] [fst b; snd b] = true <-> key_le a b.
Proof.
  unfold key_le. cbn [lex_leb].
  rewrite !orb_true_iff, !andb_true_iff, !orb_true_iff, !andb_true_iff.
  rewrite !Z.ltb_lt, !Z.eqb_eq. intuition lia.
Qed.

Lemma key_eqb_eq (a b : WeekKey) : key_eqb a b = true <-> a = b.
Proof.
  unfold key_eqb. rewrite andb_true_iff, !Z.eqb_eq.
  destruct a, b; cbn [fst snd]. split; [intros [-> ->]; reflexivity|].
  intros H; inversion H; auto.
Qed.

Lemma drop_duplicates_NoDup (l : list WeekKey) : List.NoDup (drop_duplicates l).
Proof.
  induction l as [|k l IH]; cbn [drop_duplicates]; constructor.
  - intros Hin. apply filter_In in Hin as [_ Hneq].
    rewrite key_eqb_refl in Hneq. discriminate.
  - apply List.NoDup_filter, IH.
Qed.

Lemma drop_duplicates_keeps (k : WeekKey) (l : list WeekKey) :
  In k l -> In k (drop_duplicates l).
Proof.
  induction l as [|k0 l IH]; cbn [drop_duplicates In]; [auto|].
  intros [-> | Hin]; [left; reflexivity|].
  destruct (key_eqb k0 k) eqn:E.
  - left. apply key_eqb_eq, E.
  - right. apply filter_In. split; [apply IH, Hin | now rewrite E].
Qed.

Lemma sorted_NoDup_strict (l : list WeekKey) :
  StronglySorted key_le l -> List.NoDup l -> StronglySorted key_lt l.
Proof.
  induction 1 as [|k l Hs IH Hall]; intros Hnd; constructor;
    inversion Hnd as [|? ? Hnot Hnd']; subst.
  - apply IH, Hnd'.
  - apply List.Forall_forall. intros x Hx.
    rewrite List.Forall_forall in Hall. specialize (Hall x Hx).
    assert (Hne : k <> x) by (intros ->; contradiction).
    unfold key_le, key_lt in *. destruct k as [k1 k2], x as [x1 x2].
    cbn [fst snd] in *.
    destruct Hall as [H | [H1 H2]]; [left; exact H|].
    right. split; [exact H1|].
    assert (k2 <> x2) by (intros ->; apply Hne; now rewrite H1). lia.
Qed.

(** X19.  The calendar of a run: [load_events] keeps exactly the events
    of [dim_event] from season 2010 on that have a week; the week keys
    are exactly the [(season, week)] pairs of those events, listed once
    each in strictly increasing calendar order; and every week key has at
    least one event. *)
Theorem week_keys_strictly_increasing (dim_event : list Event) :
  let events := load_events dim_event in
  (forall ev, In ev events
              <-> In ev dim_event /\ (2010 <= season ev)%Z /\ is_Some (week ev))
  /\ (forall k, In k (week_keys_of events)
                <-> exists ev, In ev events /\ key_of ev = k)
  /\ StronglySorted key_lt (week_keys_of events)
  /\ Forall (fun k => events_by_week events k <> []) (week_keys_of events).
Proof.
  cbv zeta. split; [|split; [|split]].
  - intros ev. unfold load_events.
    split.
    + intros Hin. apply (Permutation_in _ (sort_by_perm _ _)) in Hin.
      apply filter_In in Hin as [Hin Hok].
      apply andb_true_iff in Hok as [Hs Hw].
      apply Z.leb_le in Hs. apply bool_decide_eq_true in Hw. auto.
    + intros (Hin & Hs & Hw).
      apply (Permutation_in _ (Permutation_sym (sort_by_perm _ _))).
      apply filter_In. split; [exact Hin|].
      apply andb_true_iff. split; [apply Z.leb_le, Hs|].
      apply bool_decide_eq_true, Hw.
  - intros k. unfold week_keys_of. split.
    + intros Hin. apply (Permutation_in _ (sort_by_perm _ _)) in Hin.
      apply drop_duplicates_In in Hin. apply in_map_iff in Hin as (ev & Hk & Hev).
      eauto.
    + intros (ev & Hev & Hk).
      apply (Permutation_in _ (Permutation_sym (sort_by_perm _ _))).
      apply drop_duplicates_keeps. rewrite <- Hk. apply in_map, Hev.
  - apply sorted_NoDup_strict.
    + unfold week_keys_of.
      eapply StronglySorted_weaken;
        [|apply (sort_by_sorted
                   (fun a b : WeekKey => lex_leb [fst a; snd a] [fst b; snd b]))].
      * intros a b H. apply key_leb_le, H.
      * intros a b. rewrite !key_leb_le. unfold key_le. lia.
      * intros a b c. rewrite !key_leb_le. unfold key_le. lia.
    + unfold week_keys_of.
      eapply Permutation_NoDup; [apply Permutation_sym, sort_by_perm|].
      apply drop_duplicates_NoDup.
  - apply List.Forall_forall. intros k Hk. apply week_key_has_events, Hk.
Qed.

(** ** References between the ledgers, and main *)

Lemma in_all_placed (p : Placed) (logs : list (Customer * list WeekLog)) :
  In p (all_placed logs) ->
  exists cl e, In cl logs /\ In e (snd cl) /\ In p (placed_of (wl_outcome e)).
Proof.
  unfold all_placed. intros Hin.
  apply in_flat_map in Hin as (cl & Hcl & Hin).
  apply in_flat_map in Hin as (e & He & Hin). eauto.
Qed.

Section References.
Context {RT : Runtime}.

Lemma simulate_ledger_references (dim_event : list Event)
    (customers : list Customer) (seed : Z) (churn_cfg : option ChurnConfig)
    (r0 : PyRandom) :
  references_ok customers
    (fst (simulate_ledger dim_event customers seed churn_cfg r0)).
Proof.
  rewrite simulate_ledger_rows.
  pose proof (bet_all_every dim_event customers seed churn_cfg r0) as Hall.
  destruct (simulate_ledger_log_facts dim_event customers seed churn_cfg r0)
    as [Hmap _].
  set (logs := fst (simulate_ledger_log dim_event customers seed churn_cfg r0)) in *.
  unfold references_ok, ledger_of, bets_df, legs_df, costs_df. cbn [fst snd].
  unfold every_bet in Hall. rewrite List.Forall_forall in Hall.
  assert (Hp : forall p, In p (all_placed logs) ->
                 In (bet_customer_id (p_bet p)) (map customer_id customers)
                 /\ cost_bet_id (p_cost p) = bet_id (p_bet p)
                 /\ Forall (fun l => leg_bet_id l = bet_id (p_bet p)) (p_legs p)).
  { intros p Hin. apply in_all_placed in Hin as (cl & e & Hcl & He & Hin).
    specialize (Hall cl Hcl). rewrite List.Forall_forall in Hall.
    specialize (Hall e He). rewrite List.Forall_forall in Hall.
    destruct (Hall p Hin) as (Hbet & _ & Hlegs).
    split; [|split].
    - rewrite (bf_customer _ _ _ Hbet), <- Hmap, map_map.
      apply (in_map (fun x => customer_id (fst x))), Hcl.
    - apply (bf_cost_id _ _ _ Hbet).
    - eapply Forall_impl; [exact Hlegs|].
      intros l (ev & _ & Hl). apply (lf_bet _ _ _ _ Hl). }
  split; [|split].
  - apply List.Forall_forall. intros b Hb.
    apply in_map_iff in Hb as (p & <- & Hin). apply Hp, Hin.
  - apply List.Forall_forall. intros l Hl.
    apply in_flat_map in Hl as (p & Hin & Hl).
    destruct (Hp p Hin) as (_ & _ & Hlegs).
    rewrite List.Forall_forall in Hlegs. rewrite (Hlegs l Hl).
    apply in_map, in_map, Hin.
  - apply List.Forall_forall. intros k Hk.
    apply in_map_iff in Hk as (p & <- & Hin).
    destruct (Hp p Hin) as (_ & -> & _). apply in_map, in_map, Hin.
Qed.

(** X20.  The three ledgers of a run refer only to rows that exist: the
    customer of every bet is a customer of the population given, and the
    bet of every leg and of every cost row is a bet of the bet ledger. *)
Theorem ledger_references_exist (dim_event : list Event)
    (customers : list Customer) (seed : Z) (churn_cfg : option ChurnConfig)
    (r0 : PyRandom) :
  let L := fst (simulate_ledger dim_event customers seed churn_cfg r0) in
  Forall (fun b => In (bet_customer_id b) (map customer_id customers)) (bets_df L)
  /\ Forall (fun l => In (leg_bet_id l) (map bet_id (bets_df L))) (legs_df L)
  /\ Forall (fun k => In (cost_bet_id k) (map bet_id (bets_df L))) (costs_df L).
Proof. apply simulate_ledger_references. Qed.

Lemma calibrated_bounds (dim_event : list Event) (customers : list Customer)
    (base_cfg : ChurnConfig) (seed : Z) (r0 : PyRandom) :
  untuned (fst (fst (calibrate_churn_config dim_event customers base_cfg seed r0)))
  = untuned base_cfg.
Proof.
  set (sample := df_sample customers (Nat.min 1000 (length customers)) seed).
  destruct (pick_best_result (cell_score dim_event sample seed base_cfg)
              (cell_best dim_event sample seed base_cfg)
              (fun c => eq_refl) grid (Inf, base_cfg, (∅ : Retention)))
    as [[_ Hall] | (pre & cell & post & Hgrid & Hres & _)].
  { inversion Hall as [|? ? Hfalse _]. discriminate Hfalse. }
  assert (Hin : In cell grid) by (rewrite Hgrid; apply in_elt).
  unfold calibrate_churn_config, bind. fold sample.
  pose proof (search_pick_best dim_event sample seed base_cfg grid
                (Inf, base_cfg, (∅ : Retention)) r0) as Hs.
  rewrite Hres in Hs.
  destruct (search dim_event sample seed base_cfg grid
                   (Inf, base_cfg, (∅ : Retention)) r0) as [[[bs bc] br] s1].
  cbn [fst] in Hs. unfold cell_best in Hs. inversion Hs; subst bs bc br.
  cbn [fst snd ret]. apply (candidate_cfg_untuned base_cfg cell Hin).
Qed.

(** X21.  What [main] builds, with or without calibration: a population
    of 1600 customers with the ids 1 to 1600; a churn configuration
    whose clamp bounds are those of the default configuration,
    [min_churn = 0.006] and [max_churn = 0.65], hence in order; and a
    ledger, simulated for that population under that configuration,
    every bet of which is placed by one of the 1600 customers. *)
Theorem main_build_is_consistent (dim_event : list Event)
    (skip_calibration : bool) (customer_seed ledger_seed : Z) (r0 : PyRandom) :
  let '(customers, churn_cfg, L) :=
    fst (main_build dim_event skip_calibration customer_seed ledger_seed r0) in
  map customer_id customers = py_range 1 1601
  /\ min_churn churn_cfg = 0.006 /\ max_churn churn_cfg = 0.65
  /\ L = fst (simulate_ledger dim_event customers ledger_seed (Some churn_cfg)
                              (random_seed ledger_seed))
  /\ Forall (fun b => (1 <= bet_customer_id b <= 1600)%Z) (bets_df L).
Proof.
  unfold main_build.
  set (customers := generate_customers 1600 customer_seed).
  assert (Hids : map customer_id customers = py_range 1 1601).
  { subst customers. unfold generate_customers.
    apply (generate_rows_facts (py_range 1 (1600 + 1)) (default_rng customer_seed)). }
  assert (Hmain : forall (m : St PyRandom ChurnConfig),
            (forall r, min_churn (fst (m r)) = 0.006 /\ max_churn (fst (m r)) = 0.65) ->
            let '(cs, cfg, L) :=
              fst ((let* churn_cfg := m in
                    let* ledger := simulate_ledger dim_event customers ledger_seed
                                                   (Some churn_cfg) in
                    ret (customers, churn_cfg, ledger)) r0) in
            map customer_id cs = py_range 1 1601
            /\ min_churn cfg = 0.006 /\ max_churn cfg = 0.65
            /\ L = fst (simulate_ledger dim_event cs ledger_seed (Some cfg)
                                        (random_seed ledger_seed))
            /\ Forall (fun b => (1 <= bet_customer_id b <= 1600)%Z) (bets_df L)).
  { intros m Hm. unfold bind at 1. specialize (Hm r0).
    destruct (m r0) as [cfg r1]. cbn [fst] in Hm.
    unfold bind.
    pose proof (simulate_ledger_references dim_event customers ledger_seed
                  (Some cfg) r1) as (Hrefs & _).
    destruct (simulate_ledger dim_event customers ledger_seed (Some cfg) r1)
      as [L r2] eqn:HL.
    cbn [fst ret] in *. destruct Hm as [Hmin Hmax].
    split; [exact Hids|]. split; [exact Hmin|]. split; [exact Hmax|]. split.
    - rewrite (simulate_ledger_reseeds _ _ _ _ (random_seed ledger_seed) r1), HL.
      reflexivity.
    - eapply Forall_impl; [exact Hrefs|]. intros b Hb. cbv beta in Hb.
      rewrite Hids in Hb. apply py_range_In in Hb. lia. }
  apply Hmain. intros r.
  destruct skip_calibration; cbn [negb].
  - split; reflexivity.
  - unfold bind.
    pose proof (calibrated_bounds dim_event customers DEFAULT_CHURN_CONFIG
                  ledger_seed r) as Hb.
    destruct (calibrate_churn_config dim_event customers DEFAULT_CHURN_CONFIG
                                     ledger_seed r) as [[cfg diag] r1].
    cbn [fst ret] in *. unfold untuned in Hb. inversion Hb as [[H1 H2 H3 H4 H5 H6 H7 H8]].
    rewrite H7, H8. split; reflexivity.
Qed.

End References.

(** ** The promotion history *)

Lemma sorted_snoc (l : list Z) (x : Z) :
  StronglySorted Z.lt l -> Forall (fun w => (w < x)%Z) l ->
  StronglySorted Z.lt (l ++ [x]).
Proof.
  induction 1 as [|y l Hs IH Hall]; intros Hlt; cbn [app].
  - constructor; constructor.
  - inversion Hlt as [|? ? Hy Hl]; subst.
    constructor; [apply IH, Hl|].
    apply Forall_app. split; [exact Hall | constructor; [exact Hy | constructor]].
Qed.

Lemma history_step (idx : Z) (st st' : CustomerRunState) (out : WeekOutcome) :
  history_ok idx st -> promo_week idx st out st' -> history_ok (idx + 1) st'.
Proof.
  intros (Hs & Hall & Hlast) [(_ & H1 & H2) | (H1 & H2 & _)]; unfold history_ok.
  - rewrite H1, H2. split; [exact Hs|]. split; [|exact Hlast].
    eapply Forall_impl; [exact Hall|]. intros w Hw. cbv beta in Hw. lia.
  - rewrite H1, H2. split; [apply sorted_snoc; assumption|]. split.
    + apply Forall_app. split.
      * eapply Forall_impl; [exact Hall|]. intros w Hw. cbv beta in Hw. lia.
      * constructor; [lia | constructor].
    + rewrite last_snoc. reflexivity.
Qed.

Lemma chained_next (log : list WeekLog) :
  forall st k e e',
    chained st log -> nth_error log k = Some e ->
    nth_error log (S k) = Some e' -> wl_before e' = wl_after e.
Proof.
  induction log as [|e0 rest IH]; intros st k e e' Hch Hk Hk'.
  - destruct k; discriminate.
  - destruct Hch as [_ Hch]. destruct k as [|k].
    + injection Hk as <-. cbn in Hk'. destruct rest as [|e1 rest]; [discriminate|].
      injection Hk' as <-. apply Hch.
    + cbn in Hk, Hk'. eapply IH; eauto.
Qed.

Lemma nth_error_pred {A} (l : list A) (k : nat) (x : A) :
  nth_error l (S k) = Some x -> exists y, nth_error l k = Some y.
Proof.
  intros H. destruct (nth_error l k) eqn:E; [eauto|].
  apply nth_error_None in E.
  assert (Hs : nth_error l (S k) <> None) by congruence.
  apply nth_error_Some in Hs. lia.
Qed.

Lemma log_history (events : list Event) (week_keys : list WeekKey)
    (log : list WeekLog) :
  log_facts events week_keys log ->
  forall k e, nth_error log k = Some e ->
    history_ok (wl_wk_idx e) (wl_before e)
    /\ history_ok (wl_wk_idx e + 1) (wl_after e).
Proof.
  intros (start & Hstart & Hchain & _ & _ & Hpos).
  assert (Hbefore : forall k e, nth_error log k = Some e ->
                      history_ok (wl_wk_idx e) (wl_before e)).
  { induction k as [|k IH]; intros e Hk.
    - destruct log as [|e0 rest]; [discriminate|]. injection Hk as <-.
      destruct Hchain as [-> _]. unfold history_ok. cbn.
      repeat split; constructor.
    - destruct (nth_error_pred _ _ _ Hk) as [e0 Hk0].
      rewrite (chained_next log _ k e0 e Hchain Hk0 Hk).
      destruct (Hpos k e0 Hk0) as (Hidx0 & _ & _ & _ & _ & Hweek & _).
      destruct (Hpos (S k) e Hk) as (Hidx & _).
      replace (wl_wk_idx e) with (wl_wk_idx e0 + 1)%Z by lia.
      apply (history_step (wl_wk_idx e0) (wl_before e0) (wl_after e0)
                          (wl_outcome e0) (IH e0 Hk0) (wf_promo _ _ _ _ _ Hweek)). }
  intros k e Hk. split; [apply (Hbefore k e Hk)|].
  destruct (Hpos k e Hk) as (_ & _ & _ & _ & _ & Hweek & _).
  apply (history_step (wl_wk_idx e) (wl_before e) (wl_after e)
                      (wl_outcome e) (Hbefore k e Hk) (wf_promo _ _ _ _ _ Hweek)).
Qed.

Section PromoHistory.
Context {RT : Runtime}.

(** X22.  After every executed week the customer's promotion history is
    a list of weeks in strictly increasing order, none later than the
    week just executed, and [last_promo_week_idx] is its last element
    (none when it is empty).  A week in which a bet carries a
    promotional cost is recorded: it is the last promotion week
    afterwards, and the promotion effect then lasts at least two more
    weeks. *)
Theorem promo_history_is_recorded (dim_event : list Event)
    (customers : list Customer) (seed : Z) (churn_cfg : option ChurnConfig)
    (r0 : PyRandom) :
  Forall (fun cl =>
    Forall (fun e =>
              StronglySorted Z.lt (promo_week_history (wl_after e))
              /\ Forall (fun w => (w <= wl_wk_idx e)%Z)
                        (promo_week_history (wl_after e))
              /\ last_promo_week_idx (wl_after e)
                 = last (promo_week_history (wl_after e))
              /\ ((0 < count_promos (placed_of (wl_outcome e)))%nat ->
                  last_promo_week_idx (wl_after e) = Some (wl_wk_idx e)
                  /\ (2 <= promo_effect_weeks_remaining (wl_after e))%Z))
           (snd cl))
    (fst (simulate_ledger_log dim_event customers seed churn_cfg r0)).
Proof.
  destruct (simulate_ledger_log_facts dim_event customers seed churn_cfg r0)
    as [_ Hall].
  eapply Forall_impl; [exact Hall|].
  intros cl Hlog. apply Forall_of_nth_error. intros k e Hk.
  destruct (log_history _ _ _ Hlog k e Hk) as [_ (Hs & Hlt & Hlast)].
  destruct Hlog as (start & _ & _ & _ & _ & Hpos).
  destruct (Hpos k e Hk) as (_ & _ & _ & _ & _ & Hweek & _).
  split; [exact Hs|]. split; [|split; [exact Hlast|]].
  - eapply Forall_impl; [exact Hlt|]. intros w Hw. cbv beta in Hw. lia.
  - intros Hcount.
    destruct (wf_promo _ _ _ _ _ Hweek) as [(Hzero & _) | (H1 & _ & H2)];
      [lia | auto].
Qed.

End PromoHistory.

(** ** Average odds (simulate_ledger, lines 638-661) *)

Lemma Qsum_ge_length (l : list Q) :
  Forall (fun x => 1 <= x) l -> inject_Z (Z.of_nat (length l)) <= Qsum l.
Proof.
  induction 1 as [|x l Hx _ IH].
  - unfold Qsum. cbn [fold_left length]. change (inject_Z (Z.of_nat 0)) with 0. lra.
  - rewrite Qsum_cons. cbn [length].
    rewrite Nat2Z.inj_succ, <- Z.add_1_r, inject_Z_plus.
    change (inject_Z 1) with 1. lra.
Qed.

Lemma settle_bet_avg_odds (bt : BetType) (stake : Q) (rs : list (Settled * Q)) :
  rs <> [] -> Forall (fun rd => 1 <= snd rd) rs ->
  1 <= snd (settle_bet bt stake rs).
Proof.
  intros Hne Hall. unfold settle_bet.
  destruct (BetType_eqb bt parlay).
  - assert (Havg : 1 <= Qsum (map snd rs) / inject_Z (Z.of_nat (length rs))).
    { assert (Hlen : 0 < inject_Z (Z.of_nat (length rs))).
      { change 0 with (inject_Z 0). rewrite <- Zlt_Qlt.
        destruct rs; [congruence | cbn [length]; lia]. }
      apply Qle_shift_div_l; [exact Hlen|].
      pose proof (Qsum_ge_length (map snd rs)) as H.
      rewrite length_map in H. rewrite Qmult_1_l. apply H.
      apply Forall_map. exact Hall. }
    destruct (existsb _ rs); exact Havg.
  - destruct rs as [|[r dec] rs]; [congruence|].
    inversion Hall as [|? ? Hrd _]; subst. cbn [snd] in Hrd.
    destruct r; exact Hrd.
Qed.

Lemma legs_rule_nonempty (W : list Event) (p : Placed) :
  W <> [] -> legs_rule W p -> p_legs p <> [].
Proof.
  intros HW Hrule Hnil. unfold legs_rule in Hrule. rewrite Hnil in Hrule.
  cbn [length] in Hrule.
  assert (Hlen : (0 < length W)%nat) by (destruct W; [congruence | cbn; lia]).
  assert (Hfilter : forall ev0, In ev0 W ->
            0%nat = length (List.filter (fun e => (event_id e =? event_id ev0)%Z) W)
            -> False).
  { intros ev0 Hin H0.
    assert (Hf : In ev0 (List.filter (fun e => (event_id e =? event_id ev0)%Z) W))
      by (apply filter_In; split; [exact Hin | apply Z.eqb_refl]).
    destruct (List.filter _ W); [destruct Hf | discriminate]. }
  destruct (bet_type (p_bet p)).
  - destruct Hrule as (ev0 & Hin & H0). eapply Hfilter; eassumption.
  - destruct Hrule as (ev0 & Hin & H0). eapply Hfilter; eassumption.
  - destruct Hrule as (ev0 & Hin & H0). eapply Hfilter; eassumption.
  - destruct Hrule as (n & Hn & H0). lia.
Qed.

Lemma run_row_retention (i cs ls : Z) (customers : list Customer)
    (bets : list BetRow) (costs : list CostRow) :
  length (row_retention (run_row i cs ls customers bets costs)) = 16%nat
  /\ Forall (fun kv => 0 <= snd kv <= 1)
            (row_retention (run_row i cs ls customers bets costs)).
Proof.
  unfold run_row. cbn [row_retention]. split; [reflexivity|].
  pose proof (compute_still_active_retention_ok bets customers) as Hok.
  cbn [flat_map map app snd].
  repeat (constructor; [apply (retention_ok_get _ _ _ Hok)|]). constructor.
Qed.

Section LastRunTheorems.
Context {RT : Runtime}.

(** X23.  Every bet of a run has at least one leg, also when event ids
    repeat in [dim_event]; so settlement always finds a first leg and the
    average of a parlay's odds never divides by zero.  The average
    decimal odds stored with a bet are at least 1. *)
Theorem every_bet_has_a_leg (dim_event : list Event)
    (customers : list Customer) (seed : Z) (churn_cfg : option ChurnConfig)
    (r0 : PyRandom) :
  Forall (fun p => p_legs p <> [] /\ 1 <= odds_decimal_avg (p_bet p))
         (all_placed (fst (simulate_ledger_log dim_event customers seed
                                               churn_cfg r0))).
Proof.
  apply (every_bet_all_placed _ (load_events dim_event)
           (week_keys_of (load_events dim_event))).
  eapply every_bet_weaken;
    [|apply (simulate_ledger_log_every
               (fun c W wa p => (W <> [] /\ legs_rule W p)
                                /\ bet_facts c wa p /\ legs_facts W p))].
  - intros c W wa p ([HW Hrule] & Hbet & Hlegs). cbv beta.
    pose proof (legs_rule_nonempty W p HW Hrule) as Hne.
    split; [exact Hne|].
    pose proof (bf_settle _ _ _ Hbet) as Hs.
    pose proof (settle_bet_avg_odds (bet_type (p_bet p)) (stake_amount (p_bet p))
                  (map (fun l => (settled_result l, decimal_odds l)) (p_legs p)))
      as H.
    rewrite <- Hs in H. cbn [snd] in H. apply H.
    + destruct (p_legs p); [congruence | discriminate].
    + apply Forall_map. eapply Forall_impl; [exact Hlegs|].
      intros l (ev & _ & Hl). cbn [snd]. rewrite (lf_decimal _ _ _ _ Hl).
      apply american_to_decimal_ge_1.
  - intros c pe W wk_idx acc HW. apply always_and; [|apply always_and].
    + eapply always_weaken; [apply place_bet_legs, HW|].
      intros r Hr. split; assumption.
    + eapply always_weaken; [apply place_bet_facts|]. intros r [H _]. exact H.
    + eapply always_weaken; [apply (place_bet_more c pe W wk_idx acc HW)|].
      intros r (_ & H & _). exact H.
Qed.

(** X15.  Every row of the Monte Carlo runs has a handle of at least 5,
    a hold of at most 1, a net margin at most the hold less the 1.2%
    payment fee, and a promotion rate between 0 and 0.14; it carries 16
    retention values, each a fraction between 0 and 1. *)
Theorem monte_carlo_row_metrics (dim_event : list Event) (churn_cfg : ChurnConfig)
    (runs n_customers customer_seed0 ledger_seed0 : Z) (r0 : PyRandom) :
  Forall (fun row => 5 <= handle row
                     /\ hold row <= 1
                     /\ net_margin row <= hold row - 0.012
                     /\ 0 <= row_promo_rate row <= 0.14
                     /\ length (row_retention row) = 16%nat
                     /\ Forall (fun kv => 0 <= snd kv <= 1) (row_retention row))
         (fst (monte_carlo_runs dim_event churn_cfg runs n_customers
                                customer_seed0 ledger_seed0 r0)).
Proof.
  unfold monte_carlo_runs. rewrite run_loop_rows.
  apply List.Forall_forall. intros row Hrow.
  apply in_flat_map in Hrow as (i & _ & Hrow).
  unfold rows_of_run in Hrow. rewrite simulate_ledger_rows in Hrow.
  match type of Hrow with
  | context [simulate_ledger_log ?d ?cs ?sd ?cf ?r] =>
      pose proof (ledger_ids d cs sd cf r) as (Hids & _);
      pose proof (bet_all_every d cs sd cf r) as Hall;
      set (logs := fst (simulate_ledger_log d cs sd cf r)) in *
  end.
  apply (every_bet_weaken _
           (fun _ _ _ p => cost_bet_id (p_cost p) = bet_id (p_bet p)
                           /\ row_facts p)) in Hall.
  2:{ intros c W wa p (Hbet & Hcost & Hlegs).
      split; [apply (bf_cost_id _ _ _ Hbet)
             | apply (bet_row_facts c W wa p Hbet Hcost Hlegs)]. }
  apply every_bet_all_placed in Hall.
  unfold ledger_of in Hrow. set (ps := all_placed logs) in *.
  assert (Hnd : List.NoDup (map (fun p => bet_id (p_bet p)) ps))
    by (rewrite <- (map_map p_bet bet_id), Hids; apply py_range_NoDup).
  clear Hids.
  assert (Hne : ps <> []) by (intros E; rewrite E in Hrow; destruct Hrow).
  destruct (map p_bet ps) as [|b0 bs] eqn:Hb; [destruct Hrow|].
  destruct (map p_cost ps) as [|k0 ks] eqn:Hk; [destruct Hrow|].
  destruct Hrow as [<- | []]. rewrite <- Hb, <- Hk.
  match goal with
  | |- context [run_row ?i ?a ?b ?cs _ _] =>
      destruct (run_row_retention i a b cs (map p_bet ps) (map p_cost ps))
        as [Hlen Hret];
      destruct (run_row_metrics i a b cs ps) as (H1 & H2 & H3 & H4 & H5)
  end.
  - exact Hne.
  - exact Hnd.
  - eapply Forall_impl; [exact Hall|]. intros p [H _]. exact H.
  - eapply Forall_impl; [exact Hall|]. intros p [_ H]. exact H.
  - repeat split; assumption.
Qed.

End LastRunTheorems.

(** ** A calendar without events *)

Lemma load_events_none (dim_event : list Event) :
  Forall (fun ev => (season ev < 2010)%Z \/ week ev = None) dim_event ->
  load_events dim_event = [].
Proof.
  intros Hall. unfold load_events.
  replace (List.filter _ dim_event) with (@nil Event); [reflexivity|].
  symmetry. induction Hall as [|ev l Hev _ IH]; [reflexivity|].
  cbn [List.filter]. rewrite IH.
  destruct Hev as [Hs | Hw].
  - replace (2010 <=? season ev)%Z with false by (symmetry; apply Z.leb_gt; lia).
    reflexivity.
  - rewrite Hw, andb_comm. reflexivity.
Qed.

Lemma all_placed_no_week (logs : list (Customer * list WeekLog)) :
  Forall (fun cl => snd cl = []) logs -> all_placed logs = [].
Proof.
  unfold all_placed. induction 1 as [|cl logs Hcl _ IH]; [reflexivity|].
  cbn [flat_map]. rewrite Hcl, IH. reflexivity.
Qed.

Section EmptyCalendar.
Context {RT : Runtime}.

Lemma simulate_ledger_no_events (dim_event : list Event)
    (customers : list Customer) (seed : Z) (churn_cfg : option ChurnConfig)
    (r0 : PyRandom) :
  load_events dim_event = [] ->
  fst (simulate_ledger dim_event customers seed churn_cfg r0) = ([], [], []).
Proof.
  intros Hload. rewrite simulate_ledger_rows.
  destruct (simulate_ledger_log_facts dim_event customers seed churn_cfg r0)
    as [_ Hall].
  unfold ledger_of. rewrite all_placed_no_week; [reflexivity|].
  eapply Forall_impl; [exact Hall|].
  intros cl (start & _ & _ & Hnil & _). apply Hnil.
  rewrite Hload. reflexivity.
Qed.

(** X24.  On an event table without any game from season 2010 on that
    has a week, the ledger simulator returns three empty ledgers, and
    the Monte Carlo harness returns no row, whatever the number of
    runs. *)
Theorem empty_calendar_gives_empty_run (dim_event : list Event)
    (customers : list Customer) (seed : Z) (churn_cfg : option ChurnConfig)
    (cfg : ChurnConfig) (runs n_customers customer_seed0 ledger_seed0 : Z)
    (r0 r1 : PyRandom) :
  Forall (fun ev => (season ev < 2010)%Z \/ week ev = None) dim_event ->
  fst (simulate_ledger dim_event customers seed churn_cfg r0) = ([], [], [])
  /\ fst (monte_carlo_runs dim_event cfg runs n_customers
                           customer_seed0 ledger_seed0 r1) = [].
Proof.
  intros Hall. pose proof (load_events_none dim_event Hall) as Hload.
  split; [apply simulate_ledger_no_events, Hload|].
  unfold monte_carlo_runs. rewrite run_loop_rows.
  induction (py_range 0 runs) as [|i idxs IH]; [reflexivity|].
  cbn [flat_map]. rewrite IH, app_nil_r.
  unfold rows_of_run. rewrite (simulate_ledger_no_events _ _ _ _ _ Hload).
  reflexivity.
Qed.

End EmptyCalendar.

(** ** The sustained payback week *)

Lemma nth_middle_app {A} (pre : list A) (x : A) (rest : list A) (d : A) :
  nth (length pre) (pre ++ x :: rest) d = x.
Proof. rewrite app_nth2 by lia. rewrite Nat.sub_diag. reflexivity. Qed.

Lemma payback_loop_spec (weeks : list Z) (gaps : list (option Q)) (cw : Z) :
  (1 <= cw)%Z -> length weeks = length gaps ->
  forall rest pre s,
    gaps = pre ++ rest ->
    (0 <= s < cw)%Z -> (s <= Z.of_nat (length pre))%Z ->
    (forall j : nat, (Z.of_nat (length pre) - s <= Z.of_nat j)%Z ->
                     (j < length pre)%nat ->
                     gap_ge_0 (nth j gaps None) = true) ->
    (forall i : nat, (Z.of_nat i < Z.of_nat (length pre) - s)%Z ->
                     ~ sustained_from gaps cw i) ->
    match payback_loop weeks cw rest (Z.of_nat (length pre)) s with
    | PaybackWeek w =>
        exists i, nth_error weeks i = Some w
                  /\ sustained_from gaps cw i
                  /\ forall i', (i' < i)%nat -> ~ sustained_from gaps cw i'
    | NoPayback => forall i, ~ sustained_from gaps cw i
    | PaybackIndexError => False
    end.
Proof.
  intros Hcw Hlen. induction rest as [|g rest IH]; intros pre s Hg Hs Hsp Hrun Hnone.
  - cbn [payback_loop]. intros i Hi.
    destruct (Z_lt_ge_dec (Z.of_nat i) (Z.of_nat (length pre) - s)) as [Hlt | Hge].
    + exact (Hnone i Hlt Hi).
    + specialize (Hi (length pre - i)%nat ltac:(lia)).
      rewrite nth_overflow in Hi; [discriminate|].
      rewrite Hg, app_nil_r. lia.
  - assert (Hg' : gaps = (pre ++ [g]) ++ rest) by (rewrite <- app_assoc; exact Hg).
    assert (Hat : nth (length pre) gaps None = g)
      by (rewrite Hg; apply nth_middle_app).
    assert (Hlen' : length (pre ++ [g]) = S (length pre))
      by (rewrite length_app; cbn; lia).
    cbn [payback_loop]. destruct (gap_ge_0 g) eqn:Hge.
    + destruct (cw <=? s + 1)%Z eqn:Hfull.
      * apply Z.leb_le in Hfull.
        assert (Hidx : (Z.of_nat (length pre) - cw + 1
                        = Z.of_nat (length pre - Z.to_nat s))%Z) by lia.
        rewrite Hidx. unfold py_getitem.
        replace (0 <=? Z.of_nat (length pre - Z.to_nat s))%Z with true
          by (symmetry; apply Z.leb_le; lia).
        rewrite Nat2Z.id.
        destruct (nth_error weeks (length pre - Z.to_nat s)) as [w|] eqn:Hw.
        -- exists (length pre - Z.to_nat s)%nat. split; [exact Hw|]. split.
           ++ intros j Hj.
              destruct (Nat.eq_dec (length pre - Z.to_nat s + j)%nat (length pre))
                as [E | Hne]; [rewrite E, Hat; exact Hge|].
              apply Hrun; lia.
           ++ intros i' Hi'. apply Hnone. lia.
        -- apply nth_error_None in Hw.
           rewrite Hlen, Hg, length_app in Hw. cbn [length] in Hw. lia.
      * apply Z.leb_gt in Hfull.
        replace (Z.of_nat (length pre) + 1)%Z with (Z.of_nat (length (pre ++ [g])))
          by (rewrite Hlen'; lia).
        apply IH; [exact Hg' | lia | rewrite Hlen'; lia | |].
        -- intros j Hj1 Hj2. rewrite Hlen' in Hj1, Hj2.
           destruct (Nat.eq_dec j (length pre)) as [E | Hne];
             [rewrite E, Hat; exact Hge|].
           apply Hrun; lia.
        -- intros i Hi. rewrite Hlen' in Hi. apply Hnone. lia.
    + replace (Z.of_nat (length pre) + 1)%Z with (Z.of_nat (length (pre ++ [g])))
        by (rewrite Hlen'; lia).
      apply IH; [exact Hg' | lia | lia | |].
      * intros j Hj1 Hj2. rewrite Hlen' in Hj1, Hj2. lia.
      * intros i Hi Hsus. rewrite Hlen' in Hi.
        destruct (Z_lt_ge_dec (Z.of_nat i) (Z.of_nat (length pre) - s)) as [Hlt | Hge'].
        -- exact (Hnone i Hlt Hsus).
        -- specialize (Hsus (length pre - i)%nat ltac:(lia)).
           replace (i + (length pre - i))%nat with (length pre) in Hsus by lia.
           rewrite Hat in Hsus. congruence.
Qed.

(** X25.  Called with [consecutive_weeks >= 1],
    [compute_sustained_payback_week] never fails on its index: it
    returns the week of the first row from which [consecutive_weeks]
    rows in a row have a cumulative net that is not negative, and [None]
    exactly when the series has no such run (in particular when it is
    empty or shorter than [consecutive_weeks]); a NaN counts as
    negative. *)
Theorem sustained_payback_is_first_run (df_payback : list PaybackRow)
    (consecutive_weeks : Z) :
  (1 <= consecutive_weeks)%Z ->
  let gap := map cum_net_after_promo df_payback in
  match compute_sustained_payback_week df_payback consecutive_weeks with
  | PaybackWeek w =>
      exists i r, nth_error df_payback i = Some r /\ pb_wk r = w
                  /\ sustained_from gap consecutive_weeks i
                  /\ forall i', (i' < i)%nat ->
                                ~ sustained_from gap consecutive_weeks i'
  | NoPayback => forall i, ~ sustained_from gap consecutive_weeks i
  | PaybackIndexError => False
  end.
Proof.
  intros Hcw. cbv zeta. unfold compute_sustained_payback_week.
  destruct df_payback as [|r0 rows].
  - intros i Hi. specialize (Hi 0%nat ltac:(lia)).
    cbn in Hi. destruct i; discriminate.
  - cbv beta iota.
    pose proof (payback_loop_spec (map pb_wk (r0 :: rows))
                  (map cum_net_after_promo (r0 :: rows)) consecutive_weeks Hcw
                  ltac:(rewrite !length_map; reflexivity)
                  (map cum_net_after_promo (r0 :: rows)) [] 0%Z eq_refl
                  ltac:(lia) ltac:(cbn; lia)
                  ltac:(intros j _ Hj; cbn in Hj; lia)
                  ltac:(intros i Hi; cbn in Hi; lia)) as H.
    change (Z.of_nat (length (@nil (option Q)))) with 0%Z in H.
    destruct (payback_loop (map pb_wk (r0 :: rows)) consecutive_weeks
                           (map cum_net_after_promo (r0 :: rows)) 0 0) as [w| |];
      [|exact H | exact H].
    destruct H as (i & Hw & Hsus & Hfirst).
    rewrite nth_error_map in Hw.
    destruct (nth_error (r0 :: rows) i) as [r|] eqn:Hr; [|discriminate].
    injection Hw as Hw. exists i, r. auto.
Qed.

(** ** The cap of promotion hunters (simulate_ledger, lines 696-697) *)

Section HunterCap.
Context {RT : Runtime}.

Lemma place_bet_hunter_cap (c : Customer) (pe : bool) (W : list Event)
    (wk_idx : Z) (acc : WeekAcc) :
  always (place_bet c pe W wk_idx acc)
    (fun r => is_promo_hunter (segment c) = true ->
              promo_cost (p_cost (fst r)) <= stake_amount (p_bet (fst r)) * 0.06).
Proof.
  unfold place_bet.
  draw bt. draw x. draw i. draw hours. draw leg_events. draw bid. draw legs.
  destruct (settle_bet _ _ _) as [[payout stat] avg_odds].
  set (stake := np_clip x 5 2000).
  assert (Hstake : 5 <= stake <= 2000) by (apply np_clip_bounds; lra).
  pose proof (promo_cap_pos (weeks_active (acc_state acc))) as Hcap.
  draw trigger0. draw trigger.
  apply always_bind with (P := fun cost0 => trigger = false -> cost0 = 0.0).
  { destruct trigger.
    - draw u. apply always_ret. discriminate.
    - apply always_ret. reflexivity. }
  intros cost0 Hc0. draw st1. draw u.
  apply always_ret. cbn [fst p_bet p_cost promo_cost stake_amount].
  intros Hh. rewrite Hh. destruct trigger; cbn [andb].
  - apply py_min_le_r.
  - rewrite (Hc0 eq_refl), py_min_zero; [lra|].
    apply Qmult_le_0_compat; lra.
Qed.

(** X26.  The promotional cost of a bet placed by a promotion hunter
    never exceeds 6% of the stake, whatever the customer's tenure. *)
Theorem promo_hunter_cost_cap (dim_event : list Event)
    (customers : list Customer) (seed : Z) (churn_cfg : option ChurnConfig)
    (r0 : PyRandom) :
  Forall (fun cl =>
    Forall (fun e =>
      Forall (fun p =>
                segment (fst cl) = "promo_hunter" ->
                promo_cost (p_cost p) <= stake_amount (p_bet p) * 0.06)
             (placed_of (wl_outcome e)))
      (snd cl))
    (fst (simulate_ledger_log dim_event customers seed churn_cfg r0)).
Proof.
  pose proof (simulate_ledger_log_every
                (fun c _ _ p => is_promo_hunter (segment c) = true ->
                                promo_cost (p_cost p) <= stake_amount (p_bet p) * 0.06))
    as H.
  specialize (H ltac:(intros c pe W wk_idx acc _; apply place_bet_hunter_cap)).
  specialize (H dim_event customers seed churn_cfg r0).
  unfold every_bet in H.
  eapply Forall_impl; [exact H|]. intros cl Hcl.
  eapply Forall_impl; [exact Hcl|]. intros e He.
  eapply Forall_impl; [exact He|]. intros p Hp Hseg.
  apply Hp. unfold is_promo_hunter. rewrite Hseg. reflexivity.
Qed.

End HunterCap.

(** * The model on concrete runs *)

(** C1, witness: the default configuration, a casual customer entering
    its second week. *)
Lemma churn_prob_within_bounds_witness :
  min_churn DEFAULT_CHURN_CONFIG <= max_churn DEFAULT_CHURN_CONFIG
  /\ min_churn DEFAULT_CHURN_CONFIG
     <= churn_prob (RT := quiet_runtime) DEFAULT_CHURN_CONFIG "casual" second_week 1
     <= max_churn DEFAULT_CHURN_CONFIG.
Proof.
  split; [vm_compute; discriminate|].
  apply (churn_prob_within_bounds (RT := quiet_runtime)).
  vm_compute; discriminate.
Defined.

(** C1, counterexample: with [min_churn = 0.7 > max_churn = 0.65] the
    clamp returns [max_churn], which is below [min_churn]. *)
Lemma churn_prob_below_crossed_min :
  churn_prob (RT := quiet_runtime) crossed_cfg "casual" second_week 1 == 0.65
  /\ ~ (min_churn crossed_cfg
        <= churn_prob (RT := quiet_runtime) crossed_cfg "casual" second_week 1
        <= max_churn crossed_cfg).
Proof.
  split; [vm_compute; reflexivity|].
  intros [Hlo _]. vm_compute in Hlo. apply Hlo. reflexivity.
Qed.

(** C2, witness: the parlay of [parlay_runtime] on [calendar3] has two
    winning legs at decimal odds 212/112 and 205/105 and pays the stake
    of 30 times their product. *)
Lemma parlay_payout_correct_witness :
  forallb (fun p => BetType_eqb (bet_type (p_bet p)) parlay
                    && Qeq_bool (gross_payout (p_bet p))
                                (30 * ((212 # 112) * (205 # 105))))
          (all_placed (fst (simulate_ledger_log (RT := parlay_runtime)
                              calendar3 [casual1] 7 None [])))
  = true
  /\ Forall (fun p =>
               bet_type (p_bet p) = parlay ->
               gross_payout (p_bet p)
               == parlay_payout_rule (stake_amount (p_bet p)) (p_legs p))
            (all_placed (fst (simulate_ledger_log (RT := parlay_runtime)
                                calendar3 [casual1] 7 None []))).
Proof.
  split; [vm_compute; reflexivity|].
  apply (parlay_payout_correct (RT := parlay_runtime)).
Defined.

(** C3, witness: under [parlay_runtime] the customer bets once in week 0
    and churns in week 1; the log ends there. *)
Lemma churn_is_terminal_witness :
  map (fun cl => map (fun e => (wl_wk_idx e, length (placed_of (wl_outcome e))))
                     (snd cl))
      (fst (simulate_ledger_log (RT := parlay_runtime) calendar3 [casual1] 7 None []))
  = [[(0%Z, 1%nat); (1%Z, 0%nat)]]
  /\ Forall (fun cl =>
       forall e e', In e (snd cl) -> wl_outcome e = WkChurned -> In e' (snd cl) ->
         (wl_wk_idx e' <= wl_wk_idx e)%Z
         /\ (forall p, In p (placed_of (wl_outcome e')) ->
                       bet_customer_id (p_bet p) = customer_id (fst cl)
                       /\ (wl_wk_idx e' < wl_wk_idx e)%Z))
       (fst (simulate_ledger_log (RT := parlay_runtime) calendar3 [casual1] 7 None [])).
Proof.
  split; [vm_compute; reflexivity|].
  apply (churn_is_terminal (RT := parlay_runtime)).
Defined.

(** C4, witness: under [promo_runtime] the bet of 30 triggers a promotion
    whose uncapped cost, 30 * 0.160830, exceeds the cap of a first-week
    customer; the cost row carries 30 * 0.14. *)
Lemma promo_cost_within_tenure_cap_witness :
  forallb (fun p => Qeq_bool (stake_amount (p_bet p)) 30
                    && Qeq_bool (promo_cost (p_cost p)) (30 * 0.14))
          (all_placed (fst (simulate_ledger_log (RT := promo_runtime)
                              super_bowl [regular1] 7 None [])))
  = true
  /\ length (all_placed (fst (simulate_ledger_log (RT := promo_runtime)
                                super_bowl [regular1] 7 None []))) = 1%nat
  /\ Forall (fun cl =>
       Forall (fun e =>
         Forall (fun p =>
                   cost_bet_id (p_cost p) = bet_id (p_bet p)
                   /\ promo_cost (p_cost p)
                      <= stake_amount (p_bet p)
                         * promo_cap (weeks_active (wl_before e)))
                (placed_of (wl_outcome e)))
         (snd cl))
       (fst (simulate_ledger_log (RT := promo_runtime) super_bowl [regular1] 7 None [])).
Proof.
  split; [vm_compute; reflexivity|]. split; [vm_compute; reflexivity|].
  apply (promo_cost_within_tenure_cap (RT := promo_runtime)).
Defined.

(** C10, witness: the bet ledger of [quiet_runtime] on [calendar3] has one
    row, with stake 30. *)
Lemma stake_in_sane_range_witness :
  map (fun b => Qeq_bool (stake_amount b) 30)
      (fst (fst (fst (simulate_ledger (RT := quiet_runtime) calendar3 [casual1]
                                      7 None []))))
  = [true]
  /\ Forall (fun b => 5 <= stake_amount b <= 2000)
            (fst (fst (fst (simulate_ledger (RT := quiet_runtime) calendar3 [casual1]
                                            7 None [])))).
Proof.
  split; [vm_compute; reflexivity|].
  apply (stake_in_sane_range (RT := quiet_runtime)).
Defined.

(** C5, counterexample: under [quiet_runtime] every candidate and the
    base configuration produce the same ledger, so no candidate scores
    below the base configuration; the search still returns the first
    candidate, whose [inactivity_mult] is 2.3, not the base
    configuration, whose [inactivity_mult] is 2.5. *)
Lemma calibration_replaces_unbeaten_base :
  forallb (fun cell =>
             negb (Qltb (cell_score (RT := quiet_runtime) calendar3 [casual1] 7
                                    DEFAULT_CHURN_CONFIG cell)
                        (retention_score
                           (fst (evaluate_cfg (RT := quiet_runtime) calendar3
                                   [casual1] 7 DEFAULT_CHURN_CONFIG []))))) grid
  = true
  /\ Qeq_bool (inactivity_mult
                 (fst (fst (calibrate_churn_config (RT := quiet_runtime) calendar3
                              [casual1] DEFAULT_CHURN_CONFIG 7 []))))
              2.3 = true
  /\ Qeq_bool (inactivity_mult DEFAULT_CHURN_CONFIG) 2.3 = false.
Proof. vm_compute. repeat split. Qed.

(** C7, counterexample: with one run and base seeds 100 and 500, the row
    of run 1 carries the seeds 100 and 500, not 101 and 501; and on an
    empty calendar three runs append no row at all. *)
Lemma first_run_uses_the_base_seeds :
  map (fun r => (run_id r, row_customer_seed r, row_ledger_seed r))
      (fst (monte_carlo_runs (RT := quiet_runtime) calendar3 DEFAULT_CHURN_CONFIG
                             1 1 100 500 []))
  = [(1, 100, 500)%Z]
  /\ fst (monte_carlo_runs (RT := quiet_runtime) [] DEFAULT_CHURN_CONFIG
                           3 1 100 500 []) = [].
Proof. split; vm_compute; reflexivity. Qed.

(** C8, counterexample: under [quiet_runtime] the customer loses the book
    money in week 0 (streak 1), then places no bet in weeks 1 and 2: the
    net profit of those weeks is 0, not negative, yet the streak stays 1
    after week 1 and grows to 2 after week 2.  Columns: week index,
    number of bets, "net profit >= 0", streak before, streak after. *)
Lemma streak_survives_weeks_without_bets :
  map (fun cl =>
         map (fun e => (wl_wk_idx e, length (placed_of (wl_outcome e)),
                        Qle_bool 0 (week_net (wl_outcome e)),
                        negative_net_streak (wl_before e),
                        negative_net_streak (wl_after e)))
             (snd cl))
      (fst (simulate_ledger_log (RT := quiet_runtime) calendar3 [casual1] 7 None []))
  = [[(0, 1%nat, false, 0, 1); (1, 0%nat, true, 1, 1); (2, 0%nat, true, 1, 2)]%Z].
Proof. vm_compute. reflexivity. Qed.

(** C9, counterexample: in the one-game week of [super_bowl] the parlay
    bet 1 has a single row in the leg ledger. *)
Lemma parlay_with_a_single_leg :
  map (fun b => (bet_id b, bet_type b))
      (fst (fst (fst (simulate_ledger (RT := parlay_runtime) super_bowl [casual1]
                                      7 None []))))
  = [(1%Z, parlay)]
  /\ map leg_bet_id
         (snd (fst (fst (simulate_ledger (RT := parlay_runtime) super_bowl [casual1]
                                         7 None []))))
     = [1%Z].
Proof. split; vm_compute; reflexivity. Qed.

(** C9, witness: [calendar3] has distinct event ids; under
    [parlay_runtime] the parlay of week 0, a week with two games, has two
    legs. *)
Lemma legs_per_bet_witness :
  List.NoDup (map event_id calendar3)
  /\ map (fun p => (bet_type (p_bet p), length (p_legs p)))
         (all_placed (fst (simulate_ledger_log (RT := parlay_runtime)
                             calendar3 [casual1] 7 None [])))
     = [(parlay, 2%nat)]
  /\ Forall (fun cl =>
       Forall (fun e =>
         let W := week_events_at (load_events calendar3)
                                 (week_keys_of (load_events calendar3))
                                 (wl_wk_idx e) in
         Forall (fun p =>
                   W <> []
                   /\ match bet_type (p_bet p) with
                      | parlay =>
                          exists n, (2 <= n <= 4)%nat
                                    /\ length (p_legs p) = Nat.min n (length W)
                      | _ => length (p_legs p) = 1%nat
                      end)
                (placed_of (wl_outcome e)))
         (snd cl))
       (fst (simulate_ledger_log (RT := parlay_runtime) calendar3 [casual1] 7 None [])).
Proof.
  assert (Hnd : List.NoDup (map event_id calendar3)).
  { repeat constructor; simpl; intuition discriminate. }
  split; [exact Hnd|]. split; [vm_compute; reflexivity|].
  apply (legs_per_bet (RT := parlay_runtime)). exact Hnd.
Defined.

(** X2, witness: the leg of the moneyline bet of [quiet_runtime] on
    [calendar3], on the home side at -194, settles as a win. *)
Lemma moneyline_leg_never_pushes_witness :
  map (fun l => (market_type l, selection l, american_odds l, settled_result l))
      (legs_df (fst (simulate_ledger (RT := quiet_runtime) calendar3 [casual1]
                                     7 None [])))
  = [(moneyline, sel_home, (-194)%Z, win)]
  /\ Forall (fun l => market_type l = moneyline ->
                      line_value l = None
                      /\ (selection l = sel_home \/ selection l = sel_away)
                      /\ (settled_result l = win \/ settled_result l = lose)
                      /\ is_push l = false
                      /\ 1 < decimal_odds l /\ decimal_odds l <= 4.15)
            (legs_df (fst (simulate_ledger (RT := quiet_runtime) calendar3 [casual1]
                                           7 None []))).
Proof.
  split; [vm_compute; reflexivity|].
  apply (moneyline_leg_never_pushes (RT := quiet_runtime)).
Defined.

(** X11, witness: under [quiet_runtime] the customer bets in week 0 and
    enters weeks 1 and 2 with last bet week 0. *)
Lemma last_bet_week_is_earlier_witness :
  map (fun cl => map (fun e => (wl_wk_idx e, weeks_active (wl_before e),
                                last_bet_week_idx (wl_before e)))
                     (snd cl))
      (fst (simulate_ledger_log (RT := quiet_runtime) calendar3 [casual1] 7 None []))
  = [[(0, 0, None); (1, 1, Some 0); (2, 2, Some 0)]]%Z
  /\ Forall (fun cl =>
       Forall (fun e =>
                 (0 < weeks_active (wl_before e))%Z ->
                 exists w, last_bet_week_idx (wl_before e) = Some w
                           /\ (w < wl_wk_idx e)%Z)
              (snd cl))
       (fst (simulate_ledger_log (RT := quiet_runtime) calendar3 [casual1] 7 None [])).
Proof.
  split; [vm_compute; reflexivity|].
  apply (last_bet_week_is_earlier (RT := quiet_runtime)).
Defined.

(** X22, witness: under [promo_runtime] the bet of week 0 carries a
    promotional cost; afterwards the history is [0], week 0 is the last
    promotion week and the effect lasts 4 more weeks. *)
Lemma promo_history_is_recorded_witness :
  map (fun cl => map (fun e => (wl_wk_idx e,
                                count_promos (placed_of (wl_outcome e)),
                                promo_week_history (wl_after e),
                                last_promo_week_idx (wl_after e),
                                promo_effect_weeks_remaining (wl_after e)))
                     (snd cl))
      (fst (simulate_ledger_log (RT := promo_runtime) super_bowl [regular1] 7 None []))
  = [[(0%Z, 1%nat, [0%Z], Some 0%Z, 4%Z)]]
  /\ Forall (fun cl =>
       Forall (fun e =>
                 StronglySorted Z.lt (promo_week_history (wl_after e))
                 /\ Forall (fun w => (w <= wl_wk_idx e)%Z)
                           (promo_week_history (wl_after e))
                 /\ last_promo_week_idx (wl_after e)
                    = last (promo_week_history (wl_after e))
                 /\ ((0 < count_promos (placed_of (wl_outcome e)))%nat ->
                     last_promo_week_idx (wl_after e) = Some (wl_wk_idx e)
                     /\ (2 <= promo_effect_weeks_remaining (wl_after e))%Z))
              (snd cl))
       (fst (simulate_ledger_log (RT := promo_runtime) super_bowl [regular1] 7 None [])).
Proof.
  split; [vm_compute; reflexivity|].
  apply (promo_history_is_recorded (RT := promo_runtime)).
Defined.

(** X24, witness: a table whose only game is of season 2009. *)
Lemma empty_calendar_gives_empty_run_witness :
  Forall (fun ev => (season ev < 2010)%Z \/ week ev = None)
         [ev 1 2009 1 100 24 17 None None]
  /\ fst (simulate_ledger (RT := quiet_runtime) [ev 1 2009 1 100 24 17 None None]
                          [casual1] 7 None [])
     = ([], [], [])
  /\ fst (monte_carlo_runs (RT := quiet_runtime) [ev 1 2009 1 100 24 17 None None]
                           DEFAULT_CHURN_CONFIG 3 2 100 500 [])
     = [].
Proof.
  assert (H : Forall (fun ev => (season ev < 2010)%Z \/ week ev = None)
                     [ev 1 2009 1 100 24 17 None None]).
  { constructor; [left; cbn; lia | constructor]. }
  split; [exact H|].
  apply (empty_calendar_gives_empty_run (RT := quiet_runtime)). exact H.
Defined.

(** X25, witness: on [dipping_series] the sustained payback week at 4
    consecutive weeks is week 4, not week 1. *)
Lemma sustained_payback_is_first_run_witness :
  (1 <= 4)%Z
  /\ compute_sustained_payback_week dipping_series 4 = PaybackWeek 4
  /\ (let gap := map cum_net_after_promo dipping_series in
      match compute_sustained_payback_week dipping_series 4 with
      | PaybackWeek w =>
          exists i r, nth_error dipping_series i = Some r /\ pb_wk r = w
                      /\ sustained_from gap 4 i
                      /\ forall i', (i' < i)%nat -> ~ sustained_from gap 4 i'
      | NoPayback => forall i, ~ sustained_from gap 4 i
      | PaybackIndexError => False
      end).
Proof.
  split; [lia|]. split; [vm_compute; reflexivity|].
  apply sustained_payback_is_first_run. lia.
Defined.

(** X26, witness: under [promo_runtime] the promotion hunter's bet of 30
    triggers a promotion whose cost, capped at 30 * 0.14 by tenure, is
    cut to 30 * 0.06. *)
Lemma promo_hunter_cost_cap_witness :
  map (fun p => (Qeq_bool (stake_amount (p_bet p)) 30,
                 Qeq_bool (promo_cost (p_cost p)) (30 * 0.06)))
      (all_placed (fst (simulate_ledger_log (RT := promo_runtime)
                          super_bowl [hunter1] 7 None [])))
  = [(true, true)]
  /\ Forall (fun cl =>
       Forall (fun e =>
         Forall (fun p =>
                   segment (fst cl) = "promo_hunter" ->
                   promo_cost (p_cost p) <= stake_amount (p_bet p) * 0.06)
                (placed_of (wl_outcome e)))
         (snd cl))
       (fst (simulate_ledger_log (RT := promo_runtime) super_bowl [hunter1] 7 None [])).
Proof.
  split; [vm_compute; reflexivity|].
  apply (promo_hunter_cost_cap (RT := promo_runtime)).
Defined.
